(** * Tab Limiter: the MV3 service worker (background.js), embedded in Rocq

    The service worker is a set of asynchronous event handlers that talk to
    the browser through [chrome.*] calls.  The embedding keeps that shape:

    - a [World] holds what the browser holds (the session store, the sync
      store, the open tabs, the badge), the answers the browser is going to
      give (which calls reject, which of two racing promises settles first)
      and the trace of everything the worker asked the browser to do;
    - every [async function] of background.js is a computation in the
      monad [M] (state + exceptions) with the same name and the same
      statement order; [try { } catch { }] is [try_catch];
    - JavaScript values that the worker reads dynamically (the options
      object) are [JSVal]s with the coercions the operators apply.

    Handlers run one at a time: interleavings of two handlers at their
    [await] points are not part of this model. *)

From Stdlib Require Import ZArith String Ascii List Lia Bool.
From stdpp Require Import base option gmap strings list pretty.

Local Open Scope string_scope.
Local Open Scope list_scope.
Local Open Scope Z_scope.

(** ** JavaScript values *)

(** Numbers: the integers and [NaN].  Tab counts, session counters and the
    limits of the data model are integers.  A double holds the integers up
    to [2^53 - 1] in magnitude exactly, and on those the operations below
    are the operations of JavaScript; fractions, infinities and the
    rounding of larger integers are outside this number domain.  A
    statement that depends on the number a value is read as says which
    values it is about (see [reads_exactly]). *)
Inductive JSNum : Type :=
| Fin (z : Z)
| NaN.

Inductive JSVal : Type :=
| VUndefined
| VNull
| VBool (b : bool)
| VNum (n : JSNum)
| VStr (s : string)
| VObject (text : string).   (* an object or function, known by its string conversion *)

Module Num.

(** [a < b] on numbers: false as soon as one side is [NaN]. *)
Definition lt (a b : JSNum) : bool :=
  match a, b with
  | Fin x, Fin y => x <? y
  | _, _ => false
  end.

(** [a > b] is [b < a]. *)
Definition gt (a b : JSNum) : bool := lt b a.

Definition sub (a b : JSNum) : JSNum :=
  match a, b with
  | Fin x, Fin y => Fin (x - y)
  | _, _ => NaN
  end.

(** [Math.min(a, b)]. *)
Definition min (a b : JSNum) : JSNum :=
  match a, b with
  | Fin x, Fin y => Fin (Z.min x y)
  | _, _ => NaN
  end.

(** [n.toString()]. *)
Definition toString (n : JSNum) : string :=
  match n with
  | Fin z => pretty z
  | NaN => "NaN"
  end.

End Num.

(** Strings are sequences of 8-bit characters, read as ASCII text.  Among
    the characters of ASCII these six are the white space of the regular
    expression class [\s] and of the numeric conversion of strings.  The
    statements that look at the characters of a text are about ASCII text
    ([ascii_only]). *)
Definition is_white_space (c : ascii) : bool :=
  existsb (Ascii.eqb c) [" "; "009"; "010"; "011"; "012"; "013"]%char.

Definition digit_value (c : ascii) : option Z :=
  let n := Z.of_nat (nat_of_ascii c) in
  if (48 <=? n) && (n <=? 57) then Some (n - 48) else None.

Fixpoint parse_digits (acc : Z) (s : string) : option Z :=
  match s with
  | EmptyString => Some acc
  | String c s' =>
      match digit_value c with
      | Some d => parse_digits (10 * acc + d) s'
      | None => None
      end
  end.

Fixpoint trim_start (s : string) : string :=
  match s with
  | EmptyString => EmptyString
  | String c s' => if is_white_space c then trim_start s' else s
  end.

Definition trim (s : string) : string :=
  String.rev (trim_start (String.rev (trim_start s))).

(** [Number(s)] for a string: white space is trimmed, the empty string is
    [0], a signed run of decimal digits is that integer, a string that is
    no numeral is [NaN].  Numerals with a fraction, an exponent or a radix
    prefix, and [Infinity], denote numbers that may lie outside this number
    domain; this function gives [NaN] for them, and [reads_exactly] keeps
    them out of every statement that depends on the number read. *)
Definition StringToNumber (s : string) : JSNum :=
  match trim s with
  | EmptyString => Fin 0
  | String "+" (String c d) =>
      match parse_digits 0 (String c d) with Some z => Fin z | None => NaN end
  | String "-" (String c d) =>
      match parse_digits 0 (String c d) with Some z => Fin (- z) | None => NaN end
  | t => match parse_digits 0 t with Some z => Fin z | None => NaN end
  end.

Definition ToNumber (v : JSVal) : JSNum :=
  match v with
  | VUndefined => NaN
  | VNull => Fin 0
  | VBool b => if b then Fin 1 else Fin 0
  | VNum n => n
  | VStr s => StringToNumber s
  | VObject text => StringToNumber text   (* an ordinary object: [toString] decides *)
  end.

(** Truthiness, as [!v], [a || b] and [a && b] see it. *)
Definition ToBoolean (v : JSVal) : bool :=
  match v with
  | VUndefined | VNull => false
  | VBool b => b
  | VNum (Fin z) => negb (z =? 0)
  | VNum NaN => false
  | VStr s => negb (String.eqb s "")
  | VObject _ => true
  end.

Definition ToString (v : JSVal) : string :=
  match v with
  | VUndefined => "undefined"
  | VNull => "null"
  | VBool b => if b then "true" else "false"
  | VNum n => Num.toString n
  | VStr s => s
  | VObject text => text
  end.

(** [a || b]. *)
Definition js_or (a b : JSVal) : JSVal := if ToBoolean a then a else b.

(** An options object: property name to value. *)
Abbreviation Options := (gmap string JSVal).

(** What every plain object inherits from [Object.prototype]. *)
Definition native (name : string) : JSVal :=
  VObject ("function " +:+ name +:+ "() { [native code] }").

Definition Object_prototype : list (string * JSVal) :=
  [ ("constructor", native "Object");
    ("hasOwnProperty", native "hasOwnProperty");
    ("isPrototypeOf", native "isPrototypeOf");
    ("propertyIsEnumerable", native "propertyIsEnumerable");
    ("toLocaleString", native "toLocaleString");
    ("toString", native "toString");
    ("valueOf", native "valueOf");
    ("__defineGetter__", native "__defineGetter__");
    ("__defineSetter__", native "__defineSetter__");
    ("__lookupGetter__", native "__lookupGetter__");
    ("__lookupSetter__", native "__lookupSetter__");
    ("__proto__", VObject "[object Object]") ].

Fixpoint assoc (k : string) (l : list (string * JSVal)) : option JSVal :=
  match l with
  | [] => None
  | (k', v) :: l' => if String.eqb k k' then Some v else assoc k l'
  end.

(** [o[k]] and [o.k]: the own property, else the inherited one, else
    [undefined]. *)
Definition prop (o : Options) (k : string) : JSVal :=
  match o !! k with
  | Some v => v
  | None => default VUndefined (assoc k Object_prototype)
  end.

(** [v === s] for a string literal [s]. *)
Definition strict_eq_string (v : JSVal) (s : string) : bool :=
  match v with
  | VStr t => String.eqb t s
  | _ => false
  end.

(** ** The browser *)

Record Tab : Type := mkTab {
  id : Z;
  windowId : Z;
  pinned : bool
}.

(** The argument of [chrome.tabs.query]. *)
Record QueryInfo : Type := mkQuery {
  q_currentWindow : option bool;
  q_pinned : option bool
}.

Record Notification : Type := mkNotification {
  n_type : string;
  n_iconUrl : string;
  n_title : string;
  n_message : string
}.

(** The calls the worker makes on the browser. *)
Inductive Call : Type :=
| StorageSessionGet
| StorageSessionSet (updates : gmap string Z)
| StorageSyncGetKey (key : string)
| StorageSyncGet (defaults : Options)
| StorageSyncSetDefaultOptions (value : Options)
| TabsQuery (queryInfo : QueryInfo)
| TabsRemove (tabId : Z)
| WindowsCreate (tabId : Z) (focused : bool)
| NotificationsCreate (n : Notification)
| ActionSetBadgeText (text : string).

Inductive Error : Type :=
| Rejected (c : Call)
| TypeError (msg : string).

(** What an observer of the worker sees, in order. *)
Inductive Event : Type :=
| Called (c : Call)
| ConsoleError (msg : string) (e : Error).

Record World : Type := mkWorld {
  session : gmap string Z;                 (* chrome.storage.session *)
  sync_defaultOptions : option Options;    (* chrome.storage.sync, key "defaultOptions" *)
  sync_items : Options;                    (* chrome.storage.sync, the other keys *)
  tabs : list Tab;
  currentWindow : Z;
  badge : string;
  faults : list bool;                      (* per call to come: does it reject? *)
  races : list bool;                       (* per race of two rejections: does the second win? *)
  trace : list Event
}.

Definition set_session (f : gmap string Z → gmap string Z) (w : World) : World :=
  mkWorld (f (session w)) (sync_defaultOptions w) (sync_items w) (tabs w)
          (currentWindow w) (badge w) (faults w) (races w) (trace w).

Definition set_sync_defaultOptions (o : option Options) (w : World) : World :=
  mkWorld (session w) o (sync_items w) (tabs w)
          (currentWindow w) (badge w) (faults w) (races w) (trace w).

Definition set_tabs (ts : list Tab) (cw : Z) (w : World) : World :=
  mkWorld (session w) (sync_defaultOptions w) (sync_items w) ts
          cw (badge w) (faults w) (races w) (trace w).

Definition set_badge (b : string) (w : World) : World :=
  mkWorld (session w) (sync_defaultOptions w) (sync_items w) (tabs w)
          (currentWindow w) b (faults w) (races w) (trace w).

Definition set_faults (fs : list bool) (w : World) : World :=
  mkWorld (session w) (sync_defaultOptions w) (sync_items w) (tabs w)
          (currentWindow w) (badge w) fs (races w) (trace w).

Definition set_races (rs : list bool) (w : World) : World :=
  mkWorld (session w) (sync_defaultOptions w) (sync_items w) (tabs w)
          (currentWindow w) (badge w) (faults w) rs (trace w).

Definition emit (e : Event) (w : World) : World :=
  mkWorld (session w) (sync_defaultOptions w) (sync_items w) (tabs w)
          (currentWindow w) (badge w) (faults w) (races w) (trace w ++ [e]).

(** ** The monad of asynchronous functions *)

Inductive Result (A : Type) : Type :=
| Ok (a : A)
| Throw (e : Error).
Arguments Ok {A} a.
Arguments Throw {A} e.

Definition M (A : Type) : Type := World → Result A * World.

#[global] Instance M_ret : MRet M := λ A a w, (Ok a, w).

#[global] Instance M_bind : MBind M := λ A B f m w,
  match m w with
  | (Ok a, w') => f a w'
  | (Throw e, w') => (Throw e, w')
  end.

Definition throw {A} (e : Error) : M A := λ w, (Throw e, w).

(** [try { m } catch (error) { h error }]: what [m] did before it threw
    stays done. *)
Definition try_catch {A} (m : M A) (h : Error → M A) : M A := λ w,
  match m w with
  | (Ok a, w') => (Ok a, w')
  | (Throw e, w') => h e w'
  end.

Definition get_world : M World := λ w, (Ok w, w).

Definition modify (f : World → World) : M unit := λ w, (Ok tt, f w).

(** [console.error(msg, error)]. *)
Definition console_error (msg : string) (e : Error) : M unit :=
  modify (emit (ConsoleError msg e)).

(** The world after a call on the browser: the call is recorded and the
    next fault bit is used up. *)
Definition after_call (c : Call) (w : World) : World :=
  set_faults (tail (faults w)) (emit (Called c) w).

(** One call on the browser; it rejects when the next fault bit is set. *)
Definition invoke (c : Call) : M unit := λ w,
  match faults w with
  | true :: _ => (Throw (Rejected c), after_call c w)
  | _ => (Ok tt, after_call c w)
  end.

(** [Promise.all([p1, p2])] for two asynchronous functions whose only
    [await] is their first browser call: both calls are issued, in array
    order, before either settles; the results come back by position.  When
    both reject the rejection that settles first wins. *)
Definition Promise_all2 {A B} (p1 : M A) (p2 : M B) : M (A * B) := λ w,
  let '(r1, w1) := p1 w in
  let '(r2, w2) := p2 w1 in
  match r1, r2 with
  | Ok a, Ok b => (Ok (a, b), w2)
  | Throw e, Ok _ => (Throw e, w2)
  | Ok _, Throw e => (Throw e, w2)
  | Throw e1, Throw e2 =>
      match races w2 with
      | true :: rs => (Throw e2, set_races rs w2)
      | _ => (Throw e1, set_races (tail (races w2)) w2)
      end
  end.

(** ** chrome.* *)

Record State : Type := mkState {
  tabCount : Z;
  previousTabCount : Z;
  amountOfTabsCreated : Z;
  passes : Z
}.

(** What [chrome.storage.session.get(defaults)] answers from a store: each
    key of [defaults], with the stored value when there is one. *)
Definition read_session (defaults : State) (store : gmap string Z) : State :=
  {| tabCount := default (tabCount defaults) (store !! "tabCount");
     previousTabCount := default (previousTabCount defaults) (store !! "previousTabCount");
     amountOfTabsCreated := default (amountOfTabsCreated defaults) (store !! "amountOfTabsCreated");
     passes := default (passes defaults) (store !! "passes") |}.

Definition chrome_storage_session_get (defaults : State) : M State :=
  invoke StorageSessionGet;;
  w ← get_world;
  mret (read_session defaults (session w)).

(** [chrome.storage.session.set(updates)]: the keys of [updates] are
    overwritten, the others stay. *)
Definition chrome_storage_session_set (updates : gmap string Z) : M unit :=
  invoke (StorageSessionSet updates);;
  modify (set_session (λ store, updates ∪ store)).

(** [chrome.storage.sync.get("defaultOptions")], projected on
    [.defaultOptions]: [None] is [undefined]. *)
Definition chrome_storage_sync_get_defaultOptions : M (option Options) :=
  invoke (StorageSyncGetKey "defaultOptions");;
  w ← get_world;
  mret (sync_defaultOptions w).

(** [chrome.storage.sync.get(defaults)]. *)
Definition chrome_storage_sync_get (defaults : Options) : M Options :=
  invoke (StorageSyncGet defaults);;
  w ← get_world;
  mret (map_imap (λ k d, Some (default d (sync_items w !! k))) defaults).

(** [chrome.storage.sync.set({ defaultOptions: value })]. *)
Definition chrome_storage_sync_set_defaultOptions (value : Options) : M unit :=
  invoke (StorageSyncSetDefaultOptions value);;
  modify (set_sync_defaultOptions (Some value)).

Definition query_matches (cw : Z) (q : QueryInfo) (t : Tab) : bool :=
  match q_currentWindow q with
  | Some b => Bool.eqb (windowId t =? cw) b
  | None => true
  end &&
  match q_pinned q with
  | Some b => Bool.eqb (pinned t) b
  | None => true
  end.

Definition chrome_tabs_query (q : QueryInfo) : M (list Tab) :=
  invoke (TabsQuery q);;
  w ← get_world;
  mret (List.filter (query_matches (currentWindow w) q) (tabs w)).

Definition has_tab (tabId : Z) (ts : list Tab) : bool :=
  existsb (λ t, id t =? tabId) ts.

(** [chrome.tabs.remove(tabId)]: rejects when there is no such tab. *)
Definition chrome_tabs_remove (tabId : Z) : M unit :=
  invoke (TabsRemove tabId);;
  w ← get_world;
  if has_tab tabId (tabs w)
  then modify (set_tabs (List.filter (λ t, negb (id t =? tabId)) (tabs w)) (currentWindow w))
  else throw (Rejected (TabsRemove tabId)).

Definition fresh_window (w : World) : Z :=
  1 + fold_right Z.max (currentWindow w) (map windowId (tabs w)).

(** [chrome.windows.create({ tabId, focused })]: the tab moves to a new
    window, which takes the focus when asked to. *)
Definition chrome_windows_create (tabId : Z) (focused : bool) : M unit :=
  invoke (WindowsCreate tabId focused);;
  w ← get_world;
  if has_tab tabId (tabs w)
  then
    let nw := fresh_window w in
    modify (set_tabs
              (map (λ t, if id t =? tabId then mkTab (id t) nw (pinned t) else t) (tabs w))
              (if focused then nw else currentWindow w))
  else throw (Rejected (WindowsCreate tabId focused)).

Definition chrome_notifications_create (n : Notification) : M unit :=
  invoke (NotificationsCreate n).

Definition chrome_action_setBadgeText (text : string) : M unit :=
  invoke (ActionSetBadgeText text);;
  modify (set_badge text).

(** ** Exceptions in synchronous code *)

#[global] Instance Result_ret : MRet Result := λ A a, Ok a.

#[global] Instance Result_bind : MBind Result := λ A B f r,
  match r with
  | Ok a => f a
  | Throw e => Throw e
  end.

(** A synchronous computation inside an asynchronous function. *)
Definition lift {A} (r : Result A) : M A := λ w, (r, w).

(** ** The regular expression of the alert template

    [/{\s*(\S+)\s*}/g] is a sequence of five pieces, each a character
    class under a greedy quantifier.  [match_here] is the backtracking
    matcher: a quantified piece first takes as many characters as it can
    and gives them back one at a time while the rest of the pattern fails. *)

Inductive CharClass : Type :=
| Lit (c : ascii)     (* the character itself *)
| Space               (* \s *)
| NonSpace.           (* \S *)

Inductive Quantifier : Type :=
| Once
| Star                (* zero or more, greedy *)
| Plus.               (* one or more, greedy *)

Definition accepts (k : CharClass) (c : ascii) : bool :=
  match k with
  | Lit c' => Ascii.eqb c c'
  | Space => is_white_space c
  | NonSpace => negb (is_white_space c)
  end.

(** A match: the text each piece consumed, in pattern order, and the input
    that is left. *)
Abbreviation Match := (list string * string)%type.

Definition consumed_more (c : ascii) (m : option Match) : option Match :=
  match m with
  | Some (g :: gs, rest) => Some (String c g :: gs, rest)
  | _ => None
  end.

Definition consumed_nothing (m : option Match) : option Match :=
  match m with
  | Some (gs, rest) => Some (EmptyString :: gs, rest)
  | None => None
  end.

Fixpoint greedy (k : CharClass) (cont : string → option Match) (s : string) : option Match :=
  match s with
  | String c s' =>
      if accepts k c then
        match consumed_more c (greedy k cont s') with
        | Some m => Some m
        | None => consumed_nothing (cont s)
        end
      else consumed_nothing (cont s)
  | EmptyString => consumed_nothing (cont s)
  end.

Definition once (k : CharClass) (cont : string → option Match) (s : string) : option Match :=
  match s with
  | String c s' => if accepts k c then consumed_more c (consumed_nothing (cont s')) else None
  | EmptyString => None
  end.

Definition plus (k : CharClass) (cont : string → option Match) (s : string) : option Match :=
  match s with
  | String c s' => if accepts k c then consumed_more c (greedy k cont s') else None
  | EmptyString => None
  end.

Fixpoint match_here (p : list (CharClass * Quantifier)) : string → option Match :=
  match p with
  | [] => λ s, Some ([], s)
  | (k, Once) :: p' => once k (match_here p')
  | (k, Star) :: p' => greedy k (match_here p')
  | (k, Plus) :: p' => plus k (match_here p')
  end.

(** [/{\s*(\S+)\s*}/]: the capture group is the third piece. *)
Definition token_regex : list (CharClass * Quantifier) :=
  [ (Lit "{", Once); (Space, Star); (NonSpace, Plus); (Space, Star); (Lit "}", Once) ]%char.

Definition matched_text (gs : list string) : string := fold_right String.app EmptyString gs.

Definition group1 (gs : list string) : string := nth 2 gs EmptyString.

(** [s.replace(/{\s*(\S+)\s*}/g, f)] on a string [s]: the scan goes left to
    right; at a match the replacement [String(f(match, p1))] is written
    and the scan resumes behind the match ([skip] counts the characters
    of the match still to step over); elsewhere the character is copied. *)
Fixpoint replace_from (skip : nat) (f : string → string → Result JSVal) (s : string)
  : Result string :=
  match s with
  | EmptyString => Ok EmptyString
  | String c s' =>
      match skip with
      | S n => replace_from n f s'
      | O =>
          match match_here token_regex s with
          | Some (gs, _) =>
              v ← f (matched_text gs) (group1 gs);
              r ← replace_from (String.length (matched_text gs) - 1) f s';
              Ok (ToString v +:+ r)
          | None =>
              r ← replace_from 0 f s';
              Ok (String c r)
          end
      end
  end.

(** [options.alertMessage.replace(regex, f)]: only a string has the method;
    [undefined] and [null] have no properties at all. *)
Definition String_replace (this : JSVal) (f : string → string → Result JSVal) : Result string :=
  match this with
  | VStr s => replace_from 0 f s
  | VUndefined => Throw (TypeError "Cannot read properties of undefined (reading 'replace')")
  | VNull => Throw (TypeError "Cannot read properties of null (reading 'replace')")
  | _ => Throw (TypeError "options.alertMessage.replace is not a function")
  end.

(** ** background.js *)

Definition DEFAULT_OPTIONS : Options :=
  {[ "maxTotal" := VNum (Fin 50);
     "maxWindow" := VNum (Fin 20);
     "exceedTabNewWindow" := VBool false;
     "displayAlert" := VBool true;
     "countPinnedTabs" := VBool false;
     "displayBadge" := VBool false;
     "alertMessage" := VStr "You decided not to open more than {maxPlace} tabs in {place}" ]}.

(** *** State management *)

Definition getSessionState : M State :=
  try_catch
    (chrome_storage_session_get
       {| tabCount := -1; previousTabCount := -1; amountOfTabsCreated := -1; passes := 0 |})
    (λ error,
       console_error "Failed to get session state:" error;;
       mret {| tabCount := -1; previousTabCount := -1; amountOfTabsCreated := -1; passes := 0 |}).

Definition updateSessionState (updates : gmap string Z) : M unit :=
  try_catch
    (chrome_storage_session_set updates)
    (λ error, console_error "Failed to update session state:" error).

(** *** Options management *)

Definition getOptions : M Options :=
  try_catch
    (defaults ← chrome_storage_sync_get_defaultOptions;
     options ← chrome_storage_sync_get (default DEFAULT_OPTIONS defaults);
     mret options)
    (λ error,
       console_error "Failed to get options:" error;;
       mret DEFAULT_OPTIONS).

(** *** Tab query utilities *)

Definition tabQuery (options : Options) (params : QueryInfo) : M (list Tab) :=
  let params :=
    if negb (ToBoolean (prop options "countPinnedTabs"))
    then mkQuery (q_currentWindow params) (Some false)
    else params in
  chrome_tabs_query params.

Definition windowRemaining (options : Options) : M JSNum :=
  tabs ← tabQuery options (mkQuery (Some true) None);
  mret (Num.sub (ToNumber (prop options "maxWindow")) (Fin (Z.of_nat (List.length tabs)))).

Definition totalRemaining (options : Options) : M JSNum :=
  tabs ← tabQuery options (mkQuery None None);
  mret (Num.sub (ToNumber (prop options "maxTotal")) (Fin (Z.of_nat (List.length tabs)))).

(** *** Badge management *)

Definition updateBadge (options : Options) : M unit :=
  try_catch
    (if negb (ToBoolean (prop options "displayBadge"))
     then chrome_action_setBadgeText ""
     else
       remaining ← Promise_all2 (windowRemaining options) (totalRemaining options);
       chrome_action_setBadgeText (Num.toString (Num.min remaining.1 remaining.2)))
    (λ error, console_error "Failed to update badge:" error).

(** *** Tab count tracking *)

Definition updateTabCount : M Z :=
  try_catch
    (tabs ← chrome_tabs_query (mkQuery None None);
     state ← getSessionState;
     if Z.of_nat (List.length tabs) =? tabCount state
     then mret (amountOfTabsCreated state)
     else
       let previousTabCount := tabCount state in
       let tabCount := Z.of_nat (List.length tabs) in
       let amountOfTabsCreated :=
         if negb (previousTabCount =? -1) then tabCount - previousTabCount else 0 in
       updateSessionState
         {[ "previousTabCount" := previousTabCount;
            "tabCount" := tabCount;
            "amountOfTabsCreated" := amountOfTabsCreated ]};;
       mret amountOfTabsCreated)
    (λ error,
       console_error "Failed to update tab count:" error;;
       mret 0).

(** *** Tab limit detection *)

Definition detectTooManyTabsInWindow (options : Options) : M JSVal :=
  tabs ← tabQuery options (mkQuery (Some true) None);
  if Num.lt (ToNumber (prop options "maxWindow")) (Fin 1) then mret VNull
  else if Num.gt (Fin (Z.of_nat (List.length tabs))) (ToNumber (prop options "maxWindow"))
       then mret (VStr "window")
       else mret VNull.

Definition detectTooManyTabsInTotal (options : Options) : M JSVal :=
  tabs ← tabQuery options (mkQuery None None);
  if Num.lt (ToNumber (prop options "maxTotal")) (Fin 1) then mret VNull
  else if Num.gt (Fin (Z.of_nat (List.length tabs))) (ToNumber (prop options "maxTotal"))
       then mret (VStr "total")
       else mret VNull.

Definition detectTabLimitExceeded (options : Options) : M JSVal :=
  '(windowResult, totalResult) ←
    Promise_all2 (detectTooManyTabsInWindow options) (detectTooManyTabsInTotal options);
  mret (js_or windowResult totalResult).

(** *** Notification *)

Definition toUpperCase (c : ascii) : ascii :=
  let n := nat_of_ascii c in
  if (97 <=? n)%nat && (n <=? 122)%nat then ascii_of_nat (n - 32) else c.

(** [string[0].toUpperCase() + string.slice(1)]: [string[0]] is
    [undefined] unless [string] is a string with a first character. *)
Definition capitalizeFirstLetter (string : JSVal) : Result String.string :=
  match string with
  | VStr (String c s') => Ok (String (toUpperCase c) s')
  | _ => Throw (TypeError "Cannot read properties of undefined (reading 'toUpperCase')")
  end.

Definition replacer (options : Options) (place : JSVal) (match_ p1 : string) : Result JSVal :=
  if String.eqb p1 "place" || String.eqb p1 "which" then
    Ok (VStr (if strict_eq_string place "window" then "one window" else "total"))
  else if String.eqb p1 "maxPlace" || String.eqb p1 "maxWhich" then
    cap ← capitalizeFirstLetter place;
    Ok (prop options ("max" +:+ cap))
  else
    Ok (js_or (prop options p1) (VStr "?")).

Definition renderedMessage (options : Options) (place : JSVal) : Result string :=
  String_replace (prop options "alertMessage") (replacer options place).

Definition displayAlert (options : Options) (place : JSVal) : M JSVal :=
  if negb (ToBoolean (prop options "displayAlert")) then mret (VBool false)
  else
    renderedMessage ← lift (renderedMessage options place);
    try_catch
      (chrome_notifications_create
         {| n_type := "basic";
            n_iconUrl := "icons/48.png";
            n_title := "Tab Limiter";
            n_message := renderedMessage |})
      (λ error, console_error "Failed to display notification:" error);;
    mret VUndefined.

(** *** Tab exceed handling *)

Definition handleExceedTabs (tab : Tab) (options : Options) (place : JSVal) : M unit :=
  try_catch
    (if ToBoolean (prop options "exceedTabNewWindow") && strict_eq_string place "window"
     then chrome_windows_create (id tab) true
     else chrome_tabs_remove (id tab))
    (λ error, console_error "Failed to handle exceed tabs:" error).

(** *** Event handlers *)

Definition handleUpdate : M unit :=
  try_catch
    (updateTabCount;;
     options ← getOptions;
     updateBadge options)
    (λ error, console_error "Failed to handle update:" error).

Definition handleInstalled (details : JSVal) : M unit :=
  try_catch
    (chrome_storage_sync_set_defaultOptions DEFAULT_OPTIONS;;
     handleUpdate)
    (λ error, console_error "Failed to handle install:" error).

Definition handleTabCreated (tab : Tab) : M unit :=
  try_catch
    (options ← getOptions;
     place ← detectTabLimitExceeded options;
     if negb (ToBoolean place) then handleUpdate
     else
       amountOfTabsCreated ← updateTabCount;
       state ← getSessionState;
       if passes state >? 0 then updateSessionState {[ "passes" := passes state - 1 ]}
       else
         displayAlert options place;;
         if amountOfTabsCreated =? 1 then
           handleExceedTabs tab options place;;
           handleUpdate
         else if amountOfTabsCreated >? 1 then
           updateSessionState {[ "passes" := amountOfTabsCreated - 1 ]}
         else if amountOfTabsCreated =? -1 then
           handleExceedTabs tab options place;;
           handleUpdate
         else mret tt)
    (λ error, console_error "Failed to handle tab created:" error).

(** *** Listeners and initialisation *)

Inductive BrowserEvent : Type :=
| tabs_onCreated (tab : Tab)
| tabs_onRemoved
| tabs_onUpdated
| windows_onFocusChanged
| runtime_onInstalled (details : JSVal)
| worker_start.        (* the top-level initialisation of the script *)

Definition listener (ev : BrowserEvent) : M unit :=
  match ev with
  | tabs_onCreated tab => handleTabCreated tab
  | tabs_onRemoved => handleUpdate
  | tabs_onUpdated => handleUpdate
  | windows_onFocusChanged => handleUpdate
  | runtime_onInstalled details => handleInstalled details
  | worker_start =>
      try_catch handleUpdate (λ error, console_error "Failed to initialize:" error)
  end.

(** ** tests/background.test.js: the session-state helper

    The test suite carries its own [SessionState] object over the same
    store; its [decrementPasses] is where the floor at 0 is written. *)

Definition SESSION_STATE_DEFAULTS : State :=
  {| tabCount := -1; previousTabCount := -1; amountOfTabsCreated := -1; passes := 0 |}.

Module SessionState.

Definition get : M State :=
  try_catch
    (chrome_storage_session_get SESSION_STATE_DEFAULTS)
    (λ error, mret SESSION_STATE_DEFAULTS).

Definition set (updates : gmap string Z) : M unit :=
  try_catch
    (chrome_storage_session_set updates)
    (λ error, console_error "Failed to update session state:" error).

Definition initialize : M unit :=
  set {[ "tabCount" := -1; "previousTabCount" := -1; "amountOfTabsCreated" := -1;
         "passes" := 0 ]}.

Definition incrementPasses (amount : Z) : M Z :=
  state ← get;
  let newPasses := passes state + amount in
  set {[ "passes" := newPasses ]};;
  mret newPasses.

Definition decrementPasses : M Z :=
  state ← get;
  let newPasses := Z.max 0 (passes state - 1) in
  set {[ "passes" := newPasses ]};;
  mret newPasses.

Definition resetPasses : M unit :=
  set {[ "passes" := 0 ]}.

End SessionState.

(** ** tests/service-worker.test.js: the detector of the edge-case suite

    The suite of edge cases carries its own [detectTabLimitExceeded]: both
    queries first, then the two comparisons against [MIN_ALLOWED_TABS]. *)

(** [a >= b] on numbers: false as soon as one side is [NaN]. *)
Definition Num_ge (a b : JSNum) : bool :=
  match a, b with
  | Fin x, Fin y => y <=? x
  | _, _ => false
  end.

Definition MIN_ALLOWED_TABS : JSNum := Fin 1.

Module EdgeCases.

Definition detectTabLimitExceeded (options : Options) : M JSVal :=
  '(windowTabs, totalTabs) ←
    Promise_all2 (tabQuery options (mkQuery (Some true) None))
                 (tabQuery options (mkQuery None None));
  if Num_ge (ToNumber (prop options "maxWindow")) MIN_ALLOWED_TABS &&
     Num.gt (Fin (Z.of_nat (List.length windowTabs))) (ToNumber (prop options "maxWindow"))
  then mret (VStr "window")
  else if Num_ge (ToNumber (prop options "maxTotal")) MIN_ALLOWED_TABS &&
          Num.gt (Fin (Z.of_nat (List.length totalTabs))) (ToNumber (prop options "maxTotal"))
       then mret (VStr "total")
       else mret VNull.

End EdgeCases.

(** ** Calls in a row *)

(** [n] calls in a row, each awaited. *)
Fixpoint in_a_row {A} (n : nat) (m : M A) : M unit :=
  match n with
  | O => mret tt
  | S n' => m;; in_a_row n' m
  end.

(** * Vocabulary of the statements *)

(** ** The session state *)

(** The session state of a store that holds nothing: what
    [getSessionState] asks for as defaults and falls back on. *)
Definition default_state : State :=
  {| tabCount := -1; previousTabCount := -1; amountOfTabsCreated := -1; passes := 0 |}.

(** The session state the store of [w] holds. *)
Definition stored_state (w : World) : State :=
  read_session default_state (session w).

(** The alert template of the options is a string, as the data model of the
    configuration has it. *)
Definition well_typed (options : Options) : Prop :=
  ∃ template, prop options "alertMessage" = VStr template.


(** ** Events *)

(** The calls that only read, or write what no limit decision reads. *)
Definition benign (c : Call) : bool :=
  match c with
  | StorageSessionGet | StorageSyncGetKey _ | StorageSyncGet _
  | StorageSyncSetDefaultOptions _ | TabsQuery _ | ActionSetBadgeText _ => true
  | StorageSessionSet _ | TabsRemove _ | WindowsCreate _ _ | NotificationsCreate _ => false
  end.

(** Does the event close or relocate a tab? *)
Definition enforcement (e : Event) : bool :=
  match e with
  | Called (TabsRemove _) | Called (WindowsCreate _ _) => true
  | _ => false
  end.

(** Does the event display an alert? *)
Definition alert (e : Event) : bool :=
  match e with
  | Called (NotificationsCreate _) => true
  | _ => false
  end.

(** The value the event asks to store under ["passes"], if any. *)
Definition passes_written (e : Event) : option Z :=
  match e with
  | Called (StorageSessionSet u) => u !! "passes"
  | _ => None
  end.

(** Events of the bookkeeping: no enforcement, no alert, no write of passes. *)
Definition bookkeeping (e : Event) : Prop :=
  enforcement e = false ∧ alert e = false ∧ passes_written e = None.

(** Events that leave the tabs and the pass counter alone (alerts may show). *)
Definition harmless (e : Event) : Prop :=
  enforcement e = false ∧ passes_written e = None.

(** Events without enforcement and without alert. *)
Definition silent (e : Event) : Prop :=
  enforcement e = false ∧ alert e = false.

(** Events that neither close nor relocate a tab. *)
Definition no_enforcement (e : Event) : Prop := enforcement e = false.

Definition writes_nonneg (e : Event) : Prop :=
  ∀ p, passes_written e = Some p → 0 ≤ p.

(** ** Frames *)

(** A frame: a relation between the world before and after a run that
    every step whose events are [allowed] respects. *)
Class Frame (allowed : Event → Prop) (R : World → World → Prop) : Prop := {
  frame_refl w : R w w;
  frame_trans w1 w2 w3 : R w1 w2 → R w2 w3 → R w1 w3;
  frame_call c w : allowed (Called c) → R w (after_call c w);
  frame_console msg e w : R w (emit (ConsoleError msg e) w);
  frame_races rs w : R w (set_races rs w);
  frame_badge b w : R w (set_badge b w);
  frame_tabs ts cw w : R w (set_tabs ts cw w);
  frame_sync o w : R w (set_sync_defaultOptions o w);
  frame_session u w :
    allowed (Called (StorageSessionSet u)) → R w (set_session (λ store, u ∪ store) w);
  allowed_benign c : benign c = true → allowed (Called c);
  allowed_counters (u : gmap string Z) :
    u !! "passes" = None → allowed (Called (StorageSessionSet u))
}.

Definition steps (R : World → World → Prop) {A} (m : M A) : Prop :=
  ∀ w r w', m w = (r, w') → R w w'.

(** [extends P w w']: the run from [w] to [w'] added events that satisfy [P]. *)
Definition extends (P : Event → Prop) (w w' : World) : Prop :=
  ∃ evs, trace w' = trace w ++ evs ∧ Forall P evs.

(** The stored pass counter is the same before and after. *)
Definition same_passes (w w' : World) : Prop :=
  session w' !! "passes" = session w !! "passes".

(** The pass counter of a store is not negative. *)
Definition passes_nonneg (store : gmap string Z) : Prop :=
  ∀ p, store !! "passes" = Some p → 0 ≤ p.

Definition keeps_nonneg (w w' : World) : Prop :=
  passes_nonneg (session w) → passes_nonneg (session w').

(** A browser that accepts every call keeps doing so. *)
Definition all_accepted (w w' : World) : Prop :=
  faults w = [] → faults w' = [].

(** ** The browser's answers and sequences of events *)

(** The browser accepts the next [n] calls. *)
Definition calm (n : nat) (w : World) : Prop :=
  forallb negb (firstn n (faults w)) = true.

(** In [w] the browser accepts every call, and a creation event finds a
    limit exceeded under the options it reads. *)
Definition finds_limit_exceeded (options : Options) (w : World) : Prop :=
  faults w = [] ∧
  ∃ w1 place w2,
    getOptions w = (Ok options, w1) ∧
    detectTabLimitExceeded options w1 = (Ok place, w2) ∧
    ToBoolean place = true.

(** [n] such creation events in a row, from [w] to [w'].  Between two of
    them the browser may change anything but the session store and what
    the worker has emitted. *)
Inductive exceeded_events : nat → World → World → Prop :=
| exceeded_events_0 w : exceeded_events 0 w w
| exceeded_events_S n tab options w wa wb wc :
    session wa = session w →
    trace wa = trace w →
    finds_limit_exceeded options wa →
    handleTabCreated tab wa = (Ok tt, wb) →
    exceeded_events n wb wc →
    exceeded_events (S n) w wc.

(** The worlds the worker can be in: the session store starts empty (and is
    empty again after a browser restart); a listener runs on an event; the
    browser changes anything but the session store, which only the worker
    writes. *)
Inductive reachable : World → Prop :=
| reachable_start w : session w = ∅ → reachable w
| reachable_event ev w r w' : reachable w → listener ev w = (r, w') → reachable w'
| reachable_browser w w' : reachable w → session w' = session w → reachable w'.

(** What [handleTabCreated] does after the alert, by the delta. *)
Definition after_alert (tab : Tab) (options : Options) (place : JSVal) (delta : Z) : M unit :=
  try_catch
    (if delta =? 1 then
       handleExceedTabs tab options place;;
       handleUpdate
     else if delta >? 1 then
       updateSessionState {[ "passes" := delta - 1 ]}
     else if delta =? -1 then
       handleExceedTabs tab options place;;
       handleUpdate
     else mret tt)
    (λ error, console_error "Failed to handle tab created:" error).

(** ** Templates, in the words of the specification *)









Fixpoint string_forall (p : ascii → bool) (s : string) : bool :=
  match s with
  | EmptyString => true
  | String c s' => p c && string_forall p s'
  end.







(** ** Numbers and text that are read exactly *)







(** ** What a run leaves as it is, and the tabs that count *)

(** The user's stored option items are the same before and after. *)
Definition same_items (w w' : World) : Prop :=
  sync_items w' = sync_items w.

(** What only the browser and the install handler change is the same before
    and after: the tabs, the window that has the focus and the sync store. *)
Definition untouched (w w' : World) : Prop :=
  tabs w' = tabs w ∧ currentWindow w' = currentWindow w ∧
  sync_defaultOptions w' = sync_defaultOptions w ∧ sync_items w' = sync_items w.

(** The tabs and the focus are the same before and after. *)
Definition same_tabs (w w' : World) : Prop :=
  tabs w' = tabs w ∧ currentWindow w' = currentWindow w.

(** The session store is the same before and after. *)
Definition same_session (w w' : World) : Prop := session w' = session w.

(** Does the tab count towards the limits under these options? *)
Definition countable (options : Options) (t : Tab) : bool :=
  ToBoolean (prop options "countPinnedTabs") || negb (pinned t).

(** The tabs the limits are about: those of the current window, and all of
    them, each without the pinned ones unless the options count them. *)
Definition window_tabs (options : Options) (w : World) : list Tab :=
  List.filter (λ t, (windowId t =? currentWindow w) && countable options t) (tabs w).

Definition total_tabs (options : Options) (w : World) : list Tab :=
  List.filter (countable options) (tabs w).

(** The query [tabQuery] sends for [params]. *)
Definition query_sent (options : Options) (params : QueryInfo) : QueryInfo :=
  if ToBoolean (prop options "countPinnedTabs") then params
  else mkQuery (q_currentWindow params) (Some false).

(** The events [updateBadge] may emit. *)
Definition badge_event (e : Event) : Prop :=
  match e with
  | Called (TabsQuery _) | Called (ActionSetBadgeText _) | ConsoleError _ _ => True
  | _ => False
  end.

(** A relation between the world before and after a run that calls on the
    browser, console output and the settling of races respect. *)
Class Stable (R : World → World → Prop) : Prop := {
  stable_refl w : R w w;
  stable_trans w1 w2 w3 : R w1 w2 → R w2 w3 → R w1 w3;
  stable_call c w : R w (after_call c w);
  stable_console msg e w : R w (emit (ConsoleError msg e) w);
  stable_races rs w : R w (set_races rs w)
}.

(** ** Tokens *)


(** ** Pieces of the pattern, for the proofs *)



(** * Worlds and options the statements are tried on *)

Definition ex_tabs : list Tab := [mkTab 1 1 false; mkTab 2 1 false; mkTab 3 1 false].

(** Both limits are 2. *)
Definition ex_options : Options :=
  <["maxWindow" := VNum (Fin 2)]> (<["maxTotal" := VNum (Fin 2)]> DEFAULT_OPTIONS).

(** One window with three tabs, empty stores, a browser that accepts every call. *)
Definition ex_world : World := mkWorld ∅ None ∅ ex_tabs 1 "" [] [] [].

Definition ex_world_q1 : World :=
  Eval vm_compute in (tabQuery ex_options (mkQuery (Some true) None) ex_world).2.


Definition ex_world_q2 : World :=
  Eval vm_compute in (tabQuery ex_options (mkQuery None None) ex_world_q1).2.

(** A session store with a tab count of two and no pass. *)
Definition ex_store : gmap string Z :=
  {[ "tabCount" := 2; "previousTabCount" := 2; "amountOfTabsCreated" := 0; "passes" := 0 ]}.

(** Three tabs against that store, and a browser that rejects the third
    call to come. *)
Definition ex_world_write_rejected : World :=
  mkWorld ex_store None ∅ ex_tabs 1 "" [false; false; true] [] [].

(** Limits of 2 in the sync store. *)
Definition ex_limits : Options :=
  {[ "maxWindow" := VNum (Fin 2); "maxTotal" := VNum (Fin 2) ]}.

(** A whole creation event in which the seventh call, the write of the
    tab counters, is rejected. *)
Definition ex_world_event_write_rejected : World :=
  mkWorld ex_store None ex_limits ex_tabs 1 ""
          [false; false; false; false; false; false; true] [] [].

(** The tab whose creation is handled in the examples. *)
Definition ex_tab : Tab := mkTab 3 1 false.

(** A creation event over the limit with two passes in store. *)
Definition ex_pass_w : World := mkWorld {[ "passes" := 2 ]} None ex_limits ex_tabs 1 "" [] [] [].
Definition ex_pass_w1 : World := Eval vm_compute in (getOptions ex_pass_w).2.
Definition ex_pass_w2 : World :=
  Eval vm_compute in (detectTabLimitExceeded ex_options ex_pass_w1).2.
Definition ex_pass_w3 : World := Eval vm_compute in (updateTabCount ex_pass_w2).2.

(** A creation event over the limit that finds two tabs more than the
    stored count of one, with no pass in store. *)
Definition ex_batch_w : World := mkWorld {[ "tabCount" := 1 ]} None ex_limits ex_tabs 1 "" [] [] [].
Definition ex_batch_w1 : World := Eval vm_compute in (getOptions ex_batch_w).2.
Definition ex_batch_w2 : World :=
  Eval vm_compute in (detectTabLimitExceeded ex_options ex_batch_w1).2.
Definition ex_batch_w3 : World := Eval vm_compute in (updateTabCount ex_batch_w2).2.
Definition ex_batch_w4 : World := Eval vm_compute in (getSessionState ex_batch_w3).2.
Definition ex_batch_state : State :=
  {| tabCount := 3; previousTabCount := 1; amountOfTabsCreated := 2; passes := 0 |}.

(** A creation event over the limit that is the first observation. *)
Definition ex_first_w : World := mkWorld ∅ None ex_limits ex_tabs 1 "" [] [] [].
Definition ex_first_w1 : World := Eval vm_compute in (getOptions ex_first_w).2.
Definition ex_first_w2 : World :=
  Eval vm_compute in (detectTabLimitExceeded ex_options ex_first_w1).2.
Definition ex_first_w3 : World := Eval vm_compute in (updateTabCount ex_first_w2).2.
Definition ex_first_w4 : World := Eval vm_compute in (getSessionState ex_first_w3).2.
Definition ex_first_w5 : World :=
  Eval vm_compute in (displayAlert ex_options (VStr "window") ex_first_w4).2.
Definition ex_first_state : State :=
  {| tabCount := 3; previousTabCount := -1; amountOfTabsCreated := 0; passes := 0 |}.

(** A creation event over the limit in which the browser rejects the tab
    query of [updateTabCount] (the fifth call). *)
Definition ex_rejected_w : World :=
  mkWorld ex_store None ex_limits ex_tabs 1 "" [false; false; false; false; true] [] [].
Definition ex_rejected_w1 : World := Eval vm_compute in (getOptions ex_rejected_w).2.
Definition ex_rejected_w2 : World :=
  Eval vm_compute in (detectTabLimitExceeded ex_options ex_rejected_w1).2.




(** The batch event, and the creation event that follows it. *)
Definition ex_batch_after : World :=
  Eval vm_compute in (handleTabCreated ex_tab ex_batch_w).2.
Definition ex_batch_next : World :=
  Eval vm_compute in (handleTabCreated ex_tab ex_batch_after).2.

(** The world after the first-observation event. *)
Definition ex_first_after : World :=
  Eval vm_compute in (handleTabCreated ex_tab ex_first_w).2.

(** ** More worlds *)

(** The badge is on, both limits are 2. *)
Definition ex_badge_options : Options := <["displayBadge" := VBool true]> ex_options.

(** Three tabs under the default limits: the handler up to the detector. *)
Definition ex_calm_w1 : World := Eval vm_compute in (getOptions ex_world).2.
Definition ex_calm_w2 : World :=
  Eval vm_compute in (detectTabLimitExceeded DEFAULT_OPTIONS ex_calm_w1).2.

(** A creation event over the limit that finds one tab more than the
    stored count of two, with no pass in store. *)
Definition ex_single_w : World := mkWorld ex_store None ex_limits ex_tabs 1 "" [] [] [].
Definition ex_single_w1 : World := Eval vm_compute in (getOptions ex_single_w).2.
Definition ex_single_w2 : World :=
  Eval vm_compute in (detectTabLimitExceeded ex_options ex_single_w1).2.
Definition ex_single_w3 : World := Eval vm_compute in (updateTabCount ex_single_w2).2.
Definition ex_single_w4 : World := Eval vm_compute in (getSessionState ex_single_w3).2.
Definition ex_single_state : State :=
  {| tabCount := 3; previousTabCount := 2; amountOfTabsCreated := 1; passes := 0 |}.

(** The same event when the stored alert template is a number. *)
Definition ex_broken_options : Options := <["alertMessage" := VNum (Fin 5)]> ex_options.
Definition ex_broken_w : World :=
  mkWorld ex_store None (<["alertMessage" := VNum (Fin 5)]> ex_limits) ex_tabs 1 "" [] [] [].
Definition ex_broken_w1 : World := Eval vm_compute in (getOptions ex_broken_w).2.
Definition ex_broken_w2 : World :=
  Eval vm_compute in (detectTabLimitExceeded ex_broken_options ex_broken_w1).2.
Definition ex_broken_w3 : World := Eval vm_compute in (updateTabCount ex_broken_w2).2.
Definition ex_broken_w4 : World := Eval vm_compute in (getSessionState ex_broken_w3).2.

(** The same event when tabs over the window limit go to a new window. *)
Definition ex_relocate_options : Options := <["exceedTabNewWindow" := VBool true]> ex_options.
Definition ex_relocate_w : World :=
  mkWorld ex_store None (<["exceedTabNewWindow" := VBool true]> ex_limits) ex_tabs 1 ""
          [] [] [].
Definition ex_relocate_w1 : World := Eval vm_compute in (getOptions ex_relocate_w).2.
Definition ex_relocate_w2 : World :=
  Eval vm_compute in (detectTabLimitExceeded ex_relocate_options ex_relocate_w1).2.

(** * Reasoning about runs *)

Lemma run_bind {A B} (m : M A) (f : A → M B) (w : World) :
  (m ≫= f) w =
  match m w with
  | (Ok a, w') => f a w'
  | (Throw e, w') => (Throw e, w')
  end.
Proof. reflexivity. Qed.


Section Frames.
Context {allowed : Event → Prop} {R : World → World → Prop} `{!Frame allowed R}.

Lemma steps_ret {A} (a : A) : steps R (mret a).
Proof. intros w r w' [= _ <-]. apply frame_refl. Qed.

Lemma steps_throw {A} e : steps R (@throw A e).
Proof. intros w r w' [= _ <-]. apply frame_refl. Qed.

Lemma steps_lift {A} (x : Result A) : steps R (lift x).
Proof. intros w r w' [= _ <-]. apply frame_refl. Qed.

Lemma steps_get_world : steps R get_world.
Proof. intros w r w' [= _ <-]. apply frame_refl. Qed.

Lemma steps_bind {A B} (m : M A) (f : A → M B) :
  steps R m → (∀ a, steps R (f a)) → steps R (m ≫= f).
Proof.
  intros Hm Hf w r w'. rewrite run_bind.
  destruct (m w) as [[a|e] w1] eqn:E; intros H.
  - eapply frame_trans; [eapply Hm, E | eapply Hf, H].
  - injection H as _ <-. eapply Hm, E.
Qed.

Lemma steps_try_catch {A} (m : M A) h :
  steps R m → (∀ e, steps R (h e)) → steps R (try_catch m h).
Proof.
  intros Hm Hh w r w'. unfold try_catch.
  destruct (m w) as [[a|e] w1] eqn:E; intros H.
  - injection H as _ <-. eapply Hm, E.
  - eapply frame_trans; [eapply Hm, E | eapply Hh, H].
Qed.

Lemma steps_Promise_all2 {A B} (p1 : M A) (p2 : M B) :
  steps R p1 → steps R p2 → steps R (Promise_all2 p1 p2).
Proof.
  intros H1 H2 w r w'. unfold Promise_all2.
  destruct (p1 w) as [r1 w1] eqn:E1. destruct (p2 w1) as [r2 w2] eqn:E2.
  assert (R w w2) by (eapply frame_trans; [eapply H1, E1 | eapply H2, E2]).
  destruct r1, r2; try (intros [= _ <-]; assumption).
  destruct (races w2) as [|[] rs]; intros [= _ <-];
    (eapply frame_trans; [eassumption | apply frame_races]).
Qed.

Lemma steps_console_error msg e : steps R (console_error msg e).
Proof. intros w r w' [= _ <-]. apply frame_console. Qed.

Lemma steps_invoke c : allowed (Called c) → steps R (invoke c).
Proof.
  intros Hc w r w' H.
  assert (w' = after_call c w) as ->.
  { unfold invoke in H. destruct (faults w) as [|[] ?]; congruence. }
  by apply frame_call.
Qed.

Lemma steps_modify (f : World → World) : (∀ w, R w (f w)) → steps R (modify f).
Proof. intros Hf w r w' [= _ <-]. apply Hf. Qed.

End Frames.

Create HintDb steps.

Ltac steps_go :=
  repeat first
    [ solve [eauto 2 with steps nocore]
    | lazymatch goal with
      | |- steps _ (mret _) => apply steps_ret
      | |- steps _ (throw _) => apply steps_throw
      | |- steps _ (lift _) => apply steps_lift
      | |- steps _ get_world => apply steps_get_world
      | |- steps _ (console_error _ _) => apply steps_console_error
      | |- steps _ (_ ≫= _) => apply steps_bind; [| intros ?]
      | |- steps _ (try_catch _ _) => apply steps_try_catch; [| intros ?]
      | |- steps _ (Promise_all2 _ _) => apply steps_Promise_all2
      | |- steps _ (invoke _) =>
          apply steps_invoke; first [assumption | apply allowed_benign; reflexivity]
      | |- steps _ (modify _) =>
          apply steps_modify; intros ?;
          first [ apply frame_badge | apply frame_tabs | apply frame_sync
                | apply frame_session; assumption ]
      | |- steps _ (if ?b then _ else _) => destruct b eqn:?
      | |- steps _ (let '(_, _) := ?x in _) => destruct x
      | |- steps _ (let _ := _ in _) => cbv zeta
      end ].

(** What each function of background.js does to a frame. *)
Section Worker_frames.
Context {allowed : Event → Prop} {R : World → World → Prop} `{!Frame allowed R}.

Lemma steps_getSessionState : steps R getSessionState.
Proof. unfold getSessionState, chrome_storage_session_get. steps_go. Qed.

Lemma steps_updateSessionState u :
  allowed (Called (StorageSessionSet u)) → steps R (updateSessionState u).
Proof. intros Hu. unfold updateSessionState, chrome_storage_session_set. steps_go. Qed.

Lemma steps_getOptions : steps R getOptions.
Proof.
  unfold getOptions, chrome_storage_sync_get_defaultOptions, chrome_storage_sync_get.
  steps_go.
Qed.

Lemma steps_chrome_tabs_query q : steps R (chrome_tabs_query q).
Proof. unfold chrome_tabs_query. steps_go. Qed.
Hint Resolve steps_getSessionState steps_getOptions steps_chrome_tabs_query : steps.

Lemma steps_tabQuery options params : steps R (tabQuery options params).
Proof. unfold tabQuery. steps_go. Qed.
Hint Resolve steps_tabQuery : steps.

Lemma steps_updateBadge options : steps R (updateBadge options).
Proof.
  unfold updateBadge, windowRemaining, totalRemaining, chrome_action_setBadgeText.
  steps_go.
Qed.

Lemma steps_updateTabCount : steps R updateTabCount.
Proof.
  unfold updateTabCount. steps_go.
  apply steps_updateSessionState, allowed_counters. reflexivity.
Qed.

Lemma steps_detectTabLimitExceeded options : steps R (detectTabLimitExceeded options).
Proof.
  unfold detectTabLimitExceeded, detectTooManyTabsInWindow, detectTooManyTabsInTotal.
  steps_go.
Qed.
Hint Resolve steps_updateBadge steps_updateTabCount steps_detectTabLimitExceeded : steps.

Lemma steps_handleUpdate : steps R handleUpdate.
Proof. unfold handleUpdate. steps_go. Qed.

Lemma steps_handleInstalled details : steps R (handleInstalled details).
Proof.
  unfold handleInstalled, chrome_storage_sync_set_defaultOptions.
  pose proof steps_handleUpdate. steps_go.
Qed.

Lemma steps_displayAlert options place :
  (∀ n, allowed (Called (NotificationsCreate n))) →
  steps R (displayAlert options place).
Proof.
  intros Hn. unfold displayAlert, chrome_notifications_create. steps_go.
  apply steps_invoke, Hn.
Qed.

Lemma steps_handleExceedTabs tab options place :
  allowed (Called (TabsRemove (id tab))) →
  allowed (Called (WindowsCreate (id tab) true)) →
  steps R (handleExceedTabs tab options place).
Proof.
  intros Hr Hc. unfold handleExceedTabs, chrome_tabs_remove, chrome_windows_create.
  steps_go.
Qed.

End Worker_frames.

#[global] Hint Resolve steps_getSessionState steps_getOptions steps_chrome_tabs_query
  steps_tabQuery steps_updateBadge steps_updateTabCount steps_detectTabLimitExceeded
  steps_handleUpdate steps_handleInstalled : steps.

(** ** Three frames *)

Lemma extends_Frame (P : Event → Prop) :
  (∀ msg e, P (ConsoleError msg e)) →
  (∀ c, benign c = true → P (Called c)) →
  (∀ u : gmap string Z, u !! "passes" = None → P (Called (StorageSessionSet u))) →
  Frame P (extends P).
Proof.
  intros Hcons Hben Hcnt. split; try assumption; unfold extends.
  - intros w. exists []. by rewrite app_nil_r.
  - intros w1 w2 w3 (e1 & -> & F1) (e2 & -> & F2).
    exists (e1 ++ e2). rewrite app_assoc. split; [done | by apply Forall_app].
  - intros c w Hc. exists [Called c]. split; [done | by constructor].
  - intros msg e w. exists [ConsoleError msg e]. split; [done | by constructor].
  - intros rs w. exists []. by rewrite app_nil_r.
  - intros b w. exists []. by rewrite app_nil_r.
  - intros ts cw w. exists []. by rewrite app_nil_r.
  - intros o w. exists []. by rewrite app_nil_r.
  - intros u w _. exists []. by rewrite app_nil_r.
Qed.

#[global] Instance bookkeeping_Frame : Frame bookkeeping (extends bookkeeping).
Proof.
  apply extends_Frame; unfold bookkeeping.
  - done.
  - by intros [].
  - intros u Hu. simpl. done.
Qed.

#[global] Instance harmless_Frame : Frame harmless (extends harmless).
Proof.
  apply extends_Frame; unfold harmless.
  - done.
  - by intros [].
  - intros u Hu. simpl. done.
Qed.

#[global] Instance same_passes_Frame : Frame (λ e, passes_written e = None) same_passes.
Proof.
  split; unfold same_passes; try done.
  - intros w1 w2 w3 H1 H2. by rewrite H2.
  - intros u w Hu. simpl in *. by apply lookup_union_r.
  - by intros [].
Qed.

#[global] Instance keeps_nonneg_Frame : Frame writes_nonneg keeps_nonneg.
Proof.
  split; unfold keeps_nonneg, writes_nonneg; try done.
  - auto.
  - intros u w Hu Hw p. simpl in *. rewrite lookup_union.
    destruct (u !! "passes") as [q|] eqn:E.
    + rewrite union_Some_l. intros [= <-]. by apply Hu.
    + rewrite (left_id_L None _). apply Hw.
  - by intros [].
  - intros u Hu p. simpl. by rewrite Hu.
Qed.

#[global] Instance writes_nonneg_Frame : Frame writes_nonneg (extends writes_nonneg).
Proof.
  apply extends_Frame; unfold writes_nonneg.
  - done.
  - by intros [].
  - intros u Hu p. simpl. by rewrite Hu.
Qed.

(** * The limit detector *)






(** * Priority of the window scope *)

Lemma set_races_invoke c rs w :
  invoke c (set_races rs w) = ((invoke c w).1, set_races rs (invoke c w).2).
Proof. unfold invoke. simpl. by destruct (faults w) as [|[] ?]. Qed.

Lemma set_races_tabQuery options q rs w :
  tabQuery options q (set_races rs w) =
  ((tabQuery options q w).1, set_races rs (tabQuery options q w).2).
Proof.
  unfold tabQuery, chrome_tabs_query. cbv zeta.
  rewrite !run_bind, set_races_invoke.
  destruct (invoke _ w) as [[[]|e] w1]; reflexivity.
Qed.

(** C4.  Whatever the options and the tabs: when the window check yields
    ["window"] and the total check yields ["total"], the detector answers
    ["window"]; the answer does not depend on which of the two queries
    settles first. *)
Theorem window_has_priority (options : Options) (w w1 w2 : World) :
  detectTooManyTabsInWindow options w = (Ok (VStr "window"), w1) →
  detectTooManyTabsInTotal options w1 = (Ok (VStr "total"), w2) →
  detectTabLimitExceeded options w = (Ok (VStr "window"), w2) ∧
  ∀ rs, (detectTabLimitExceeded options (set_races rs w)).1 = Ok (VStr "window").
Proof.
  intros Hw Ht.
  assert (Hrun : ∀ w w1 w2,
    detectTooManyTabsInWindow options w = (Ok (VStr "window"), w1) →
    detectTooManyTabsInTotal options w1 = (Ok (VStr "total"), w2) →
    detectTabLimitExceeded options w = (Ok (VStr "window"), w2)).
  { clear. intros w w1 w2 Hw Ht. unfold detectTabLimitExceeded.
    rewrite run_bind. unfold Promise_all2. rewrite Hw, Ht. reflexivity. }
  split; [by eapply Hrun|].
  intros rs.
  assert (Hw' : detectTooManyTabsInWindow options (set_races rs w)
                = (Ok (VStr "window"), set_races rs w1)).
  { revert Hw. unfold detectTooManyTabsInWindow. rewrite !run_bind, set_races_tabQuery.
    destruct (tabQuery options _ w) as [[ts|e] w']; simpl; [|done].
    repeat case_match; intros Heq; try discriminate Heq; by injection Heq as <-. }
  assert (Ht' : detectTooManyTabsInTotal options (set_races rs w1)
                = (Ok (VStr "total"), set_races rs w2)).
  { revert Ht. unfold detectTooManyTabsInTotal. rewrite !run_bind, set_races_tabQuery.
    destruct (tabQuery options _ w1) as [[ts|e] w']; simpl; [|done].
    repeat case_match; intros Heq; try discriminate Heq; by injection Heq as <-. }
  by rewrite (Hrun _ _ _ Hw' Ht').
Qed.

Lemma window_has_priority_witness :
  detectTabLimitExceeded ex_options ex_world = (Ok (VStr "window"), ex_world_q2) ∧
  ∀ rs, (detectTabLimitExceeded ex_options (set_races rs ex_world)).1 = Ok (VStr "window").
Proof.
  apply (window_has_priority ex_options ex_world ex_world_q1 ex_world_q2);
    vm_compute; reflexivity.
Defined.

(** * The action executor *)

Lemma run_invoke c w :
  invoke c w =
  (if hd false (faults w) then Throw (Rejected c) else Ok tt, after_call c w).
Proof. unfold invoke. by destruct (faults w) as [|[] ?]. Qed.

Lemma run_get_world {B} (f : World → M B) w : (get_world ≫= f) w = f w w.
Proof. reflexivity. Qed.

Lemma strict_eq_string_true v s : strict_eq_string v s = true ↔ v = VStr s.
Proof.
  destruct v; simpl; try (split; [discriminate | intros [=]]).
  rewrite String.eqb_eq. split; [by intros -> | by intros [= ->]].
Qed.

(** C7.  Whatever the tab, the options, the scope and the world:
    [handleExceedTabs] makes exactly one call on the browser.  It is
    [chrome.windows.create({ tabId: tab.id, focused: true })] if and only
    if the scope is ["window"] and [exceedTabNewWindow] is set, and
    [chrome.tabs.remove(tab.id)] in every other case.  Nothing else is
    emitted but the report of a rejected call.  When the browser accepts the
    call for a tab it has, the tab sits in a new window that has the focus,
    respectively is gone. *)
Theorem handleExceedTabs_action (tab : Tab) (options : Options) (place : JSVal) (w : World) :
  let relocate :=
    ToBoolean (prop options "exceedTabNewWindow") && strict_eq_string place "window" in
  (relocate = true ↔
     place = VStr "window" ∧ ToBoolean (prop options "exceedTabNewWindow") = true) ∧
  ∃ w' log,
    handleExceedTabs tab options place w = (Ok tt, w') ∧
    trace w' =
      trace w ++
      Called (if relocate then WindowsCreate (id tab) true else TabsRemove (id tab)) :: log ∧
    Forall (λ e, ∃ msg err, e = ConsoleError msg err) log ∧
    (hd false (faults w) = false → has_tab (id tab) (tabs w) = true →
     log = [] ∧
     if relocate
     then tabs w' =
            map (λ t, if id t =? id tab then mkTab (id t) (fresh_window w) (pinned t) else t)
                (tabs w) ∧
          currentWindow w' = fresh_window w
     else tabs w' = List.filter (λ t, negb (id t =? id tab)) (tabs w)).
Proof.
  intros relocate. split.
  { unfold relocate. rewrite andb_true_iff, strict_eq_string_true. tauto. }
  unfold handleExceedTabs, try_catch. fold relocate.
  destruct relocate.
  - unfold chrome_windows_create. rewrite !run_bind, run_invoke.
    destruct (hd false (faults w)) eqn:Hf.
    + eexists _, [_]. split; [reflexivity|]. simpl. rewrite <- ?app_assoc.
      split; [reflexivity|]. split; [repeat constructor; eauto | discriminate].
    + rewrite run_get_world. cbn [tabs after_call set_faults emit].
      destruct (has_tab (id tab) (tabs w)) eqn:Ht.
      * eexists _, []. split; [reflexivity|]. simpl. repeat split; constructor.
      * eexists _, [_]. split; [reflexivity|]. simpl. rewrite <- ?app_assoc.
        split; [reflexivity|]. split; [repeat constructor; eauto | discriminate].
  - unfold chrome_tabs_remove. rewrite !run_bind, run_invoke.
    destruct (hd false (faults w)) eqn:Hf.
    + eexists _, [_]. split; [reflexivity|]. simpl. rewrite <- ?app_assoc.
      split; [reflexivity|]. split; [repeat constructor; eauto | discriminate].
    + rewrite run_get_world. cbn [tabs after_call set_faults emit].
      destruct (has_tab (id tab) (tabs w)) eqn:Ht.
      * eexists _, []. split; [reflexivity|]. simpl. repeat split; constructor.
      * eexists _, [_]. split; [reflexivity|]. simpl. rewrite <- ?app_assoc.
        split; [reflexivity|]. split; [repeat constructor; eauto | discriminate].
Qed.

(** * Running the helpers *)

Ltac wsimpl :=
  cbn [session sync_defaultOptions sync_items tabs currentWindow badge faults races trace
       after_call set_faults set_races emit set_session set_tabs set_badge
       set_sync_defaultOptions fst snd hd tail].

Lemma calm_S n w :
  calm (S n) w → hd false (faults w) = false ∧ ∀ c, calm n (after_call c w).
Proof.
  unfold calm. wsimpl. destruct (faults w) as [|[] fs]; simpl; try done.
  intros _. split; [done|]. intros _. by destruct n.
Qed.

Lemma run_chrome_tabs_query q w :
  chrome_tabs_query q w =
  (if hd false (faults w) then Throw (Rejected (TabsQuery q))
   else Ok (List.filter (query_matches (currentWindow w) q) (tabs w)),
   after_call (TabsQuery q) w).
Proof.
  unfold chrome_tabs_query. rewrite run_bind, run_invoke.
  by destruct (hd false (faults w)).
Qed.

Lemma run_getSessionState w :
  getSessionState w =
  if hd false (faults w)
  then (Ok default_state,
        emit (ConsoleError "Failed to get session state:" (Rejected StorageSessionGet))
             (after_call StorageSessionGet w))
  else (Ok (stored_state w), after_call StorageSessionGet w).
Proof.
  unfold getSessionState, try_catch, chrome_storage_session_get.
  rewrite run_bind, run_invoke. by destruct (hd false (faults w)).
Qed.

Lemma run_updateSessionState u w :
  updateSessionState u w =
  if hd false (faults w)
  then (Ok tt,
        emit (ConsoleError "Failed to update session state:" (Rejected (StorageSessionSet u)))
             (after_call (StorageSessionSet u) w))
  else (Ok tt, set_session (λ store, u ∪ store) (after_call (StorageSessionSet u) w)).
Proof.
  unfold updateSessionState, try_catch, chrome_storage_session_set.
  rewrite run_bind, run_invoke. by destruct (hd false (faults w)).
Qed.

Lemma query_everything cw ts : List.filter (query_matches cw (mkQuery None None)) ts = ts.
Proof. induction ts as [|t ts IH]; simpl; [done | by rewrite IH]. Qed.

(** * The tab counter *)

(** C5.  In a world whose browser accepts the calls of this invocation,
    with [state] the stored session state and [count] the number of open
    tabs: if [count] is the stored [tabCount], [updateTabCount] returns the
    stored [amountOfTabsCreated] and the session store is the same afterwards;
    otherwise it returns [delta], which is [count - tabCount state] unless
    the stored [tabCount] is the sentinel [-1], when it is [0], and the
    session store afterwards is the old one overwritten with
    [previousTabCount := tabCount state], [tabCount := count] and
    [amountOfTabsCreated := delta]. *)
Theorem updateTabCount_spec (w : World) :
  calm 3 w →
  let state := stored_state w in
  let count := Z.of_nat (List.length (tabs w)) in
  let delta := if decide (tabCount state = -1) then 0 else count - tabCount state in
  (count = tabCount state →
     ∃ w', updateTabCount w = (Ok (amountOfTabsCreated state), w') ∧
           session w' = session w) ∧
  (count ≠ tabCount state →
     ∃ w', updateTabCount w = (Ok delta, w') ∧
           session w' =
             {[ "previousTabCount" := tabCount state;
                "tabCount" := count;
                "amountOfTabsCreated" := delta ]} ∪ session w).
Proof.
  intros Hcalm state count delta.
  apply calm_S in Hcalm as [Hq Hcalm].
  pose proof (Hcalm (TabsQuery (mkQuery None None))) as Hcalm1.
  apply calm_S in Hcalm1 as [Hg Hcalm1].
  pose proof (Hcalm1 StorageSessionGet) as Hcalm2.
  apply calm_S in Hcalm2 as [Hs _].
  unfold updateTabCount, try_catch.
  rewrite run_bind, run_chrome_tabs_query, Hq.
  rewrite run_bind, run_getSessionState, Hg.
  rewrite query_everything. fold count.
  change (stored_state (after_call (TabsQuery (mkQuery None None)) w)) with state.
  split; intros Hcount.
  - apply Z.eqb_eq in Hcount as ->. eexists. split; reflexivity.
  - apply Z.eqb_neq in Hcount as ->. cbv zeta.
    assert ((if negb (tabCount state =? -1) then count - tabCount state else 0) = delta)
      as ->.
    { unfold delta. destruct (decide (tabCount state = -1)) as [->|Hne]; [reflexivity|].
      apply Z.eqb_neq in Hne. by rewrite Hne. }
    rewrite run_bind, run_updateSessionState, Hs.
    eexists. split; reflexivity.
Qed.

Lemma updateTabCount_spec_witness :
  calm 3 ex_world ∧
  ∃ w', updateTabCount ex_world = (Ok 0, w') ∧
        session w' =
          {[ "previousTabCount" := -1; "tabCount" := 3; "amountOfTabsCreated" := 0 ]}.
Proof.
  assert (H : calm 3 ex_world) by reflexivity.
  split; [exact H|].
  destruct (updateTabCount_spec ex_world H) as [_ Hchanged].
  destruct Hchanged as (w' & E & S); [vm_compute; discriminate|].
  exists w'. split; [exact E|]. rewrite S. vm_compute. reflexivity.
Defined.

(** * The enforcement engine *)

(** The handler up to the point where it has the delta and the state. *)
Lemma run_handleTabCreated_exceeded tab w w1 w2 w3 w4 options place delta state :
  getOptions w = (Ok options, w1) →
  detectTabLimitExceeded options w1 = (Ok place, w2) →
  ToBoolean place = true →
  updateTabCount w2 = (Ok delta, w3) →
  getSessionState w3 = (Ok state, w4) →
  handleTabCreated tab w =
  try_catch
    (if passes state >? 0 then updateSessionState {[ "passes" := passes state - 1 ]}
     else
       displayAlert options place;;
       if delta =? 1 then
         handleExceedTabs tab options place;;
         handleUpdate
       else if delta >? 1 then
         updateSessionState {[ "passes" := delta - 1 ]}
       else if delta =? -1 then
         handleExceedTabs tab options place;;
         handleUpdate
       else mret tt)
    (λ error, console_error "Failed to handle tab created:" error) w4.
Proof.
  intros Ho Hp Ht Hd Hs. unfold handleTabCreated, try_catch.
  rewrite run_bind, Ho, run_bind, Hp, Ht. cbn [negb].
  rewrite run_bind, Hd, run_bind, Hs. reflexivity.
Qed.

(** What the handler did before that point is bookkeeping, and leaves the
    stored pass counter as it was. *)
Lemma prefix_frames {allowed R} `{!Frame allowed R} w w1 w2 w3 w4 options place delta state :
  getOptions w = (Ok options, w1) →
  detectTabLimitExceeded options w1 = (Ok place, w2) →
  updateTabCount w2 = (Ok delta, w3) →
  getSessionState w3 = (Ok state, w4) →
  R w w4.
Proof.
  intros Ho Hp Hd Hs.
  eapply frame_trans; [eapply steps_getOptions, Ho|].
  eapply frame_trans; [eapply steps_detectTabLimitExceeded, Hp|].
  eapply frame_trans; [eapply steps_updateTabCount, Hd|].
  eapply steps_getSessionState, Hs.
Qed.

Lemma after_updateSessionState u w :
  ∃ w' log,
    updateSessionState u w = (Ok tt, w') ∧
    trace w' = trace w ++ Called (StorageSessionSet u) :: log ∧
    Forall bookkeeping log ∧
    (hd false (faults w) = false → session w' = u ∪ session w).
Proof.
  rewrite run_updateSessionState. destruct (hd false (faults w)).
  - eexists _, [_]. split; [reflexivity|]. wsimpl. rewrite <- app_assoc.
    split; [reflexivity|]. split; [|discriminate]. by repeat constructor.
  - eexists _, []. split; [reflexivity|]. wsimpl. by repeat split.
Qed.

(** A pass in the state the handler reads is consumed: one write, of the
    counter minus 1, among bookkeeping. *)
Lemma pass_consumed tab w w1 w2 w3 w4 options place delta state :
  getOptions w = (Ok options, w1) →
  detectTabLimitExceeded options w1 = (Ok place, w2) →
  ToBoolean place = true →
  updateTabCount w2 = (Ok delta, w3) →
  getSessionState w3 = (Ok state, w4) →
  0 < passes state →
  ∃ w' before after,
    handleTabCreated tab w = (Ok tt, w') ∧
    trace w' =
      trace w ++ before ++ Called (StorageSessionSet {[ "passes" := passes state - 1 ]}) :: after ∧
    Forall bookkeeping before ∧ Forall bookkeeping after ∧
    (hd false (faults w4) = false →
     session w' = {[ "passes" := passes state - 1 ]} ∪ session w4).
Proof.
  intros Ho Hp Ht Hd Hs Hpos.
  rewrite (run_handleTabCreated_exceeded _ _ _ _ _ _ _ _ _ _ Ho Hp Ht Hd Hs).
  apply Z.gtb_lt in Hpos. rewrite Hpos.
  destruct (prefix_frames (R := extends bookkeeping) _ _ _ _ _ _ _ _ _ Ho Hp Hd Hs)
    as (before & Hbefore & Fbefore).
  destruct (after_updateSessionState {[ "passes" := passes state - 1 ]} w4)
    as (w' & after & Hrun & Htrace & Fafter & Hstore).
  exists w', before, after. unfold try_catch. rewrite Hrun.
  split; [reflexivity|]. rewrite Htrace, Hbefore, <- app_assoc. auto.
Qed.

Lemma passes_of_store w w' :
  same_passes w w' → passes (stored_state w') = passes (stored_state w).
Proof. unfold same_passes, stored_state, read_session. simpl. by intros ->. Qed.

Lemma detectTooManyTabsInWindow_result options w r w' :
  detectTooManyTabsInWindow options w = (Ok r, w') → r = VStr "window" ∨ r = VNull.
Proof.
  unfold detectTooManyTabsInWindow. rewrite run_bind.
  destruct (tabQuery options _ w) as [[ts|e] w1]; [|done].
  repeat case_match; intros [= <- _]; auto.
Qed.

Lemma detectTooManyTabsInTotal_result options w r w' :
  detectTooManyTabsInTotal options w = (Ok r, w') → r = VStr "total" ∨ r = VNull.
Proof.
  unfold detectTooManyTabsInTotal. rewrite run_bind.
  destruct (tabQuery options _ w) as [[ts|e] w1]; [|done].
  repeat case_match; intros [= <- _]; auto.
Qed.

(** A detected scope is ["window"] or ["total"]. *)
Lemma detectTabLimitExceeded_result options w place w' :
  detectTabLimitExceeded options w = (Ok place, w') →
  ToBoolean place = true →
  place = VStr "window" ∨ place = VStr "total".
Proof.
  unfold detectTabLimitExceeded. rewrite run_bind. unfold Promise_all2.
  destruct (detectTooManyTabsInWindow options w) as [[r1|e1] w1] eqn:E1;
    destruct (detectTooManyTabsInTotal options w1) as [[r2|e2] w2] eqn:E2;
    try done.
  - apply detectTooManyTabsInWindow_result in E1.
    apply detectTooManyTabsInTotal_result in E2.
    intros [= <- _]. destruct E1 as [-> | ->], E2 as [-> | ->]; simpl; auto; discriminate.
  - by destruct (races w2) as [|[] ?].
Qed.

(** C1.  Take any tab-creation event in which the detector reports an
    exceeded scope, the stored session state has [passes > 0] and the
    browser answers the handler's read of that state.  Then the handler
    returns, it asks the browser exactly once to store a pass counter, the
    value being the stored one minus 1, and everything else it emits is
    bookkeeping: no tab is closed or relocated and no alert is displayed.
    When the browser accepts the write, the stored counter is the old one
    minus 1. *)
Theorem suppressed_event_consumes_one_pass
    (tab : Tab) (w w1 w2 w3 : World) (options : Options) (place : JSVal) (delta : Z) :
  getOptions w = (Ok options, w1) →
  detectTabLimitExceeded options w1 = (Ok place, w2) →
  ToBoolean place = true →
  updateTabCount w2 = (Ok delta, w3) →
  hd false (faults w3) = false →
  0 < passes (stored_state w) →
  ∃ w' before after,
    handleTabCreated tab w = (Ok tt, w') ∧
    trace w' =
      trace w ++ before ++
      Called (StorageSessionSet {[ "passes" := passes (stored_state w) - 1 ]}) :: after ∧
    Forall bookkeeping before ∧ Forall bookkeeping after ∧
    (hd false (tail (faults w3)) = false →
     passes (stored_state w') = passes (stored_state w) - 1).
Proof.
  intros Ho Hp Ht Hd Hread Hpos.
  assert (Hs : getSessionState w3 = (Ok (stored_state w3), after_call StorageSessionGet w3))
    by (by rewrite run_getSessionState, Hread).
  assert (Hsame : passes (stored_state w3) = passes (stored_state w)).
  { apply passes_of_store.
    eapply frame_trans; [eapply steps_getOptions, Ho|].
    eapply frame_trans; [eapply steps_detectTabLimitExceeded, Hp|].
    eapply steps_updateTabCount, Hd. }
  rewrite <- Hsame in Hpos |- *.
  destruct (pass_consumed tab _ _ _ _ _ _ _ _ _ Ho Hp Ht Hd Hs Hpos)
    as (w' & before & after & Hrun & Htrace & Fb & Fa & Hstore).
  exists w', before, after. repeat split; try assumption.
  intros Hwrite. unfold stored_state at 1, read_session. cbn [passes].
  rewrite (Hstore Hwrite). by rewrite lookup_union_l', lookup_singleton_eq.
Qed.

(** ** The alert step *)

Lemma run_Result_bind {A B} (r : Result A) (f : A → Result B) :
  (r ≫= f) = match r with Ok a => f a | Throw e => Throw e end.
Proof. reflexivity. Qed.

(** The template replacement returns when the replacer does. *)
Lemma replace_from_total f :
  (∀ m p, ∃ v, f m p = Ok v) →
  ∀ s skip, ∃ r, replace_from skip f s = Ok r.
Proof.
  intros Hf s. induction s as [|c s IH]; intros skip; cbn [replace_from]; [eauto|].
  destruct skip as [|n]; [|apply IH].
  destruct (match_here token_regex (String c s)) as [[gs rest]|].
  - destruct (Hf (matched_text gs) (group1 gs)) as [v ->].
    rewrite run_Result_bind.
    destruct (IH (String.length (matched_text gs) - 1)%nat) as [r ->]. eauto.
  - destruct (IH 0%nat) as [r ->]. eauto.
Qed.

Lemma replacer_total options place :
  place = VStr "window" ∨ place = VStr "total" →
  ∀ m p, ∃ v, replacer options place m p = Ok v.
Proof.
  intros Hplace m p. unfold replacer.
  repeat case_match; eauto.
  destruct Hplace as [-> | ->]; simpl; eauto.
Qed.

Lemma renderedMessage_total options place :
  well_typed options →
  place = VStr "window" ∨ place = VStr "total" →
  ∃ message, renderedMessage options place = Ok message.
Proof.
  intros [template Ht] Hplace. unfold renderedMessage. rewrite Ht. simpl.
  apply replace_from_total, replacer_total, Hplace.
Qed.

Lemma displayAlert_returns options place w :
  well_typed options →
  place = VStr "window" ∨ place = VStr "total" →
  ∃ v w', displayAlert options place w = (Ok v, w').
Proof.
  intros Ht Hplace. unfold displayAlert.
  destruct (negb _); [by eexists _, _|].
  destruct (renderedMessage_total options place Ht Hplace) as [message Hm].
  rewrite run_bind. unfold lift. rewrite Hm, run_bind.
  unfold try_catch, chrome_notifications_create. rewrite run_invoke.
  destruct (hd false (faults w)); by eexists _, _.
Qed.

Lemma harmless_alert n : harmless (Called (NotificationsCreate n)).
Proof. done. Qed.

Lemma writes_nothing_alert n : passes_written (Called (NotificationsCreate n)) = None.
Proof. done. Qed.

(** The handler once the state shows no pass left. *)
Lemma run_handleTabCreated_no_pass tab w w1 w2 w3 w4 w5 options place delta state r :
  getOptions w = (Ok options, w1) →
  detectTabLimitExceeded options w1 = (Ok place, w2) →
  ToBoolean place = true →
  updateTabCount w2 = (Ok delta, w3) →
  getSessionState w3 = (Ok state, w4) →
  passes state ≤ 0 →
  displayAlert options place w4 = (r, w5) →
  handleTabCreated tab w =
  match r with
  | Ok _ => after_alert tab options place delta w5
  | Throw e => console_error "Failed to handle tab created:" e w5
  end.
Proof.
  intros Ho Hp Ht Hd Hs Hzero Ha.
  rewrite (run_handleTabCreated_exceeded _ _ _ _ _ _ _ _ _ _ Ho Hp Ht Hd Hs).
  assert ((passes state >? 0) = false) as -> by lia.
  unfold after_alert, try_catch. rewrite run_bind, Ha. by destruct r.
Qed.

(** C6.  Take any tab-creation event in which the detector reports an
    exceeded scope, the state the handler reads has [passes = 0] and
    [updateTabCount] returns [0] or a negative delta other than [-1].
    Then the handler returns normally (the alert step returns whenever the
    alert template is a string, and the handler then stops in the very
    world that step left), no tab is closed or relocated, no pass counter
    is written and the stored pass counter is what it was. *)
Theorem delta_zero_is_noop
    (tab : Tab) (w w1 w2 w3 w4 w5 : World) (options : Options) (place : JSVal)
    (delta : Z) (state : State) (r : Result JSVal) :
  getOptions w = (Ok options, w1) →
  detectTabLimitExceeded options w1 = (Ok place, w2) →
  ToBoolean place = true →
  updateTabCount w2 = (Ok delta, w3) →
  getSessionState w3 = (Ok state, w4) →
  passes state = 0 →
  delta = 0 ∨ delta < -1 →
  displayAlert options place w4 = (r, w5) →
  (well_typed options → ∃ v, r = Ok v) ∧
  ∃ w',
    handleTabCreated tab w = (Ok tt, w') ∧
    (∀ v, r = Ok v → w' = w5) ∧
    extends harmless w w' ∧
    session w' !! "passes" = session w !! "passes".
Proof.
  intros Ho Hp Ht Hd Hs Hzero Hdelta Ha. split.
  { intros Htyped.
    destruct (displayAlert_returns options place w4 Htyped) as (v & w5' & Ha').
    { eapply detectTabLimitExceeded_result; eassumption. }
    rewrite Ha in Ha'. injection Ha' as -> _. by exists v. }
  rewrite (run_handleTabCreated_no_pass _ _ _ _ _ _ _ _ _ _ _ _ Ho Hp Ht Hd Hs
             ltac:(lia) Ha).
  assert (Hh : extends harmless w w5).
  { eapply frame_trans; [eapply prefix_frames; eassumption|].
    eapply steps_displayAlert; [apply harmless_alert | exact Ha]. }
  assert (Hsame : same_passes w w5).
  { eapply frame_trans; [eapply prefix_frames; eassumption|].
    eapply steps_displayAlert; [apply writes_nothing_alert | exact Ha]. }
  destruct r as [v|e].
  - unfold after_alert.
    assert ((delta =? 1) = false) as -> by lia.
    assert ((delta >? 1) = false) as -> by lia.
    assert ((delta =? -1) = false) as -> by lia.
    exists w5. unfold try_catch. by repeat split.
  - eexists. split; [reflexivity|]. split; [done|]. split.
    + eapply frame_trans; [exact Hh | apply frame_console].
    + exact Hsame.
Qed.

(** A batch in the state the handler reads: one write, of [delta - 1], and
    no enforcement. *)
Lemma batch_sets_passes
    (tab : Tab) (w w1 w2 w3 w4 : World) (options : Options) (place : JSVal)
    (delta : Z) (state : State) :
  getOptions w = (Ok options, w1) →
  detectTabLimitExceeded options w1 = (Ok place, w2) →
  ToBoolean place = true →
  updateTabCount w2 = (Ok delta, w3) →
  getSessionState w3 = (Ok state, w4) →
  passes state = 0 →
  1 < delta →
  well_typed options →
  ∃ v w5 w' before after,
    displayAlert options place w4 = (Ok v, w5) ∧
    handleTabCreated tab w = (Ok tt, w') ∧
    trace w' =
      trace w ++ before ++ Called (StorageSessionSet {[ "passes" := delta - 1 ]}) :: after ∧
    Forall harmless before ∧ Forall bookkeeping after ∧
    (hd false (faults w5) = false → passes (stored_state w') = delta - 1).
Proof.
  intros Ho Hp Ht Hd Hs Hzero Hdelta Htyped.
  destruct (displayAlert_returns options place w4 Htyped) as (v & w5 & Ha).
  { eapply detectTabLimitExceeded_result; eassumption. }
  rewrite (run_handleTabCreated_no_pass _ _ _ _ _ _ _ _ _ _ _ _ Ho Hp Ht Hd Hs
             ltac:(lia) Ha).
  unfold after_alert.
  assert ((delta =? 1) = false) as -> by lia.
  assert ((delta >? 1) = true) as -> by lia.
  assert (Hh : extends harmless w w5).
  { eapply frame_trans; [eapply prefix_frames; eassumption|].
    eapply steps_displayAlert; [apply harmless_alert | exact Ha]. }
  destruct Hh as (before & Hbefore & Fbefore).
  destruct (after_updateSessionState {[ "passes" := delta - 1 ]} w5)
    as (w' & after & Hrun & Htrace & Fafter & Hstore).
  exists v, w5, w', before, after. unfold try_catch. rewrite Hrun.
  split; [done|]. split; [done|]. rewrite Htrace, Hbefore, <- app_assoc.
  repeat split; try done.
  intros Hwrite. unfold stored_state at 1, read_session. cbn [passes].
  rewrite (Hstore Hwrite). by rewrite lookup_union_l', lookup_singleton_eq.
Qed.

(** ** A budget of passes *)

#[global] Instance all_accepted_Frame : Frame (λ _, True) all_accepted.
Proof.
  split; unfold all_accepted; try done.
  - auto.
  - intros c w _ Hw. wsimpl. by rewrite Hw.
Qed.

#[global] Instance silent_Frame : Frame silent (extends silent).
Proof. apply extends_Frame; unfold silent; [done | by intros [] | done]. Qed.

#[global] Instance anything_Frame : Frame (λ _, True) (extends (λ _, True)).
Proof. by apply extends_Frame. Qed.

Lemma updateTabCount_returns w : ∃ delta w', updateTabCount w = (Ok delta, w').
Proof.
  unfold updateTabCount, try_catch.
  match goal with |- context [let (_, _) := ?m w in _] => destruct (m w) as [[d|e] w1] end;
    by eexists _, _.
Qed.

Lemma steps_after_alert {allowed R} `{!Frame allowed R} tab options place delta :
  (∀ e, allowed e) → steps R (after_alert tab options place delta).
Proof.
  intros Hall. unfold after_alert.
  pose proof (steps_handleExceedTabs (R := R) tab options place (Hall _) (Hall _)).
  pose proof (λ u, steps_updateSessionState (R := R) u (Hall _)).
  pose proof (steps_handleUpdate (R := R)).
  steps_go.
Qed.

Lemma bookkeeping_silent e : bookkeeping e → silent e.
Proof. by intros (? & ? & ?). Qed.

(** An exceeded event with a pass in store takes one off and is silent. *)
Lemma exceeded_event_with_pass tab options wa wb :
  finds_limit_exceeded options wa →
  0 < passes (stored_state wa) →
  handleTabCreated tab wa = (Ok tt, wb) →
  passes (stored_state wb) = passes (stored_state wa) - 1 ∧ extends silent wa wb.
Proof.
  intros (Hcalm & w1 & place & w2 & Ho & Hp & Ht) Hpos Hrun.
  destruct (updateTabCount_returns w2) as (delta & w3 & Hd).
  assert (Hcalm3 : faults w3 = []).
  { revert Hcalm. change (all_accepted wa w3).
    eapply frame_trans; [eapply steps_getOptions, Ho|].
    eapply frame_trans; [eapply steps_detectTabLimitExceeded, Hp|].
    eapply steps_updateTabCount, Hd. }
  assert (Hs : getSessionState w3 = (Ok (stored_state w3), after_call StorageSessionGet w3))
    by (by rewrite run_getSessionState, Hcalm3).
  assert (Hsame : passes (stored_state w3) = passes (stored_state wa)).
  { apply passes_of_store.
    eapply frame_trans; [eapply steps_getOptions, Ho|].
    eapply frame_trans; [eapply steps_detectTabLimitExceeded, Hp|].
    eapply steps_updateTabCount, Hd. }
  rewrite <- Hsame in Hpos |- *.
  destruct (pass_consumed tab _ _ _ _ _ _ _ _ _ Ho Hp Ht Hd Hs Hpos)
    as (w' & before & after & Hrun' & Htrace & Fb & Fa & Hstore).
  rewrite Hrun in Hrun'. injection Hrun' as <-. split.
  - unfold stored_state at 1, read_session. cbn [passes].
    rewrite Hstore by (wsimpl; by rewrite Hcalm3).
    by rewrite lookup_union_l', lookup_singleton_eq.
  - exists (before ++ Called (StorageSessionSet {[ "passes" := passes (stored_state w3) - 1 ]})
              :: after).
    split; [exact Htrace|].
    apply Forall_app. split; [eapply Forall_impl; [exact Fb | apply bookkeeping_silent]|].
    constructor; [done|]. eapply Forall_impl; [exact Fa | apply bookkeeping_silent].
Qed.

(** [n] passes in store last for exactly [n] exceeded events. *)
Lemma passes_budget n w w' :
  exceeded_events n w w' →
  passes (stored_state w) = Z.of_nat n →
  passes (stored_state w') = 0 ∧ extends silent w w'.
Proof.
  induction 1 as [w | n tab options w wa wb wc Hsess Htrace Hex Hrun Hrest IH]; intros Hn.
  - split; [exact Hn | apply frame_refl].
  - assert (Hsame : passes (stored_state wa) = passes (stored_state w))
      by (unfold stored_state; by rewrite Hsess).
    destruct (exceeded_event_with_pass tab options wa wb Hex ltac:(lia) Hrun)
      as [Hdec (evs & Hevs & Fevs)].
    destruct IH as [Hzero (evs' & Hevs' & Fevs')]; [lia|].
    split; [exact Hzero|].
    exists (evs ++ evs'). rewrite Hevs', Hevs, Htrace, app_assoc.
    split; [done | by apply Forall_app].
Qed.

(** An exceeded event with no pass in store is not suppressed: when the
    options ask for alerts, it displays one. *)
Lemma exceeded_event_without_pass tab options wa wb :
  finds_limit_exceeded options wa →
  passes (stored_state wa) = 0 →
  well_typed options →
  ToBoolean (prop options "displayAlert") = true →
  handleTabCreated tab wa = (Ok tt, wb) →
  ∃ evs, trace wb = trace wa ++ evs ∧ Exists (λ e, alert e = true) evs.
Proof.
  intros (Hcalm & w1 & place & w2 & Ho & Hp & Ht) Hzero Htyped Hon Hrun.
  destruct (updateTabCount_returns w2) as (delta & w3 & Hd).
  assert (Hcalm3 : faults w3 = []).
  { revert Hcalm. change (all_accepted wa w3).
    eapply frame_trans; [eapply steps_getOptions, Ho|].
    eapply frame_trans; [eapply steps_detectTabLimitExceeded, Hp|].
    eapply steps_updateTabCount, Hd. }
  assert (Hs : getSessionState w3 = (Ok (stored_state w3), after_call StorageSessionGet w3))
    by (by rewrite run_getSessionState, Hcalm3).
  assert (Hsame : passes (stored_state w3) = passes (stored_state wa)).
  { apply passes_of_store.
    eapply frame_trans; [eapply steps_getOptions, Ho|].
    eapply frame_trans; [eapply steps_detectTabLimitExceeded, Hp|].
    eapply steps_updateTabCount, Hd. }
  destruct (prefix_frames (R := extends (λ _, True)) _ _ _ _ _ _ _ _ _ Ho Hp Hd Hs)
    as (pre & Hpre & _).
  destruct (renderedMessage_total options place Htyped) as [message Hm].
  { eapply detectTabLimitExceeded_result; eassumption. }
  set (w4 := after_call StorageSessionGet w3) in *.
  set (n := {| n_type := "basic"; n_iconUrl := "icons/48.png";
               n_title := "Tab Limiter"; n_message := message |}).
  assert (Ha : displayAlert options place w4 = (Ok VUndefined, after_call (NotificationsCreate n) w4)).
  { unfold displayAlert. rewrite Hon. cbn [negb].
    rewrite run_bind. unfold lift. rewrite Hm, run_bind.
    unfold try_catch, chrome_notifications_create. rewrite run_invoke.
    unfold w4. wsimpl. by rewrite Hcalm3. }
  rewrite (run_handleTabCreated_no_pass _ _ _ _ _ _ _ _ _ _ _ _ Ho Hp Ht Hd Hs
             ltac:(lia) Ha) in Hrun.
  destruct (steps_after_alert (allowed := λ _, True) (R := extends (λ _, True))
              tab options place delta (λ _, I) _ _ _ Hrun) as (post & Hpost & _).
  exists (pre ++ Called (NotificationsCreate n) :: post). split.
  - rewrite Hpost. wsimpl. rewrite Hpre, <- !app_assoc. reflexivity.
  - apply Exists_app. right. by constructor.
Qed.

(** C2.  Take any tab-creation event in which the detector reports an
    exceeded scope, the state the handler reads has [passes = 0],
    [updateTabCount] returns a delta above 1 and the alert template is a
    string.  Then the handler returns; it asks the browser exactly once to
    store a pass counter, [delta - 1]; nothing it emits closes or relocates
    a tab.  When the browser accepts that write the stored pass counter is
    [delta - 1], and it lasts for exactly [delta - 1] further creation
    events that find a limit exceeded: each of them is silent, after them
    the counter is [0], and the next such event is not suppressed (it
    displays the alert when the options ask for alerts). *)
Theorem batch_grants_passes
    (tab : Tab) (w w1 w2 w3 w4 : World) (options : Options) (place : JSVal)
    (delta : Z) (state : State) :
  getOptions w = (Ok options, w1) →
  detectTabLimitExceeded options w1 = (Ok place, w2) →
  ToBoolean place = true →
  updateTabCount w2 = (Ok delta, w3) →
  getSessionState w3 = (Ok state, w4) →
  passes state = 0 →
  1 < delta →
  well_typed options →
  ∃ v w5 w' before after,
    displayAlert options place w4 = (Ok v, w5) ∧
    handleTabCreated tab w = (Ok tt, w') ∧
    trace w' =
      trace w ++ before ++ Called (StorageSessionSet {[ "passes" := delta - 1 ]}) :: after ∧
    Forall harmless before ∧ Forall bookkeeping after ∧
    (hd false (faults w5) = false →
     passes (stored_state w') = delta - 1 ∧
     ∀ wn, exceeded_events (Z.to_nat (delta - 1)) w' wn →
       passes (stored_state wn) = 0 ∧
       extends silent w' wn ∧
       ∀ tab' options' wa wb,
         session wa = session wn →
         finds_limit_exceeded options' wa →
         well_typed options' →
         ToBoolean (prop options' "displayAlert") = true →
         handleTabCreated tab' wa = (Ok tt, wb) →
         ∃ evs, trace wb = trace wa ++ evs ∧ Exists (λ e, alert e = true) evs).
Proof.
  intros Ho Hp Ht Hd Hs Hzero Hdelta Htyped.
  destruct (batch_sets_passes tab _ _ _ _ _ _ _ _ _ Ho Hp Ht Hd Hs Hzero Hdelta Htyped)
    as (v & w5 & w' & before & after & Ha & Hrun & Htrace & Fb & Fa & Hstore).
  exists v, w5, w', before, after. repeat split; try assumption.
  - by apply Hstore.
  - eapply passes_budget; [eassumption|]. rewrite Hstore by assumption. lia.
  - eapply passes_budget; [eassumption|]. rewrite Hstore by assumption. lia.
  - intros tab' options' wa wb Hsess Hex Htyped' Hon Hrun'.
    eapply exceeded_event_without_pass; try eassumption.
    unfold stored_state. rewrite Hsess.
    eapply passes_budget; [eassumption|]. rewrite Hstore by assumption. lia.
Qed.

(** * The pass counter is never negative *)

Lemma steps_handleTabCreated {allowed R} `{!Frame allowed R} tab :
  (∀ n, allowed (Called (NotificationsCreate n))) →
  allowed (Called (TabsRemove (id tab))) →
  allowed (Called (WindowsCreate (id tab) true)) →
  (∀ p, 0 ≤ p → allowed (Called (StorageSessionSet {[ "passes" := p ]}))) →
  steps R (handleTabCreated tab).
Proof.
  intros Hn Hr Hc Hp. unfold handleTabCreated.
  pose proof (steps_handleUpdate (R := R)).
  pose proof (λ options place, steps_handleExceedTabs (R := R) tab options place Hr Hc).
  pose proof (λ options place, steps_displayAlert (R := R) options place Hn).
  steps_go; apply steps_updateSessionState, Hp; lia.
Qed.

Lemma steps_listener {allowed R} `{!Frame allowed R} ev :
  (∀ c, allowed (Called c) ∨ ∃ p, p < 0 ∧ passes_written (Called c) = Some p) →
  steps R (listener ev).
Proof.
  intros Hall.
  assert (Hok : ∀ c, passes_written (Called c) = None → allowed (Called c)).
  { intros c Hc. destruct (Hall c) as [|(p & _ & Hp)]; [done | congruence]. }
  destruct ev; simpl;
    try apply steps_handleUpdate; try apply steps_handleInstalled.
  - apply steps_handleTabCreated; try (intros; by apply Hok).
    intros p Hp. destruct (Hall (StorageSessionSet {[ "passes" := p ]}))
      as [|(q & Hq & Hw)]; [done|].
    simpl in Hw. rewrite lookup_singleton_eq in Hw. injection Hw as <-. lia.
  - pose proof (steps_handleUpdate (R := R)). steps_go.
Qed.

Lemma steps_decrementPasses {allowed R} `{!Frame allowed R} :
  (∀ p, 0 ≤ p → allowed (Called (StorageSessionSet {[ "passes" := p ]}))) →
  steps R SessionState.decrementPasses.
Proof.
  intros Hp.
  unfold SessionState.decrementPasses, SessionState.get, SessionState.set,
    chrome_storage_session_get, chrome_storage_session_set.
  assert (∀ x, allowed (Called (StorageSessionSet {[ "passes" := Z.max 0 x ]})))
    by (intros x; apply Hp; lia).
  steps_go.
  - apply steps_invoke. auto.
  - apply steps_modify. intros w. apply frame_session. auto.
Qed.

Lemma run_decrementPasses w :
  ∃ w', SessionState.decrementPasses w =
        (Ok (if hd false (faults w) then 0 else Z.max 0 (passes (stored_state w) - 1)), w').
Proof.
  unfold SessionState.decrementPasses. rewrite run_bind.
  change SessionState.get with
    (try_catch (chrome_storage_session_get default_state) (λ error, mret default_state)).
  unfold try_catch at 1, chrome_storage_session_get. rewrite run_bind, run_invoke.
  destruct (hd false (faults w)); unfold get_world, mbind, M_bind, mret, M_ret;
    cbv beta iota zeta;
    change (SessionState.set ?u) with (updateSessionState u);
    rewrite run_updateSessionState; by destruct (hd false _); eexists.
Qed.

(** C9.  Whatever the world a listener starts in, every write of the pass
    counter it asks for carries a non-negative value (the decrement is only
    written when the counter read is above 0, the batch value [delta - 1]
    only when [delta > 1]), and a store whose counter is non-negative stays
    so.  Hence in every world the worker can reach from an empty session
    store the stored pass counter is non-negative.  The [decrementPasses]
    of the test helper has the floor written out: it returns and writes
    [max 0 (passes - 1)], which is 0 from a counter of 0. *)
Theorem passes_never_negative :
  (∀ ev w r w', listener ev w = (r, w') →
     (∃ evs, trace w' = trace w ++ evs ∧
             Forall (λ e, ∀ p, passes_written e = Some p → 0 ≤ p) evs) ∧
     (passes_nonneg (session w) → passes_nonneg (session w'))) ∧
  (∀ w, reachable w → passes_nonneg (session w) ∧ 0 ≤ passes (stored_state w)) ∧
  (∀ w, ∃ n w',
     SessionState.decrementPasses w = (Ok n, w') ∧
     0 ≤ n ∧
     (passes (stored_state w) = 0 → n = 0) ∧
     (∃ evs, trace w' = trace w ++ evs ∧
             Forall (λ e, ∀ p, passes_written e = Some p → 0 ≤ p) evs) ∧
     (passes_nonneg (session w) → passes_nonneg (session w'))).
Proof.
  assert (Hallowed : ∀ c, writes_nonneg (Called c) ∨
                          ∃ p, p < 0 ∧ passes_written (Called c) = Some p).
  { intros c. unfold writes_nonneg. destruct (passes_written (Called c)) as [p|] eqn:E.
    - destruct (Z_lt_le_dec p 0); [right; eauto | left; by intros ? [= <-]].
    - by left. }
  assert (Hstep : ∀ ev w r w', listener ev w = (r, w') →
                    extends writes_nonneg w w' ∧ keeps_nonneg w w').
  { intros ev w r w' Hrun. split.
    - eapply (steps_listener (R := extends writes_nonneg)); eassumption.
    - eapply (steps_listener (R := keeps_nonneg)); eassumption. }
  split; [exact Hstep|].
  assert (Hinv : ∀ w, reachable w → passes_nonneg (session w)).
  { induction 1 as [w Hw | ev w r w' _ IH Hrun | w w' _ IH Hsess].
    - rewrite Hw. intros p. by rewrite lookup_empty.
    - by apply (Hstep _ _ _ _ Hrun).
    - by rewrite Hsess. }
  split.
  { intros w Hw. split; [by apply Hinv|].
    unfold stored_state, read_session. cbn [passes].
    destruct (session w !! "passes") as [p|] eqn:E; simpl; [by apply (Hinv w Hw) | done]. }
  intros w. destruct (run_decrementPasses w) as [w' Hrun].
  assert (Hwrite : ∀ p, 0 ≤ p →
            writes_nonneg (Called (StorageSessionSet {[ "passes" := p ]}))).
  { intros p Hp q. simpl. rewrite lookup_singleton_eq. by intros [= <-]. }
  eexists _, w'. split; [exact Hrun|]. repeat split.
  - destruct (hd false (faults w)); lia.
  - intros ->. by destruct (hd false (faults w)).
  - eapply (steps_decrementPasses (R := extends writes_nonneg)); eassumption.
  - eapply (steps_decrementPasses (R := keeps_nonneg)); eassumption.
Qed.

(** * Failures while counting *)

#[global] Instance no_enforcement_Frame : Frame no_enforcement (extends no_enforcement).
Proof. apply extends_Frame; unfold no_enforcement; [done | by intros [] | done]. Qed.

Lemma getSessionState_returns w : ∃ state w', getSessionState w = (Ok state, w').
Proof. rewrite run_getSessionState. destruct (hd false (faults w)); by eexists _, _. Qed.

(** A rejected tab query is caught by [updateTabCount]; a rejected read of
    the session state makes the invocation a first observation.  Both
    return 0. *)
Lemma updateTabCount_failure w :
  hd false (faults w) = true ∨ hd false (tail (faults w)) = true →
  ∃ w', updateTabCount w = (Ok 0, w').
Proof.
  intros Hfail. unfold updateTabCount, try_catch.
  rewrite run_bind, run_chrome_tabs_query.
  destruct (hd false (faults w)) eqn:Hq; [by eexists|].
  destruct Hfail as [|Hg]; [done|].
  rewrite run_bind, run_getSessionState. wsimpl. rewrite Hg.
  assert ((Z.of_nat (List.length (List.filter
             (query_matches (currentWindow w) (mkQuery None None)) (tabs w)))
           =? tabCount default_state) = false) as ->
    by (apply Z.eqb_neq; cbn [tabCount default_state]; lia).
  cbv zeta. rewrite run_bind, run_updateSessionState.
  destruct (hd false (faults (emit _ _))); eexists; reflexivity.
Qed.

(** The claim of C10 as it stands fails when the rejected operation is the
    write of the counters: [updateSessionState] swallows the rejection and
    [updateTabCount] returns the delta it computed, here 1; in a creation
    event the tab is then closed. *)
Lemma write_failure_counterexample :
  (∃ w', updateTabCount ex_world_write_rejected = (Ok 1, w') ∧
         In (ConsoleError "Failed to update session state:"
               (Rejected (StorageSessionSet
                  {[ "previousTabCount" := 2; "tabCount" := 3; "amountOfTabsCreated" := 1 ]})))
            (trace w')) ∧
  (∃ w', handleTabCreated (mkTab 3 1 false) ex_world_event_write_rejected = (Ok tt, w') ∧
         In (Called (TabsRemove 3)) (trace w') ∧
         tabs w' = [mkTab 1 1 false; mkTab 2 1 false]).
Proof.
  split; eexists; (split; [vm_compute; reflexivity|]); simpl; intuition.
Qed.

(** When the tab query and the read of the session state are answered,
    [updateTabCount] returns the delta it computes from them, whether or
    not the browser accepts the write of the counters. *)
Lemma updateTabCount_ignores_write w :
  hd false (faults w) = false →
  hd false (tail (faults w)) = false →
  let state := stored_state w in
  let count := Z.of_nat (List.length (tabs w)) in
  ∃ w', updateTabCount w =
        (Ok (if count =? tabCount state then amountOfTabsCreated state
             else if tabCount state =? -1 then 0 else count - tabCount state), w').
Proof.
  intros Hq Hg state count. unfold updateTabCount, try_catch.
  rewrite run_bind, run_chrome_tabs_query, Hq.
  rewrite run_bind, run_getSessionState. wsimpl. rewrite Hg.
  rewrite query_everything. fold count.
  change (stored_state (after_call (TabsQuery (mkQuery None None)) w)) with state.
  destruct (count =? tabCount state); [by eexists|].
  cbv zeta. rewrite run_bind, run_updateSessionState.
  destruct (tabCount state =? -1); cbn [negb];
    destruct (hd false (faults (after_call _ _))); eexists; reflexivity.
Qed.

(** C10, amended.  Take a tab-creation event in which the detector reports
    an exceeded scope and the browser rejects the tab query of
    [updateTabCount] or the read of the session state that follows it.
    Then [updateTabCount] returns 0 (not the sentinel [-1]), the handler
    returns, and nothing it emits closes or relocates a tab.  (When both
    are answered, [updateTabCount] returns the delta it computes from them,
    whether or not the write of the counters is accepted.) *)
Theorem failed_count_enforces_nothing
    (tab : Tab) (w w1 w2 : World) (options : Options) (place : JSVal) :
  getOptions w = (Ok options, w1) →
  detectTabLimitExceeded options w1 = (Ok place, w2) →
  ToBoolean place = true →
  hd false (faults w2) = true ∨ hd false (tail (faults w2)) = true →
  (∃ w3 w',
     updateTabCount w2 = (Ok 0, w3) ∧
     handleTabCreated tab w = (Ok tt, w') ∧
     ∃ evs, trace w' = trace w ++ evs ∧ Forall (λ e, enforcement e = false) evs) ∧
  (∀ wq,
     hd false (faults wq) = false →
     hd false (tail (faults wq)) = false →
     ∃ wq',
       updateTabCount wq =
       (Ok (if Z.of_nat (List.length (tabs wq)) =? tabCount (stored_state wq)
            then amountOfTabsCreated (stored_state wq)
            else if tabCount (stored_state wq) =? -1 then 0
                 else Z.of_nat (List.length (tabs wq)) - tabCount (stored_state wq)),
        wq')).
Proof.
  intros Ho Hp Ht Hfail. split; [|exact updateTabCount_ignores_write].
  destruct (updateTabCount_failure w2 Hfail) as (w3 & Hd).
  destruct (getSessionState_returns w3) as (state & w4 & Hs).
  exists w3. destruct (Z_lt_le_dec 0 (passes state)) as [Hpos|Hzero].
  - destruct (pass_consumed tab _ _ _ _ _ _ _ _ _ Ho Hp Ht Hd Hs Hpos)
      as (w' & before & after & Hrun & Htrace & Fb & Fa & _).
    exists w'. split; [done|]. split; [done|].
    eexists. split; [exact Htrace|].
    apply Forall_app. split; [eapply Forall_impl; [exact Fb | by intros ? (? & _)]|].
    constructor; [done|]. eapply Forall_impl; [exact Fa | by intros ? (? & _)].
  - destruct (displayAlert options place w4) as [r w5] eqn:Ha.
    rewrite (run_handleTabCreated_no_pass _ _ _ _ _ _ _ _ _ _ _ _ Ho Hp Ht Hd Hs Hzero Ha).
    assert (Hh : extends no_enforcement w w5).
    { eapply frame_trans; [eapply prefix_frames; eassumption|].
      eapply steps_displayAlert; [done | exact Ha]. }
    destruct r as [v|e]; eexists; (split; [done|]); (split; [reflexivity|]).
    + exact Hh.
    + eapply (frame_trans (R := extends no_enforcement)); [exact Hh | apply frame_console].
Qed.

(** * The statements at work *)

Lemma suppressed_event_consumes_one_pass_witness :
  ∃ w' before after,
    handleTabCreated ex_tab ex_pass_w = (Ok tt, w') ∧
    trace w' =
      trace ex_pass_w ++ before ++
      Called (StorageSessionSet {[ "passes" := passes (stored_state ex_pass_w) - 1 ]})
      :: after ∧
    Forall bookkeeping before ∧ Forall bookkeeping after ∧
    (hd false (tail (faults ex_pass_w3)) = false →
     passes (stored_state w') = passes (stored_state ex_pass_w) - 1).
Proof.
  apply (suppressed_event_consumes_one_pass
           ex_tab ex_pass_w ex_pass_w1 ex_pass_w2 ex_pass_w3 ex_options (VStr "window") 0);
    vm_compute; reflexivity.
Defined.

Lemma batch_grants_passes_witness :
  ∃ w', handleTabCreated ex_tab ex_batch_w = (Ok tt, w') ∧
        In (Called (StorageSessionSet {[ "passes" := 1 ]})) (trace w').
Proof.
  assert (Htyped : well_typed ex_options) by (eexists; reflexivity).
  destruct (batch_grants_passes
              ex_tab ex_batch_w ex_batch_w1 ex_batch_w2 ex_batch_w3 ex_batch_w4
              ex_options (VStr "window") 2 ex_batch_state)
    as (v & w5 & w' & before & after & _ & Hrun & Htrace & _);
    try (vm_compute; reflexivity); [exact Htyped|].
  exists w'. split; [exact Hrun|].
  rewrite Htrace. apply in_or_app. right. apply in_or_app. right. left. reflexivity.
Defined.

Lemma delta_zero_is_noop_witness :
  ∃ w', handleTabCreated ex_tab ex_first_w = (Ok tt, w') ∧
        (∀ v, Ok VUndefined = Ok v → w' = ex_first_w5) ∧
        extends harmless ex_first_w w' ∧
        session w' !! "passes" = session ex_first_w !! "passes".
Proof.
  apply (delta_zero_is_noop
           ex_tab ex_first_w ex_first_w1 ex_first_w2 ex_first_w3 ex_first_w4 ex_first_w5
           ex_options (VStr "window") 0 ex_first_state (Ok VUndefined));
    try (vm_compute; reflexivity).
  left. reflexivity.
Defined.

Lemma failed_count_enforces_nothing_witness :
  ∃ w3 w',
    updateTabCount ex_rejected_w2 = (Ok 0, w3) ∧
    handleTabCreated ex_tab ex_rejected_w = (Ok tt, w') ∧
    ∃ evs, trace w' = trace ex_rejected_w ++ evs ∧ Forall (λ e, enforcement e = false) evs.
Proof.
  apply (failed_count_enforces_nothing
           ex_tab ex_rejected_w ex_rejected_w1 ex_rejected_w2 ex_options (VStr "window"));
    try (vm_compute; reflexivity).
  left. vm_compute. reflexivity.
Defined.

(** * The alert renderer *)

Lemma app_cons c s t : String c s +:+ t = String c (s +:+ t).
Proof. reflexivity. Qed.

Lemma app_empty s : "" +:+ s = s.
Proof. reflexivity. Qed.
































(** One further event over the limit after the batch event: the run that
    C2 speaks about exists, and it uses up the pass. *)
Example exceeded_events_after_batch :
  exceeded_events 1 ex_batch_after ex_batch_next ∧
  passes (stored_state ex_batch_after) = 1 ∧
  passes (stored_state ex_batch_next) = 0.
Proof.
  split; [|split; reflexivity].
  apply (exceeded_events_S 0 ex_tab ex_options ex_batch_after ex_batch_after
           ex_batch_next ex_batch_next); try reflexivity; [|constructor].
  split; [reflexivity|].
  eexists _, (VStr "window"), _. repeat split; vm_compute; reflexivity.
Qed.

Lemma handleExceedTabs_action_witness :
  ∃ w' log,
    handleExceedTabs ex_tab (<["exceedTabNewWindow" := VBool true]> ex_options)
      (VStr "total") ex_world = (Ok tt, w') ∧
    trace w' = trace ex_world ++ Called (TabsRemove 3) :: log ∧
    tabs w' = [mkTab 1 1 false; mkTab 2 1 false].
Proof.
  destruct (handleExceedTabs_action ex_tab (<["exceedTabNewWindow" := VBool true]> ex_options)
              (VStr "total") ex_world)
    as (_ & w' & log & Hrun & Htrace & _ & Heffect).
  exists w', log. split; [exact Hrun|]. split; [exact Htrace|].
  destruct Heffect as [_ Htabs]; [reflexivity | reflexivity | exact Htabs].
Defined.

Lemma passes_never_negative_witness :
  0 ≤ passes (stored_state ex_first_after).
Proof.
  apply (proj2 passes_never_negative).
  apply (reachable_event (tabs_onCreated ex_tab) ex_first_w (Ok tt)); [|reflexivity].
  by apply reachable_start.
Defined.

(** The renderings the specification lists, and the test of
    [capitalizeFirstLetter]. *)
Example spec_renderings :
  renderedMessage (<["alertMessage" := VStr "{place} limit is {maxPlace}"]>
                     (<["maxWindow" := VNum (Fin 10)]> DEFAULT_OPTIONS)) (VStr "window")
    = Ok "one window limit is 10" ∧
  renderedMessage (<["alertMessage" := VStr "{foo}"]> DEFAULT_OPTIONS) (VStr "total")
    = Ok "?" ∧
  renderedMessage (<["alertMessage" := VStr "{ maxTotal }"]>
                     (<["maxTotal" := VNum (Fin 75)]> DEFAULT_OPTIONS)) (VStr "total")
    = Ok "75" ∧
  renderedMessage (<["alertMessage" := VStr "{ maxTotal }"]>
                     (<["maxTotal" := VStr "75"]> DEFAULT_OPTIONS)) (VStr "total")
    = Ok "75" ∧
  capitalizeFirstLetter (VStr "window") = Ok "Window" ∧
  capitalizeFirstLetter (VStr "total") = Ok "Total".
Proof. repeat split; vm_compute; reflexivity. Qed.

(** * The session state *)

(** X1.  Whatever the world: [getSessionState] returns a state and never
    throws, and it leaves the session store as it is.  When the browser
    answers its one call, each of the four fields is the stored value where
    the store has the key and the default where it has not ([-1] for the
    three counters, [0] for [passes]).  When the browser rejects the call,
    the state is the four defaults and the rejection is reported on the
    console. *)
Theorem getSessionState_falls_back_on_defaults (w : World) :
  ∃ state w',
    getSessionState w = (Ok state, w') ∧
    session w' = session w ∧
    (hd false (faults w) = false →
     trace w' = trace w ++ [Called StorageSessionGet] ∧
     tabCount state = default (-1) (session w !! "tabCount") ∧
     previousTabCount state = default (-1) (session w !! "previousTabCount") ∧
     amountOfTabsCreated state = default (-1) (session w !! "amountOfTabsCreated") ∧
     passes state = default 0 (session w !! "passes")) ∧
    (hd false (faults w) = true →
     trace w' = trace w ++ [Called StorageSessionGet;
                            ConsoleError "Failed to get session state:"
                              (Rejected StorageSessionGet)] ∧
     state = {| tabCount := -1; previousTabCount := -1;
                amountOfTabsCreated := -1; passes := 0 |}).
Proof.
  rewrite run_getSessionState. destruct (hd false (faults w)).
  - eexists _, _. split; [reflexivity|]. wsimpl. split; [done|].
    split; [done|]. intros _. by rewrite <- app_assoc.
  - eexists _, _. split; [reflexivity|]. wsimpl. split; [done|].
    split; [|done]. intros _. by repeat split.
Qed.

(** X2.  A write of the session state followed by a read.
    [updateSessionState] returns and never throws.  When the browser rejects
    the write, the store is left as it was.  When the browser accepts the
    write and the read, the store is the old one overwritten with the
    updates, and the state read has, field by field, the value written
    where the updates have the key and the value that was stored before
    where they have not. *)
Theorem session_write_then_read (u : gmap string Z) (w : World) :
  ∃ w1 state w2,
    updateSessionState u w = (Ok tt, w1) ∧
    getSessionState w1 = (Ok state, w2) ∧
    (hd false (faults w) = true → session w1 = session w) ∧
    (calm 2 w →
     session w1 = u ∪ session w ∧
     tabCount state = default (tabCount (stored_state w)) (u !! "tabCount") ∧
     previousTabCount state =
       default (previousTabCount (stored_state w)) (u !! "previousTabCount") ∧
     amountOfTabsCreated state =
       default (amountOfTabsCreated (stored_state w)) (u !! "amountOfTabsCreated") ∧
     passes state = default (passes (stored_state w)) (u !! "passes")).
Proof.
  destruct (updateSessionState u w) as [r w1] eqn:Hu.
  destruct (getSessionState_returns w1) as (state & w2 & Hs).
  rewrite run_updateSessionState in Hu.
  destruct (hd false (faults w)) eqn:Hw; injection Hu as <- <-.
  - eexists _, state, w2. split; [reflexivity|]. split; [exact Hs|].
    split; [done|]. intros Hc. apply calm_S in Hc as [Hc _]. congruence.
  - eexists _, state, w2. split; [reflexivity|]. split; [exact Hs|].
    split; [done|]. intros Hc.
    apply calm_S in Hc as [_ Hc]. specialize (Hc (StorageSessionSet u)).
    apply calm_S in Hc as [Hc _].
    rewrite run_getSessionState in Hs. revert Hs Hc. wsimpl. intros Hs Hc.
    rewrite Hc in Hs. injection Hs as <- _.
    split; [done|].
    unfold stored_state, read_session. wsimpl.
    cbn [tabCount previousTabCount amountOfTabsCreated passes default_state].
    rewrite !lookup_union.
    repeat split; by destruct (u !! _), (session w !! _).
Qed.

(** * The options *)

Lemma run_getOptions w :
  getOptions w =
  let w1 := after_call (StorageSyncGetKey "defaultOptions") w in
  let defaults := default DEFAULT_OPTIONS (sync_defaultOptions w) in
  let w2 := after_call (StorageSyncGet defaults) w1 in
  if hd false (faults w)
  then (Ok DEFAULT_OPTIONS,
        emit (ConsoleError "Failed to get options:"
                (Rejected (StorageSyncGetKey "defaultOptions"))) w1)
  else if hd false (tail (faults w))
  then (Ok DEFAULT_OPTIONS,
        emit (ConsoleError "Failed to get options:" (Rejected (StorageSyncGet defaults))) w2)
  else (Ok (map_imap (λ k d, Some (default d (sync_items w !! k))) defaults), w2).
Proof.
  unfold getOptions, try_catch, chrome_storage_sync_get_defaultOptions, chrome_storage_sync_get.
  rewrite !run_bind, run_invoke.
  destruct (hd false (faults w)) eqn:H1; [reflexivity|].
  rewrite run_get_world. cbn [mret M_ret]. rewrite !run_bind, run_invoke. wsimpl.
  destruct (hd false (tail (faults w))) eqn:H2; reflexivity.
Qed.

Lemma calm_2 w :
  calm 2 w ↔ hd false (faults w) = false ∧ hd false (tail (faults w)) = false.
Proof.
  unfold calm. destruct (faults w) as [|[] [|[] fs]]; simpl; intuition congruence.
Qed.

(** X3.  [getOptions] returns options and never throws.  Let [defaults] be
    the object stored under [defaultOptions], or [DEFAULT_OPTIONS] when
    there is none.  When the browser answers both reads, the options have
    exactly the keys of [defaults], and each key (other than
    [defaultOptions] itself) holds the stored item of that name when there
    is one and the default otherwise; items stored under other names are
    not part of the answer.  When the browser rejects one of the two reads,
    the answer is [DEFAULT_OPTIONS], whatever is stored, and the rejection is
    the last thing reported on the console. *)
Theorem getOptions_merges_or_falls_back (w : World) :
  let defaults := default DEFAULT_OPTIONS (sync_defaultOptions w) in
  ∃ options w',
    getOptions w = (Ok options, w') ∧
    (calm 2 w →
     dom options = dom defaults ∧
     ∀ k d, k ≠ "defaultOptions" → defaults !! k = Some d →
            options !! k = Some (default d (sync_items w !! k))) ∧
    (¬ calm 2 w →
     options = DEFAULT_OPTIONS ∧
     ∃ c, last (trace w') = Some (ConsoleError "Failed to get options:" (Rejected c))).
Proof.
  intros defaults. pose proof (run_getOptions w) as Hrun. cbv zeta in Hrun.
  fold defaults in Hrun. setoid_rewrite calm_2.
  destruct (hd false (faults w)); [|destruct (hd false (tail (faults w)))];
    eexists _, _; (split; [exact Hrun|]).
  - split; [intros [? _]; done|].
    intros _. split; [done|]. eexists. wsimpl. by rewrite last_snoc.
  - split; [intros [_ ?]; done|].
    intros _. split; [done|]. eexists. wsimpl. by rewrite last_snoc.
  - split; [|intros []; done].
    intros _. split.
    + apply set_eq. intros k. rewrite !elem_of_dom, map_lookup_imap.
      destruct (defaults !! k); simpl; split; intros [? ?]; eauto; done.
    + intros k d _ Hd. by rewrite map_lookup_imap, Hd.
Qed.

(** * What the bookkeeping leaves untouched *)

#[global] Instance same_items_Frame : Frame (λ _, True) same_items.
Proof. split; unfold same_items; try done. intros w1 w2 w3 H1 H2. by rewrite H2. Qed.

Section Stable_steps.
Context {R : World → World → Prop} `{!Stable R}.

Lemma stable_ret {A} (a : A) : steps R (mret a).
Proof. intros w r w' [= _ <-]. apply stable_refl. Qed.

Lemma stable_get_world : steps R get_world.
Proof. intros w r w' [= _ <-]. apply stable_refl. Qed.

Lemma stable_lift {A} (x : Result A) : steps R (lift x).
Proof. intros w r w' [= _ <-]. apply stable_refl. Qed.

Lemma stable_throw {A} e : steps R (@throw A e).
Proof. intros w r w' [= _ <-]. apply stable_refl. Qed.

Lemma stable_console_error msg e : steps R (console_error msg e).
Proof. intros w r w' [= _ <-]. apply stable_console. Qed.

Lemma stable_invoke c : steps R (invoke c).
Proof. intros w r w'. rewrite run_invoke. intros [= _ <-]. apply stable_call. Qed.

Lemma stable_modify (f : World → World) : (∀ w, R w (f w)) → steps R (modify f).
Proof. intros Hf w r w' [= _ <-]. apply Hf. Qed.

Lemma stable_bind {A B} (m : M A) (f : A → M B) :
  steps R m → (∀ a, steps R (f a)) → steps R (m ≫= f).
Proof.
  intros Hm Hf w r w'. rewrite run_bind.
  destruct (m w) as [[a|e] w1] eqn:E; intros H.
  - eapply stable_trans; [eapply Hm, E | eapply Hf, H].
  - injection H as _ <-. eapply Hm, E.
Qed.

Lemma stable_try_catch {A} (m : M A) h :
  steps R m → (∀ e, steps R (h e)) → steps R (try_catch m h).
Proof.
  intros Hm Hh w r w'. unfold try_catch.
  destruct (m w) as [[a|e] w1] eqn:E; intros H.
  - injection H as _ <-. eapply Hm, E.
  - eapply stable_trans; [eapply Hm, E | eapply Hh, H].
Qed.

Lemma stable_Promise_all2 {A B} (p1 : M A) (p2 : M B) :
  steps R p1 → steps R p2 → steps R (Promise_all2 p1 p2).
Proof.
  intros H1 H2 w r w'. unfold Promise_all2.
  destruct (p1 w) as [r1 w1] eqn:E1. destruct (p2 w1) as [r2 w2] eqn:E2.
  assert (R w w2) by (eapply stable_trans; [eapply H1, E1 | eapply H2, E2]).
  destruct r1, r2; try (intros [= _ <-]; assumption).
  destruct (races w2) as [|[] rs]; intros [= _ <-];
    (eapply stable_trans; [eassumption | apply stable_races]).
Qed.

End Stable_steps.

Create HintDb stable.

Ltac stable_go :=
  repeat first
    [ solve [eauto 2 with stable nocore]
    | lazymatch goal with
      | |- steps _ (mret _) => apply stable_ret
      | |- steps _ (throw _) => apply stable_throw
      | |- steps _ (lift _) => apply stable_lift
      | |- steps _ get_world => apply stable_get_world
      | |- steps _ (console_error _ _) => apply stable_console_error
      | |- steps _ (_ ≫= _) => apply stable_bind; [| intros ?]
      | |- steps _ (try_catch _ _) => apply stable_try_catch; [| intros ?]
      | |- steps _ (Promise_all2 _ _) => apply stable_Promise_all2
      | |- steps _ (invoke _) => apply stable_invoke
      | |- steps _ (modify _) => apply stable_modify; intros ?; solve [auto]
      | |- steps _ (if ?b then _ else _) => destruct b eqn:?
      | |- steps _ (let '(_, _) := ?x in _) => destruct x
      | |- steps _ (let _ := _ in _) => cbv zeta
      end ].

(** What each function of background.js respects: the readers respect
    every stable relation, [updateBadge] those that the badge does not
    matter to, the writers of the session store those that the store does
    not matter to. *)
Section Worker_stable.
Context {R : World → World → Prop} `{!Stable R}.

Lemma stable_getSessionState : steps R getSessionState.
Proof. unfold getSessionState, chrome_storage_session_get. stable_go. Qed.

Lemma stable_getOptions : steps R getOptions.
Proof.
  unfold getOptions, chrome_storage_sync_get_defaultOptions, chrome_storage_sync_get.
  stable_go.
Qed.

Lemma stable_tabQuery options params : steps R (tabQuery options params).
Proof. unfold tabQuery, chrome_tabs_query. stable_go. Qed.
Hint Resolve stable_getSessionState stable_getOptions stable_tabQuery : stable.

Lemma stable_detectTabLimitExceeded options : steps R (detectTabLimitExceeded options).
Proof.
  unfold detectTabLimitExceeded, detectTooManyTabsInWindow, detectTooManyTabsInTotal.
  stable_go.
Qed.

Lemma stable_displayAlert options place : steps R (displayAlert options place).
Proof. unfold displayAlert, chrome_notifications_create. stable_go. Qed.

Lemma stable_updateBadge options :
  (∀ b w, R w (set_badge b w)) → steps R (updateBadge options).
Proof.
  intros Hb.
  unfold updateBadge, windowRemaining, totalRemaining, chrome_action_setBadgeText.
  stable_go.
Qed.

Lemma stable_updateSessionState u :
  (∀ f w, R w (set_session f w)) → steps R (updateSessionState u).
Proof. intros Hs. unfold updateSessionState, chrome_storage_session_set. stable_go. Qed.

Lemma stable_updateTabCount :
  (∀ f w, R w (set_session f w)) → steps R updateTabCount.
Proof.
  intros Hs. pose proof (λ u, stable_updateSessionState u Hs).
  unfold updateTabCount, chrome_tabs_query. stable_go.
Qed.

Lemma stable_handleUpdate :
  (∀ b w, R w (set_badge b w)) → (∀ f w, R w (set_session f w)) → steps R handleUpdate.
Proof.
  intros Hb Hs. pose proof (stable_updateTabCount Hs). pose proof (λ o, stable_updateBadge o Hb).
  unfold handleUpdate. stable_go.
Qed.

End Worker_stable.

#[global] Hint Resolve stable_getSessionState stable_getOptions stable_tabQuery
  stable_detectTabLimitExceeded stable_displayAlert : stable.

#[global] Instance untouched_Stable : Stable untouched.
Proof.
  split; unfold untouched; try done.
  intros w1 w2 w3 (-> & -> & -> & ->) (-> & -> & -> & ->). done.
Qed.

#[global] Instance same_session_Stable : Stable same_session.
Proof. split; unfold same_session; try done. intros w1 w2 w3 H1 H2. by rewrite H2. Qed.

Lemma untouched_handleUpdate : steps untouched handleUpdate.
Proof. by apply stable_handleUpdate. Qed.

Lemma untouched_updateTabCount : steps untouched updateTabCount.
Proof. by apply stable_updateTabCount. Qed.

Lemma untouched_updateBadge options : steps untouched (updateBadge options).
Proof. by apply stable_updateBadge. Qed.

Lemma same_session_updateBadge options : steps same_session (updateBadge options).
Proof. by apply stable_updateBadge. Qed.

Lemma handleUpdate_returns w : ∃ w', handleUpdate w = (Ok tt, w').
Proof.
  unfold handleUpdate, try_catch.
  match goal with |- context [let (_, _) := ?m w in _] => destruct (m w) as [[[]|e] w1] end;
    by eexists.
Qed.

(** X4.  [handleInstalled] returns and never throws.  It never changes the
    option items the user stored nor the pass counter, and nothing it emits
    closes or relocates a tab or displays an alert.  When the browser
    rejects its first call, the write of [defaultOptions], nothing else
    happens: the rejection is reported and neither the counters nor the
    badge are refreshed.  When the browser accepts that call,
    [DEFAULT_OPTIONS] is what is stored under [defaultOptions] afterwards;
    and in a browser that accepts every call, [getOptions] then answers
    [DEFAULT_OPTIONS] with each value replaced by the user's stored item of
    that name, where there is one. *)
Theorem handleInstalled_keeps_user_options (details : JSVal) (w : World) :
  ∃ w',
    handleInstalled details w = (Ok tt, w') ∧
    sync_items w' = sync_items w ∧
    extends bookkeeping w w' ∧
    session w' !! "passes" = session w !! "passes" ∧
    (hd false (faults w) = true →
     w' = emit (ConsoleError "Failed to handle install:"
                  (Rejected (StorageSyncSetDefaultOptions DEFAULT_OPTIONS)))
               (after_call (StorageSyncSetDefaultOptions DEFAULT_OPTIONS) w)) ∧
    (hd false (faults w) = false → sync_defaultOptions w' = Some DEFAULT_OPTIONS) ∧
    (faults w = [] →
     ∃ options w'',
       getOptions w' = (Ok options, w'') ∧
       ∀ k, options !! k =
            d ← DEFAULT_OPTIONS !! k; Some (default d (sync_items w !! k))).
Proof.
  destruct (handleInstalled details w) as [r w'] eqn:Hrun.
  pose proof (steps_handleInstalled (R := same_items) _ _ _ _ Hrun) as Hitems.
  pose proof (steps_handleInstalled (R := extends bookkeeping) _ _ _ _ Hrun) as Hbook.
  pose proof (steps_handleInstalled (R := same_passes) _ _ _ _ Hrun) as Hpasses.
  pose proof (steps_handleInstalled (R := all_accepted) _ _ _ _ Hrun) as Hcalm.
  revert Hrun. unfold handleInstalled, try_catch, chrome_storage_sync_set_defaultOptions.
  rewrite !run_bind, run_invoke.
  destruct (hd false (faults w)) eqn:Hw.
  - intros [= <- <-]. eexists. split; [reflexivity|]. repeat split; try done.
    intros Hf. by rewrite Hf in Hw.
  - cbn [modify]. 
    set (w1 := set_sync_defaultOptions _ _).
    destruct (handleUpdate_returns w1) as [w2 H2]. rewrite H2.
    intros [= <- <-]. exists w2. split; [reflexivity|]. 
    pose proof (untouched_handleUpdate _ _ _ H2) as (_ & _ & Hd & Hi).
    repeat split; try done.
    intros Hf. specialize (Hcalm Hf).
    pose proof (run_getOptions w2) as Hg. cbv zeta in Hg.
    rewrite Hcalm, Hd, Hi in Hg. simpl in Hg.
    eexists _, _. split; [exact Hg|]. intros k. rewrite map_lookup_imap.
    by destruct (DEFAULT_OPTIONS !! k).
Qed.

(** * Counting tabs *)

Lemma run_tabQuery options params w :
  tabQuery options params w =
  (if hd false (faults w) then Throw (Rejected (TabsQuery (query_sent options params)))
   else Ok (List.filter (query_matches (currentWindow w) (query_sent options params)) (tabs w)),
   after_call (TabsQuery (query_sent options params)) w).
Proof.
  unfold tabQuery, query_sent. cbv zeta. rewrite run_chrome_tabs_query.
  by destruct (ToBoolean (prop options "countPinnedTabs")).
Qed.

Lemma window_query options cw ts :
  List.filter (query_matches cw (query_sent options (mkQuery (Some true) None))) ts =
  List.filter (λ t, (windowId t =? cw) && countable options t) ts.
Proof.
  apply filter_ext. intros t. unfold query_matches, query_sent, countable.
  destruct (ToBoolean (prop options "countPinnedTabs")); simpl;
    destruct (windowId t =? cw), (pinned t); reflexivity.
Qed.

Lemma total_query options cw ts :
  List.filter (query_matches cw (query_sent options (mkQuery None None))) ts =
  List.filter (countable options) ts.
Proof.
  apply filter_ext. intros t. unfold query_matches, query_sent, countable.
  destruct (ToBoolean (prop options "countPinnedTabs")); simpl;
    destruct (pinned t); reflexivity.
Qed.

Lemma query_matches_true cw q t :
  query_matches cw q t = true ↔
  (∀ b, q_currentWindow q = Some b → (windowId t =? cw) = b) ∧
  (∀ b, q_pinned q = Some b → pinned t = b).
Proof.
  unfold query_matches. rewrite andb_true_iff.
  destruct (q_currentWindow q) as [b1|], (q_pinned q) as [b2|];
    rewrite ?eqb_true_iff; split.
  all: try (intros [H1 H2]; split; intros b Hb; try injection Hb as <-; done).
  all: intros [H1 H2]; split; try done; auto.
Qed.

(** X5.  [tabQuery] makes exactly one call, [chrome.tabs.query], on the
    caller's [params] with [pinned: false] set unless [countPinnedTabs] is
    truthy, and it does not catch: a rejected call is thrown on.  When the
    browser answers, the tabs returned are exactly the open tabs that
    [params] selects by window and that are not pinned; only when the
    options count pinned tabs does the [pinned] of [params] decide.  For
    the two queries the worker makes these are [window_tabs] and
    [total_tabs]. *)
Theorem tabQuery_leaves_out_pinned_tabs (options : Options) (params : QueryInfo) (w : World) :
  ∃ r w',
    tabQuery options params w = (r, w') ∧
    trace w' = trace w ++ [Called (TabsQuery (query_sent options params))] ∧
    (hd false (faults w) = true →
     r = Throw (Rejected (TabsQuery (query_sent options params)))) ∧
    (hd false (faults w) = false →
     ∃ ts, r = Ok ts ∧
       (∀ t, t ∈ ts ↔
             t ∈ tabs w ∧
             (∀ b, q_currentWindow params = Some b → (windowId t =? currentWindow w) = b) ∧
             (if ToBoolean (prop options "countPinnedTabs")
              then ∀ b, q_pinned params = Some b → pinned t = b
              else pinned t = false)) ∧
       (params = mkQuery (Some true) None → ts = window_tabs options w) ∧
       (params = mkQuery None None → ts = total_tabs options w)).
Proof.
  rewrite run_tabQuery. eexists _, _. split; [reflexivity|]. split; [done|].
  destruct (hd false (faults w)); (split; [done|]); [done|]. intros _.
  eexists. split; [reflexivity|]. split; [|split].
  - intros t. rewrite list_elem_of_In, filter_In, <- list_elem_of_In, query_matches_true.
    unfold query_sent.
    destruct (ToBoolean (prop options "countPinnedTabs")); cbn [q_currentWindow q_pinned];
      [tauto|].
    split; intros (Ht & Hc & Hp); repeat split; try done.
    + by apply Hp.
    + by intros b [= <-].
  - intros ->. apply window_query.
  - intros ->. apply total_query.
Qed.

(** * The badge *)

Lemma run_windowRemaining options w :
  windowRemaining options w =
  (if hd false (faults w)
   then Throw (Rejected (TabsQuery (query_sent options (mkQuery (Some true) None))))
   else Ok (Num.sub (ToNumber (prop options "maxWindow"))
                    (Fin (Z.of_nat (List.length (window_tabs options w))))),
   after_call (TabsQuery (query_sent options (mkQuery (Some true) None))) w).
Proof.
  unfold windowRemaining. rewrite run_bind, run_tabQuery.
  destruct (hd false (faults w)); [reflexivity|]. by rewrite window_query.
Qed.

Lemma run_totalRemaining options w :
  totalRemaining options w =
  (if hd false (faults w)
   then Throw (Rejected (TabsQuery (query_sent options (mkQuery None None))))
   else Ok (Num.sub (ToNumber (prop options "maxTotal"))
                    (Fin (Z.of_nat (List.length (total_tabs options w))))),
   after_call (TabsQuery (query_sent options (mkQuery None None))) w).
Proof.
  unfold totalRemaining. rewrite run_bind, run_tabQuery.
  destruct (hd false (faults w)); [reflexivity|]. by rewrite total_query.
Qed.

Lemma calm_3 w :
  calm 3 w ↔ hd false (faults w) = false ∧ hd false (tail (faults w)) = false ∧
             hd false (tail (tail (faults w))) = false.
Proof.
  unfold calm. destruct (faults w) as [|[] [|[] [|[] fs]]]; simpl; intuition congruence.
Qed.

Lemma calm_1 w : calm 1 w ↔ hd false (faults w) = false.
Proof. unfold calm. destruct (faults w) as [|[] fs]; simpl; intuition congruence. Qed.

Lemma run_updateBadge options w :
  calm 3 w →
  ∃ w',
    updateBadge options w = (Ok tt, w') ∧
    badge w' =
      (if ToBoolean (prop options "displayBadge")
       then Num.toString
              (Num.min
                 (Num.sub (ToNumber (prop options "maxWindow"))
                          (Fin (Z.of_nat (List.length (window_tabs options w)))))
                 (Num.sub (ToNumber (prop options "maxTotal"))
                          (Fin (Z.of_nat (List.length (total_tabs options w))))))
       else "") ∧
    (ToBoolean (prop options "displayBadge") = false →
     trace w' = trace w ++ [Called (ActionSetBadgeText "")]).
Proof.
  rewrite calm_3. intros (H1 & H2 & H3).
  unfold updateBadge, try_catch, chrome_action_setBadgeText.
  destruct (ToBoolean (prop options "displayBadge")); cbn [negb].
  - rewrite run_bind. unfold Promise_all2.
    rewrite run_windowRemaining, run_totalRemaining, H1. wsimpl. rewrite H2.
    rewrite run_bind, run_invoke. wsimpl. rewrite H3.
    eexists. split; [reflexivity|]. split; [|done]. by wsimpl.
  - rewrite run_bind, run_invoke, H1.
    eexists. split; [reflexivity|]. by wsimpl.
Qed.


Ltac by_trace :=
  unfold extends; wsimpl; rewrite <- ?app_assoc;
  eexists; split; [reflexivity | repeat constructor].

(** X7.  Whatever the world: [updateBadge] returns and never throws; it
    leaves the tabs, the focus, the sync store and the session store as they
    are, and all it emits are tab queries, the call that sets the badge text
    and console reports.  When the browser rejects one of its calls (three
    when [displayBadge] is truthy, one otherwise), the badge text stays
    what it was and the rejection is the last thing reported on the
    console. *)
Theorem updateBadge_failure_keeps_badge (options : Options) (w : World) :
  ∃ w',
    updateBadge options w = (Ok tt, w') ∧
    untouched w w' ∧
    session w' = session w ∧
    extends badge_event w w' ∧
    (¬ calm (if ToBoolean (prop options "displayBadge") then 3 else 1) w →
     badge w' = badge w ∧
     ∃ c, last (trace w') = Some (ConsoleError "Failed to update badge:" (Rejected c))).
Proof.
  assert (Hun : ∀ r w', updateBadge options w = (r, w') → untouched w w')
    by (intros; by eapply untouched_updateBadge).
  revert Hun.
  unfold updateBadge, try_catch, chrome_action_setBadgeText.
  destruct (ToBoolean (prop options "displayBadge")); cbn [negb].
  - rewrite run_bind. unfold Promise_all2.
    rewrite run_windowRemaining, run_totalRemaining. wsimpl.
    destruct (hd false (faults w)) eqn:H1, (hd false (tail (faults w))) eqn:H2.
    + destruct (races _) as [|[] rs]; intros Hun;
        (eexists; split; [reflexivity|]); (split; [by eapply Hun|]); (split; [done|]); wsimpl;
        (split; [by_trace|]);
        intros _; (split; [done|]); eexists; by rewrite last_snoc.
    + intros Hun.
      (eexists; split; [reflexivity|]); (split; [by eapply Hun|]); (split; [done|]); wsimpl;
        (split; [by_trace|]);
        intros _; (split; [done|]); eexists; by rewrite last_snoc.
    + intros Hun.
      (eexists; split; [reflexivity|]); (split; [by eapply Hun|]); (split; [done|]); wsimpl;
        (split; [by_trace|]);
        intros _; (split; [done|]); eexists; by rewrite last_snoc.
    + rewrite run_bind, run_invoke. wsimpl.
      destruct (hd false (tail (tail (faults w)))) eqn:H3; intros Hun;
        (eexists; split; [reflexivity|]); (split; [by eapply Hun|]); (split; [done|]); wsimpl.
      * split; [by_trace|].
        intros _; (split; [done|]); eexists; by rewrite last_snoc.
      * split; [by_trace|].
        intros Hn. destruct Hn. by apply calm_3.
  - rewrite run_bind, run_invoke.
    destruct (hd false (faults w)) eqn:H1; intros Hun;
      (eexists; split; [reflexivity|]); (split; [by eapply Hun|]); (split; [done|]); wsimpl.
    + split; [by_trace|].
      intros _; (split; [done|]); eexists; by rewrite last_snoc.
    + split; [by_trace|].
      intros Hn. destruct Hn. by apply calm_1.
Qed.

(** * The detector on the tabs that count *)

Lemma run_window_check options w :
  detectTooManyTabsInWindow options w =
  (if hd false (faults w)
   then Throw (Rejected (TabsQuery (query_sent options (mkQuery (Some true) None))))
   else Ok (if Num.lt (ToNumber (prop options "maxWindow")) (Fin 1) then VNull
            else if Num.gt (Fin (Z.of_nat (List.length (window_tabs options w))))
                           (ToNumber (prop options "maxWindow"))
                 then VStr "window" else VNull),
   after_call (TabsQuery (query_sent options (mkQuery (Some true) None))) w).
Proof.
  unfold detectTooManyTabsInWindow. rewrite run_bind, run_tabQuery.
  destruct (hd false (faults w)); [reflexivity|].
  rewrite window_query. fold (window_tabs options w). by repeat case_match.
Qed.

Lemma run_total_check options w :
  detectTooManyTabsInTotal options w =
  (if hd false (faults w)
   then Throw (Rejected (TabsQuery (query_sent options (mkQuery None None))))
   else Ok (if Num.lt (ToNumber (prop options "maxTotal")) (Fin 1) then VNull
            else if Num.gt (Fin (Z.of_nat (List.length (total_tabs options w))))
                           (ToNumber (prop options "maxTotal"))
                 then VStr "total" else VNull),
   after_call (TabsQuery (query_sent options (mkQuery None None))) w).
Proof.
  unfold detectTooManyTabsInTotal. rewrite run_bind, run_tabQuery.
  destruct (hd false (faults w)); [reflexivity|].
  rewrite total_query. fold (total_tabs options w). by repeat case_match.
Qed.

Lemma run_detectTabLimitExceeded options w :
  hd false (faults w) = false →
  hd false (tail (faults w)) = false →
  detectTabLimitExceeded options w =
  (Ok (js_or
         (if Num.lt (ToNumber (prop options "maxWindow")) (Fin 1) then VNull
          else if Num.gt (Fin (Z.of_nat (List.length (window_tabs options w))))
                         (ToNumber (prop options "maxWindow"))
               then VStr "window" else VNull)
         (if Num.lt (ToNumber (prop options "maxTotal")) (Fin 1) then VNull
          else if Num.gt (Fin (Z.of_nat (List.length (total_tabs options w))))
                         (ToNumber (prop options "maxTotal"))
               then VStr "total" else VNull)),
   after_call (TabsQuery (query_sent options (mkQuery None None)))
     (after_call (TabsQuery (query_sent options (mkQuery (Some true) None))) w)).
Proof.
  intros H1 H2. unfold detectTabLimitExceeded. rewrite run_bind. unfold Promise_all2.
  rewrite run_window_check, run_total_check, H1. wsimpl. by rewrite H2.
Qed.


(** X9.  The detector and the badge agree.  In a browser that accepts every
    call, with the badge on and both limits numbers: whenever
    [detectTabLimitExceeded] reports a scope, [updateBadge] on the same tabs
    shows a negative numeral. *)
Theorem exceeded_limit_shows_negative_badge
    (options : Options) (w w1 : World) (place : JSVal) (mw mt : Z) :
  faults w = [] →
  detectTabLimitExceeded options w = (Ok place, w1) →
  ToBoolean place = true →
  ToBoolean (prop options "displayBadge") = true →
  ToNumber (prop options "maxWindow") = Fin mw →
  ToNumber (prop options "maxTotal") = Fin mt →
  ∃ w2 left, updateBadge options w1 = (Ok tt, w2) ∧ badge w2 = pretty left ∧ left < 0.
Proof.
  intros Hcalm Hdetect Hplace Hon Hmw Hmt.
  rewrite run_detectTabLimitExceeded in Hdetect by (by rewrite Hcalm).
  injection Hdetect as <- <-.
  destruct (run_updateBadge options
              (after_call (TabsQuery (query_sent options (mkQuery None None)))
                 (after_call (TabsQuery (query_sent options (mkQuery (Some true) None))) w)))
    as (w2 & Hrun & Hbadge & _).
  { unfold calm. wsimpl. by rewrite Hcalm. }
  exists w2, (Z.min (mw - Z.of_nat (List.length (window_tabs options w)))
                    (mt - Z.of_nat (List.length (total_tabs options w)))).
  split; [exact Hrun|]. split.
  - rewrite Hbadge, Hon, Hmw, Hmt. reflexivity.
  - revert Hplace. rewrite Hmw, Hmt. unfold js_or, Num.lt, Num.gt.
    set (nw := Z.of_nat (List.length (window_tabs options w))).
    set (nt := Z.of_nat (List.length (total_tabs options w))).
    simpl.
    destruct (Z.ltb_spec mw 1), (Z.ltb_spec mw nw), (Z.ltb_spec mt 1), (Z.ltb_spec mt nt);
      simpl; try done; lia.
Qed.

(** * The listeners *)

#[global] Instance same_tabs_Stable : Stable same_tabs.
Proof.
  split; unfold same_tabs; try done.
  intros w1 w2 w3 (-> & ->) (-> & ->). done.
Qed.

Lemma stable_handleInstalled {R} `{!Stable R} details :
  (∀ b w, R w (set_badge b w)) →
  (∀ f w, R w (set_session f w)) →
  (∀ o w, R w (set_sync_defaultOptions o w)) →
  steps R (handleInstalled details).
Proof.
  intros Hb Hs Ho. pose proof (stable_handleUpdate Hb Hs).
  unfold handleInstalled, chrome_storage_sync_set_defaultOptions. stable_go.
Qed.

Lemma handleInstalled_returns details w : ∃ w', handleInstalled details w = (Ok tt, w').
Proof.
  unfold handleInstalled, try_catch.
  match goal with |- context [let (_, _) := ?m w in _] => destruct (m w) as [[[]|e] w1] end;
    by eexists.
Qed.

Lemma handleTabCreated_returns tab w : ∃ w', handleTabCreated tab w = (Ok tt, w').
Proof.
  unfold handleTabCreated, try_catch.
  match goal with |- context [let (_, _) := ?m w in _] => destruct (m w) as [[[]|e] w1] end;
    by eexists.
Qed.

Lemma listener_returns ev w : ∃ w', listener ev w = (Ok tt, w').
Proof.
  destruct ev; simpl; try apply handleUpdate_returns.
  - apply handleTabCreated_returns.
  - apply handleInstalled_returns.
  - unfold try_catch. destruct (handleUpdate_returns w) as [w' ->]. by eexists.
Qed.

(** X10.  Only creation events enforce.  The listener of every other event
    (a tab removed or updated, a change of focus, the installation, the
    start of the worker) returns, and whatever the browser rejects it emits
    only bookkeeping: no tab is closed or relocated, no alert is displayed,
    no pass counter is written.  The stored pass counter, the tabs, the
    focus and the user's stored option items are the same afterwards. *)
Theorem only_creation_events_enforce (ev : BrowserEvent) (w : World) :
  (∀ tab, ev ≠ tabs_onCreated tab) →
  ∃ w',
    listener ev w = (Ok tt, w') ∧
    extends bookkeeping w w' ∧
    session w' !! "passes" = session w !! "passes" ∧
    tabs w' = tabs w ∧ currentWindow w' = currentWindow w ∧
    sync_items w' = sync_items w.
Proof.
  intros Hev. destruct (listener_returns ev w) as [w' Hrun]. exists w'.
  split; [exact Hrun|].
  destruct ev as [tab| | | |details|]; simpl in Hrun.
  - by destruct (Hev tab).
  - split; [eapply steps_handleUpdate, Hrun|].
    split; [eapply (steps_handleUpdate (R := same_passes)), Hrun|].
    by destruct (untouched_handleUpdate _ _ _ Hrun) as (? & ? & _ & ?).
  - split; [eapply steps_handleUpdate, Hrun|].
    split; [eapply (steps_handleUpdate (R := same_passes)), Hrun|].
    by destruct (untouched_handleUpdate _ _ _ Hrun) as (? & ? & _ & ?).
  - split; [eapply steps_handleUpdate, Hrun|].
    split; [eapply (steps_handleUpdate (R := same_passes)), Hrun|].
    by destruct (untouched_handleUpdate _ _ _ Hrun) as (? & ? & _ & ?).
  - split; [eapply steps_handleInstalled, Hrun|].
    split; [eapply (steps_handleInstalled (R := same_passes)), Hrun|].
    destruct (stable_handleInstalled (R := same_tabs) details
                ltac:(done) ltac:(done) ltac:(done) _ _ _ Hrun) as [? ?].
    split; [done|]. split; [done|].
    eapply (steps_handleInstalled (R := same_items)), Hrun.
  - unfold try_catch in Hrun. destruct (handleUpdate_returns w) as [w1 H1].
    rewrite H1 in Hrun. injection Hrun as <-.
    split; [eapply steps_handleUpdate, H1|].
    split; [eapply (steps_handleUpdate (R := same_passes)), H1|].
    by destruct (untouched_handleUpdate _ _ _ H1) as (? & ? & _ & ?).
Qed.

(** X11.  No listener rejects: whatever the event, the options, the tabs and
    the calls the browser rejects, the listener returns normally (every
    error ends in a [catch] of the worker), and it leaves the option items
    the user stored as they are. *)
Theorem no_listener_rejects (ev : BrowserEvent) (w : World) :
  ∃ w', listener ev w = (Ok tt, w') ∧ sync_items w' = sync_items w.
Proof.
  destruct (listener_returns ev w) as [w' Hrun]. exists w'. split; [exact Hrun|].
  eapply (steps_listener (R := same_items)); [|exact Hrun]. by left.
Qed.

(** * Creation events *)

(** X12.  A creation event whose detector reports no exceeded scope, or
    fails, is bookkeeping: the handler returns; nothing it emits closes or
    relocates a tab, displays an alert or writes a pass counter, so a pass
    in store is not used up; the tabs, the focus and the sync store are the
    same afterwards.  After a detector that answered, the handler is
    [handleUpdate]; after one that threw, it only reports the error, and
    neither the counters nor the badge are refreshed. *)
Theorem creation_within_limits_is_bookkeeping
    (tab : Tab) (w w1 w2 : World) (options : Options) (r : Result JSVal) :
  getOptions w = (Ok options, w1) →
  detectTabLimitExceeded options w1 = (r, w2) →
  (∀ place, r = Ok place → ToBoolean place = false) →
  ∃ w',
    handleTabCreated tab w = (Ok tt, w') ∧
    extends bookkeeping w w' ∧
    session w' !! "passes" = session w !! "passes" ∧
    untouched w w' ∧
    (∀ place, r = Ok place → handleUpdate w2 = (Ok tt, w')) ∧
    (∀ e, r = Throw e → w' = emit (ConsoleError "Failed to handle tab created:" e) w2).
Proof.
  intros Ho Hp Hunder.
  assert (Hpre : ∀ R allowed, Frame allowed R → R w w2).
  { intros R allowed HF. eapply frame_trans; [eapply steps_getOptions, Ho|].
    eapply steps_detectTabLimitExceeded, Hp. }
  assert (Hun : untouched w w2).
  { eapply stable_trans; [eapply stable_getOptions, Ho|].
    eapply stable_detectTabLimitExceeded, Hp. }
  unfold handleTabCreated, try_catch. rewrite run_bind, Ho, run_bind, Hp.
  destruct r as [place|e].
  - rewrite (Hunder place eq_refl). cbn [negb].
    destruct (handleUpdate_returns w2) as [w' Hup]. rewrite Hup.
    exists w'. split; [done|].
    split; [eapply frame_trans; [by eapply Hpre, bookkeeping_Frame | eapply steps_handleUpdate, Hup]|].
    split; [eapply (frame_trans (R := same_passes));
              [by eapply Hpre, same_passes_Frame | eapply steps_handleUpdate, Hup]|].
    split; [eapply stable_trans; [exact Hun | eapply untouched_handleUpdate, Hup]|].
    split; [done|]. by intros e [=].
  - eexists. split; [reflexivity|].
    split; [eapply frame_trans; [by eapply Hpre, bookkeeping_Frame | apply frame_console]|].
    split; [eapply (frame_trans (R := same_passes));
              [by eapply Hpre, same_passes_Frame | apply frame_console]|].
    split; [eapply stable_trans; [exact Hun | apply stable_console]|].
    split; [by intros place [=]|]. by intros e' [= <-].
Qed.

(** What [handleExceedTabs] emits: its one call, and the report of its rejection. *)
Lemma handleExceedTabs_trace tab options place w :
  ∃ w' log,
    handleExceedTabs tab options place w = (Ok tt, w') ∧
    trace w' =
      trace w ++
      Called (if ToBoolean (prop options "exceedTabNewWindow") && strict_eq_string place "window"
              then WindowsCreate (id tab) true else TabsRemove (id tab)) :: log ∧
    Forall bookkeeping log.
Proof.
  unfold handleExceedTabs, try_catch.
  destruct (ToBoolean (prop options "exceedTabNewWindow") && strict_eq_string place "window").
  - unfold chrome_windows_create. rewrite !run_bind, run_invoke.
    destruct (hd false (faults w)).
    + eexists _, [_]. split; [reflexivity|]. wsimpl. rewrite <- ?app_assoc.
      split; [reflexivity|]. by repeat constructor.
    + rewrite run_get_world. cbn [tabs after_call set_faults emit].
      destruct (has_tab (id tab) (tabs w)).
      * eexists _, []. split; [reflexivity|]. by wsimpl.
      * eexists _, [_]. split; [reflexivity|]. wsimpl. rewrite <- ?app_assoc.
        split; [reflexivity|]. by repeat constructor.
  - unfold chrome_tabs_remove. rewrite !run_bind, run_invoke.
    destruct (hd false (faults w)).
    + eexists _, [_]. split; [reflexivity|]. wsimpl. rewrite <- ?app_assoc.
      split; [reflexivity|]. by repeat constructor.
    + rewrite run_get_world. cbn [tabs after_call set_faults emit].
      destruct (has_tab (id tab) (tabs w)).
      * eexists _, []. split; [reflexivity|]. by wsimpl.
      * eexists _, [_]. split; [reflexivity|]. wsimpl. rewrite <- ?app_assoc.
        split; [reflexivity|]. by repeat constructor.
Qed.

(** X13.  Take any creation event in which the detector reports an exceeded
    scope, the state the handler reads has no pass, [updateTabCount] returns
    [1] or [-1] and the alert template is a string.  Then the handler
    returns and asks the browser exactly once to close or relocate a tab,
    the created one: [chrome.windows.create({ tabId, focused: true })] when
    the scope is ["window"] and [exceedTabNewWindow] is truthy,
    [chrome.tabs.remove(tabId)] otherwise.  Before that call it writes no
    pass counter and, when [displayAlert] is truthy, displays an alert;
    after it comes bookkeeping only. *)
Theorem single_creation_is_enforced
    (tab : Tab) (w w1 w2 w3 w4 : World) (options : Options) (place : JSVal)
    (delta : Z) (state : State) :
  getOptions w = (Ok options, w1) →
  detectTabLimitExceeded options w1 = (Ok place, w2) →
  ToBoolean place = true →
  updateTabCount w2 = (Ok delta, w3) →
  getSessionState w3 = (Ok state, w4) →
  passes state ≤ 0 →
  delta = 1 ∨ delta = -1 →
  well_typed options →
  ∃ w' before after,
    handleTabCreated tab w = (Ok tt, w') ∧
    trace w' =
      trace w ++ before ++
      Called (if ToBoolean (prop options "exceedTabNewWindow") && strict_eq_string place "window"
              then WindowsCreate (id tab) true else TabsRemove (id tab)) :: after ∧
    Forall harmless before ∧ Forall bookkeeping after ∧
    (ToBoolean (prop options "displayAlert") = true →
     Exists (λ e, alert e = true) before).
Proof.
  intros Ho Hp Ht Hd Hs Hzero Hdelta Htyped.
  destruct (displayAlert_returns options place w4 Htyped) as (v & w5 & Ha).
  { eapply detectTabLimitExceeded_result; eassumption. }
  rewrite (run_handleTabCreated_no_pass _ _ _ _ _ _ _ _ _ _ _ _ Ho Hp Ht Hd Hs Hzero Ha).
  destruct (prefix_frames (R := extends harmless) _ _ _ _ _ _ _ _ _ Ho Hp Hd Hs)
    as (pre & Hpre & Fpre).
  assert (Halert : ∃ shown, trace w5 = trace w4 ++ shown ∧ Forall harmless shown ∧
            (ToBoolean (prop options "displayAlert") = true →
             Exists (λ e, alert e = true) shown)).
  { revert Ha. unfold displayAlert.
    destruct (ToBoolean (prop options "displayAlert")); cbn [negb].
    - rewrite run_bind. unfold lift.
      destruct (renderedMessage options place) as [message|e]; [|done].
      rewrite run_bind. unfold try_catch, chrome_notifications_create. rewrite run_invoke.
      destruct (hd false (faults w4)); intros [= _ <-]; wsimpl; rewrite <- ?app_assoc;
        (eexists; split; [reflexivity|]); (split; [by repeat constructor|]);
        intros _; by constructor.
    - intros [= _ <-]. exists []. by rewrite app_nil_r. }
  destruct Halert as (shown & Hshown & Fshown & Eshown).
  assert (Hbranch : after_alert tab options place delta w5 =
                    try_catch (handleExceedTabs tab options place;; handleUpdate)
                      (λ error, console_error "Failed to handle tab created:" error) w5).
  { unfold after_alert. destruct Hdelta as [-> | ->]; reflexivity. }
  rewrite Hbranch. unfold try_catch. rewrite run_bind.
  destruct (handleExceedTabs_trace tab options place w5) as (w6 & log & Hex & Hlog & Flog).
  rewrite Hex. destruct (handleUpdate_returns w6) as [w' Hup]. rewrite Hup.
  destruct (steps_handleUpdate (R := extends bookkeeping) _ _ _ Hup) as (post & Hpost & Fpost).
  exists w', (pre ++ shown), (log ++ post). split; [done|].
  split; [rewrite Hpost, Hlog, Hshown, Hpre, <- !app_assoc; reflexivity|].
  split; [by apply Forall_app|]. split; [by apply Forall_app|].
  intros Hon. apply Exists_app. right. by apply Eshown.
Qed.

(** X14.  [displayAlert] leaves the tabs, the sync store, the session store
    and the badge as they are.  When [displayAlert] of the options is falsy
    it returns [false] and does nothing.  Otherwise, when the template
    cannot be rendered it throws before any call on the browser; and when
    the template renders to [message] it returns [undefined] after exactly
    one [chrome.notifications.create], of a basic notification with the
    title ["Tab Limiter"], the icon [icons/48.png] and that message, whose
    rejection it reports on the console and does not throw on. *)
Theorem displayAlert_notifies_once (options : Options) (place : JSVal) (w : World) :
  ∃ r w',
    displayAlert options place w = (r, w') ∧
    untouched w w' ∧ session w' = session w ∧ badge w' = badge w ∧
    (ToBoolean (prop options "displayAlert") = false → r = Ok (VBool false) ∧ w' = w) ∧
    (ToBoolean (prop options "displayAlert") = true →
     (∀ e, renderedMessage options place = Throw e → r = Throw e ∧ w' = w) ∧
     (∀ message, renderedMessage options place = Ok message →
        let n := {| n_type := "basic"; n_iconUrl := "icons/48.png";
                    n_title := "Tab Limiter"; n_message := message |} in
        r = Ok VUndefined ∧
        trace w' =
          trace w ++ Called (NotificationsCreate n) ::
          (if hd false (faults w)
           then [ConsoleError "Failed to display notification:"
                   (Rejected (NotificationsCreate n))]
           else []))).
Proof.
  destruct (displayAlert options place w) as [r w'] eqn:Hrun. exists r, w'.
  split; [done|].
  split; [eapply stable_displayAlert, Hrun|].
  split; [eapply (stable_displayAlert (R := same_session)), Hrun|].
  revert Hrun. unfold displayAlert.
  destruct (ToBoolean (prop options "displayAlert")); cbn [negb].
  - rewrite run_bind. unfold lift.
    destruct (renderedMessage options place) as [message|e].
    + rewrite run_bind. unfold try_catch, chrome_notifications_create. rewrite run_invoke.
      destruct (hd false (faults w)); intros [= <- <-]; wsimpl;
        (split; [done|]); (split; [done|]); intros _; (split; [done|]);
        intros ? [= <-]; cbv zeta; by rewrite <- ?app_assoc.
    + intros [= <- <-]. split; [done|]. split; [done|]. intros _.
      split; [by intros ? [= <-] | done].
  - intros [= <- <-]. done.
Qed.

(** X15.  A stored alert template that is not a string switches the
    enforcement off.  Take any creation event in which the detector reports
    an exceeded scope, the state the handler reads has no pass,
    [displayAlert] is truthy and [alertMessage] is no string.  Then
    [displayAlert] throws a [TypeError] before any call, the handler reports
    it on the console and returns, and everything the handler has emitted
    is bookkeeping: no tab is closed or relocated, no alert is displayed
    and no pass is granted, whatever the delta. *)
Theorem broken_template_disables_enforcement
    (tab : Tab) (w w1 w2 w3 w4 : World) (options : Options) (place : JSVal)
    (delta : Z) (state : State) :
  getOptions w = (Ok options, w1) →
  detectTabLimitExceeded options w1 = (Ok place, w2) →
  ToBoolean place = true →
  updateTabCount w2 = (Ok delta, w3) →
  getSessionState w3 = (Ok state, w4) →
  passes state ≤ 0 →
  ToBoolean (prop options "displayAlert") = true →
  (∀ template, prop options "alertMessage" ≠ VStr template) →
  ∃ msg w',
    displayAlert options place w4 = (Throw (TypeError msg), w4) ∧
    handleTabCreated tab w = (Ok tt, w') ∧
    w' = emit (ConsoleError "Failed to handle tab created:" (TypeError msg)) w4 ∧
    extends bookkeeping w w'.
Proof.
  intros Ho Hp Ht Hd Hs Hzero Hon Hbroken.
  assert (Ha : ∃ msg, displayAlert options place w4 = (Throw (TypeError msg), w4)).
  { unfold displayAlert. rewrite Hon. cbn [negb]. rewrite run_bind.
    unfold lift, renderedMessage, String_replace.
    destruct (prop options "alertMessage") as [| | | |template|] eqn:E;
      try (eexists; reflexivity).
    by destruct (Hbroken template). }
  destruct Ha as [msg Ha].
  eexists _, _. split; [exact Ha|].
  rewrite (run_handleTabCreated_no_pass _ _ _ _ _ _ _ _ _ _ _ _ Ho Hp Ht Hd Hs Hzero Ha).
  split; [reflexivity|]. split; [reflexivity|].
  eapply frame_trans; [eapply prefix_frames; eassumption | apply frame_console].
Qed.

(** * The tab counter, again *)

Lemma run_updateTabCount w :
  calm 3 w →
  let state := stored_state w in
  let count := Z.of_nat (List.length (tabs w)) in
  let delta := if tabCount state =? -1 then 0 else count - tabCount state in
  let w2 := after_call StorageSessionGet (after_call (TabsQuery (mkQuery None None)) w) in
  let updates : gmap string Z :=
    {[ "previousTabCount" := tabCount state; "tabCount" := count;
       "amountOfTabsCreated" := delta ]} in
  updateTabCount w =
  if count =? tabCount state then (Ok (amountOfTabsCreated state), w2)
  else (Ok delta,
        set_session (λ store, updates ∪ store) (after_call (StorageSessionSet updates) w2)).
Proof.
  rewrite calm_3. intros (H1 & H2 & H3). cbv zeta.
  unfold updateTabCount, try_catch.
  rewrite run_bind, run_chrome_tabs_query, H1.
  rewrite run_bind, run_getSessionState. wsimpl. rewrite H2.
  rewrite query_everything.
  change (stored_state (after_call (TabsQuery (mkQuery None None)) w)) with (stored_state w).
  destruct (Z.of_nat (List.length (tabs w)) =? tabCount (stored_state w)); [reflexivity|].
  cbv zeta. rewrite run_bind, run_updateSessionState. wsimpl. rewrite H3.
  by destruct (tabCount (stored_state w) =? -1).
Qed.

Lemma calm_all n w : faults w = [] → calm n w.
Proof. unfold calm. intros ->. by destruct n. Qed.

(** X16.  In a browser that accepts every call, after [updateTabCount] the
    stored [tabCount] is the number of all open tabs (pinned tabs included,
    whatever [countPinnedTabs] says), the stored [amountOfTabsCreated] is the
    delta it returned and the stored pass counter is what it was; and a
    second call right after it returns the same delta again and writes
    nothing: the delta stays until the number of tabs changes. *)
Theorem updateTabCount_settles (w : World) :
  faults w = [] →
  ∃ delta w1 w2,
    updateTabCount w = (Ok delta, w1) ∧
    tabCount (stored_state w1) = Z.of_nat (List.length (tabs w)) ∧
    amountOfTabsCreated (stored_state w1) = delta ∧
    passes (stored_state w1) = passes (stored_state w) ∧
    updateTabCount w1 = (Ok delta, w2) ∧
    session w2 = session w1.
Proof.
  intros Hcalm.
  pose proof (run_updateTabCount w (calm_all 3 w Hcalm)) as Hrun. cbv zeta in Hrun.
  destruct (Z.of_nat (List.length (tabs w)) =? tabCount (stored_state w)) eqn:E.
  - apply Z.eqb_eq in E.
    set (w1 := after_call StorageSessionGet (after_call (TabsQuery (mkQuery None None)) w)) in *.
    pose proof (run_updateTabCount w1 (calm_all 3 w1 ltac:(unfold w1; wsimpl; by rewrite Hcalm)))
      as Hrun1. cbv zeta in Hrun1.
    change (stored_state w1) with (stored_state w) in *. change (tabs w1) with (tabs w) in *.
    rewrite <- E, Z.eqb_refl in Hrun1.
    eexists _, _, _. split; [exact Hrun|]. split; [done|]. split; [done|]. split; [done|].
    split; [exact Hrun1|]. done.
  - set (u := ({[ "previousTabCount" := tabCount (stored_state w);
                  "tabCount" := Z.of_nat (List.length (tabs w));
                  "amountOfTabsCreated" :=
                    if tabCount (stored_state w) =? -1 then 0
                    else Z.of_nat (List.length (tabs w)) - tabCount (stored_state w) ]}
               : gmap string Z)) in *.
    set (w1 := set_session _ _) in *.
    assert (Hc1 : tabCount (stored_state w1) = Z.of_nat (List.length (tabs w))).
    { unfold stored_state, read_session, w1, u. wsimpl. cbn [tabCount].
      by rewrite lookup_union_l', !lookup_insert_ne, lookup_insert_eq by
        (by rewrite ?lookup_insert_ne, ?lookup_insert_eq by done). }
    assert (Hfaults : faults w1 = []) by (unfold w1; wsimpl; by rewrite Hcalm).
    pose proof (run_updateTabCount w1 (calm_all 3 w1 Hfaults)) as Hrun1. cbv zeta in Hrun1.
    change (tabs w1) with (tabs w) in Hrun1. rewrite Hc1, Z.eqb_refl in Hrun1.
    assert (Ha1 : amountOfTabsCreated (stored_state w1) =
                  if tabCount (stored_state w) =? -1 then 0
                  else Z.of_nat (List.length (tabs w)) - tabCount (stored_state w)).
    { unfold stored_state at 1, read_session, w1, u. wsimpl. cbn [amountOfTabsCreated].
      erewrite lookup_union_Some_l; [reflexivity|].
      by rewrite !lookup_insert_ne, lookup_singleton_eq by done. }
    rewrite Ha1 in Hrun1.
    eexists _, _, _. split; [exact Hrun|]. split; [exact Hc1|].
    split; [exact Ha1|]. split; [|split; [exact Hrun1 | done]].
    unfold stored_state, read_session, w1, u. wsimpl. cbn [passes].
    by rewrite lookup_union_r.
Qed.

(** After [updateTabCount] in a browser that accepts its calls the stored
    count is the number of open tabs. *)
Lemma updateTabCount_syncs w delta w1 :
  faults w = [] →
  updateTabCount w = (Ok delta, w1) →
  tabCount (stored_state w1) = Z.of_nat (List.length (tabs w)) ∧
  delta = (if Z.of_nat (List.length (tabs w)) =? tabCount (stored_state w)
           then amountOfTabsCreated (stored_state w)
           else if tabCount (stored_state w) =? -1 then 0
                else Z.of_nat (List.length (tabs w)) - tabCount (stored_state w)).
Proof.
  intros Hcalm. rewrite (run_updateTabCount w (calm_all 3 w Hcalm)). cbv zeta.
  destruct (Z.of_nat (List.length (tabs w)) =? tabCount (stored_state w)) eqn:E;
    intros [= <- <-].
  - apply Z.eqb_eq in E. done.
  - split; [|done]. unfold stored_state at 1, read_session. wsimpl. cbn [tabCount].
    erewrite lookup_union_Some_l; [reflexivity|].
    by rewrite lookup_insert_ne, lookup_insert_eq by done.
Qed.

Lemma handleUpdate_syncs w w' :
  faults w = [] →
  handleUpdate w = (Ok tt, w') →
  tabCount (stored_state w') = Z.of_nat (List.length (tabs w')).
Proof.
  intros Hcalm Hrun.
  destruct (untouched_handleUpdate _ _ _ Hrun) as (-> & _).
  revert Hrun. unfold handleUpdate, try_catch. rewrite run_bind.
  destruct (updateTabCount_returns w) as (delta & w1 & Hd). rewrite Hd.
  destruct (updateTabCount_syncs w delta w1 Hcalm Hd) as [Hsync _].
  rewrite run_bind.
  destruct (getOptions w1) as [[options|e] w2] eqn:Ho.
  - destruct (updateBadge options w2) as [[[]|e] w3] eqn:Hb; intros [= <-].
    + pose proof (stable_getOptions (R := same_session) _ _ _ Ho) as H2.
      pose proof (same_session_updateBadge _ _ _ _ Hb) as H3.
      unfold same_session in *. unfold stored_state. by rewrite H3, H2.
    + pose proof (stable_getOptions (R := same_session) _ _ _ Ho) as H2.
      pose proof (same_session_updateBadge _ _ _ _ Hb) as H3.
      unfold same_session in *. unfold stored_state. wsimpl. by rewrite H3, H2.
  - intros [= <-].
    pose proof (stable_getOptions (R := same_session) _ _ _ Ho) as H2.
    unfold same_session in *. unfold stored_state. wsimpl. by rewrite H2.
Qed.

Lemma session_passes_only (p : Z) w :
  tabCount (stored_state (set_session (λ store, {[ "passes" := p ]} ∪ store) w)) =
  tabCount (stored_state w).
Proof.
  unfold stored_state, read_session. wsimpl. cbn [tabCount].
  by rewrite lookup_union_r.
Qed.

(** X17.  In a browser that accepts every call, after the listener of any
    event the stored [tabCount] is the number of tabs that are open then:
    whichever way a creation event goes (under the limit, a pass used, a
    batch, a tab closed or relocated, an alert that could not be rendered),
    the count is brought up to date. *)
Theorem stored_count_follows_the_tabs (ev : BrowserEvent) (w : World) :
  faults w = [] →
  ∃ w',
    listener ev w = (Ok tt, w') ∧
    tabCount (stored_state w') = Z.of_nat (List.length (tabs w')).
Proof.
  intros Hcalm. destruct (listener_returns ev w) as [w' Hrun]. exists w'.
  split; [exact Hrun|].
  destruct ev as [tab| | | |details|]; simpl in Hrun;
    try (by eapply handleUpdate_syncs).
  - (* a creation event *)
    revert Hrun. unfold handleTabCreated, try_catch. rewrite run_bind.
    destruct (getOptions w) as [[options|e] w1] eqn:Ho.
    2: { pose proof (run_getOptions w) as H. cbv zeta in H. rewrite Hcalm in H.
         simpl in H. congruence. }
    assert (H1 : faults w1 = []) by (eapply (steps_getOptions (R := all_accepted)); eauto).
    rewrite run_bind, (run_detectTabLimitExceeded options w1) by (by rewrite H1).
    set (place := js_or _ _). set (w2 := after_call _ (after_call _ w1)).
    assert (H2 : faults w2 = []) by (unfold w2; wsimpl; by rewrite H1).
    destruct (ToBoolean place); cbn [negb].
    2: { destruct (handleUpdate_returns w2) as [w3 H3]. rewrite H3. intros [= <-].
         by eapply handleUpdate_syncs. }
    rewrite run_bind.
    destruct (updateTabCount_returns w2) as (delta & w3 & Hd). rewrite Hd.
    destruct (updateTabCount_syncs w2 delta w3 H2 Hd) as [Hsync _].
    assert (H3 : faults w3 = []) by (eapply (steps_updateTabCount (R := all_accepted)); eauto).
    assert (T3 : tabs w3 = tabs w2) by (by destruct (untouched_updateTabCount _ _ _ Hd)).
    rewrite <- T3 in Hsync.
    rewrite run_bind, run_getSessionState, H3. cbn [hd].
    set (w4 := after_call StorageSessionGet w3).
    change (stored_state w4) with (stored_state w3) in *.
    destruct (passes (stored_state w3) >? 0).
    { rewrite run_updateSessionState. unfold w4. wsimpl. rewrite H3. cbn [hd].
      intros [= <-]. rewrite session_passes_only. exact Hsync. }
    rewrite run_bind.
    destruct (displayAlert options place w4) as [[v|e] w5] eqn:Ha.
    2: { intros [= <-].
         pose proof (stable_displayAlert (R := same_session) _ _ _ _ _ Ha) as S5.
         destruct (stable_displayAlert (R := untouched) _ _ _ _ _ Ha) as (T5 & _).
         unfold same_session in S5. unfold stored_state. wsimpl. rewrite S5, T5. exact Hsync. }
    pose proof (stable_displayAlert (R := same_session) _ _ _ _ _ Ha) as S5.
    destruct (stable_displayAlert (R := untouched) _ _ _ _ _ Ha) as (T5 & _).
    assert (H5 : faults w5 = []).
    { eapply (steps_displayAlert (R := all_accepted)); [done | exact Ha |].
      unfold w4. wsimpl. by rewrite H3. }
    assert (Henforce : ∀ w',
      (handleExceedTabs tab options place;; handleUpdate) w5 = (Ok tt, w') →
      tabCount (stored_state w') = Z.of_nat (List.length (tabs w'))).
    { intros w6. rewrite run_bind.
      destruct (handleExceedTabs tab options place w5) as [[[]|e] w7] eqn:Hx; [|done].
      intros Hup. eapply handleUpdate_syncs; [|exact Hup].
      eapply (steps_handleExceedTabs (R := all_accepted)); [done | done | exact Hx | exact H5]. }
    assert (Hcaught : ∀ r w6 w',
      (handleExceedTabs tab options place;; handleUpdate) w5 = (r, w6) →
      match r with Ok a => (Ok a, w6)
                 | Throw e => console_error "Failed to handle tab created:" e w6 end
        = (Ok tt, w') →
      tabCount (stored_state w') = Z.of_nat (List.length (tabs w'))).
    { intros r w6 w7 Hx. destruct r as [[]|e].
      - intros [= <-]. by apply Henforce.
      - exfalso. revert Hx. rewrite run_bind.
        destruct (handleExceedTabs_trace tab options place w5) as (wx & log & -> & _).
        destruct (handleUpdate_returns wx) as [wy ->]. done. }
    assert (Hsame : tabCount (stored_state w5) = Z.of_nat (List.length (tabs w5))).
    { unfold same_session in S5. unfold stored_state. rewrite S5, T5. exact Hsync. }
    destruct (delta =? 1).
    { destruct ((handleExceedTabs tab options place;; handleUpdate) w5) as [r w6] eqn:Hx.
      by apply Hcaught. }
    destruct (delta >? 1).
    { rewrite run_updateSessionState, H5. cbn [hd]. intros [= <-].
      rewrite session_passes_only. exact Hsame. }
    destruct (delta =? -1).
    { destruct ((handleExceedTabs tab options place;; handleUpdate) w5) as [r w6] eqn:Hx.
      by apply Hcaught. }
    intros [= <-]. exact Hsame.
  - (* install *)
    revert Hrun. unfold handleInstalled, try_catch, chrome_storage_sync_set_defaultOptions.
    rewrite !run_bind, run_invoke, Hcalm. cbn [hd modify].
    set (w1 := set_sync_defaultOptions _ _).
    destruct (handleUpdate_returns w1) as [w2 H2]. rewrite H2. intros [= <-].
    eapply handleUpdate_syncs; [|exact H2]. unfold w1. wsimpl. by rewrite Hcalm.
  - unfold try_catch in Hrun. destruct (handleUpdate_returns w) as [w1 H1].
    rewrite H1 in Hrun. injection Hrun as <-. by eapply handleUpdate_syncs.
Qed.

(** * One tab too many *)

(** A creation event that finds a limit exceeded, one tab more than the
    stored count and no pass, in a browser that accepts every call, up to
    the point of enforcement. *)
Lemma run_one_tab_too_many tab w w1 w2 options place :
  faults w = [] →
  getOptions w = (Ok options, w1) →
  detectTabLimitExceeded options w1 = (Ok place, w2) →
  ToBoolean place = true →
  well_typed options →
  tabCount (stored_state w) = Z.of_nat (List.length (tabs w)) - 1 →
  tabs w ≠ [] →
  passes (stored_state w) ≤ 0 →
  ∃ w5,
    handleTabCreated tab w =
      try_catch (handleExceedTabs tab options place;; handleUpdate)
        (λ error, console_error "Failed to handle tab created:" error) w5 ∧
    faults w5 = [] ∧ untouched w w5 ∧
    session w5 !! "passes" = session w !! "passes".
Proof.
  intros Hcalm Ho Hp Ht Htyped Hcount Hne Hzero.
  assert (H2 : faults w2 = []).
  { eapply (steps_detectTabLimitExceeded (R := all_accepted)); [exact Hp|].
    eapply (steps_getOptions (R := all_accepted)); eauto. }
  assert (U2 : untouched w w2).
  { eapply stable_trans; [eapply stable_getOptions, Ho|].
    eapply stable_detectTabLimitExceeded, Hp. }
  assert (S2 : same_session w w2).
  { eapply stable_trans; [eapply stable_getOptions, Ho|].
    eapply stable_detectTabLimitExceeded, Hp. }
  destruct (updateTabCount_returns w2) as (delta & w3 & Hd).
  destruct (updateTabCount_syncs w2 delta w3 H2 Hd) as [_ Hdelta].
  assert (Hone : delta = 1).
  { destruct U2 as (T2 & _). unfold same_session in S2.
    unfold stored_state in Hdelta. rewrite S2, T2 in Hdelta. fold (stored_state w) in Hdelta.
    rewrite Hcount in Hdelta.
    assert (0 < Z.of_nat (List.length (tabs w))) by (destruct (tabs w); [done | simpl; lia]).
    destruct (Z.eqb_spec (Z.of_nat (List.length (tabs w)))
                (Z.of_nat (List.length (tabs w)) - 1)); [lia|].
    destruct (Z.eqb_spec (Z.of_nat (List.length (tabs w)) - 1) (-1)); lia. }
  assert (H3 : faults w3 = []) by (eapply (steps_updateTabCount (R := all_accepted)); eauto).
  assert (Hs : getSessionState w3 = (Ok (stored_state w3), after_call StorageSessionGet w3))
    by (by rewrite run_getSessionState, H3).
  assert (P3 : same_passes w w3).
  { eapply frame_trans; [eapply steps_getOptions, Ho|].
    eapply frame_trans; [eapply steps_detectTabLimitExceeded, Hp|].
    eapply steps_updateTabCount, Hd. }
  destruct (displayAlert_returns options place (after_call StorageSessionGet w3) Htyped)
    as (v & w5 & Ha).
  { eapply detectTabLimitExceeded_result; eassumption. }
  exists w5. split.
  - rewrite (run_handleTabCreated_no_pass _ _ _ _ _ _ _ _ _ _ _ _ Ho Hp Ht Hd Hs
               ltac:(by rewrite (passes_of_store _ _ P3)) Ha).
    unfold after_alert. by rewrite Hone.
  - split.
    { eapply (steps_displayAlert (R := all_accepted)); [done | exact Ha |].
      wsimpl. by rewrite H3. }
    split.
    { eapply stable_trans; [exact U2|].
      eapply stable_trans; [eapply untouched_updateTabCount, Hd|].
      eapply stable_trans; [|eapply stable_displayAlert, Ha]. apply stable_call. }
    pose proof (stable_displayAlert (R := same_session) _ _ _ _ _ Ha) as S5.
    unfold same_session in S5. rewrite S5. wsimpl. exact P3.
Qed.

(** X18.  One tab too many is closed.  In a browser that accepts every call,
    let the created tab be open, the detector report an exceeded scope, the
    stored count be one less than the number of open tabs, no pass be in
    store and the alert template be a string; let the options not ask for a
    new window, or the scope be ["total"].  Then after the handler the open
    tabs are the ones before without the created tab, the focus is where it
    was, the stored count is the number of tabs that are left and the pass
    counter is what it was. *)
Theorem tab_over_the_limit_is_closed
    (tab : Tab) (w w1 w2 : World) (options : Options) (place : JSVal) :
  faults w = [] →
  getOptions w = (Ok options, w1) →
  detectTabLimitExceeded options w1 = (Ok place, w2) →
  ToBoolean place = true →
  well_typed options →
  has_tab (id tab) (tabs w) = true →
  tabCount (stored_state w) = Z.of_nat (List.length (tabs w)) - 1 →
  passes (stored_state w) ≤ 0 →
  ToBoolean (prop options "exceedTabNewWindow") = false ∨ place = VStr "total" →
  ∃ w',
    handleTabCreated tab w = (Ok tt, w') ∧
    tabs w' = List.filter (λ t, negb (id t =? id tab)) (tabs w) ∧
    currentWindow w' = currentWindow w ∧
    tabCount (stored_state w') = Z.of_nat (List.length (tabs w')) ∧
    passes (stored_state w') = passes (stored_state w).
Proof.
  intros Hcalm Ho Hp Ht Htyped Hhas Hcount Hzero Hclose.
  assert (Hne : tabs w ≠ []) by (by destruct (tabs w)).
  destruct (run_one_tab_too_many tab w w1 w2 options place
              Hcalm Ho Hp Ht Htyped Hcount Hne Hzero)
    as (w5 & -> & H5 & (T5 & C5 & _) & P5).
  assert (Hremove : (ToBoolean (prop options "exceedTabNewWindow") &&
                     strict_eq_string place "window") = false).
  { destruct Hclose as [-> | ->]; [done | apply andb_false_r]. }
  unfold try_catch. rewrite run_bind.
  unfold handleExceedTabs at 1, try_catch. rewrite Hremove.
  unfold chrome_tabs_remove. rewrite !run_bind, run_invoke, H5. cbn [hd].
  rewrite run_get_world. wsimpl. rewrite T5, Hhas. cbn [modify]. rewrite C5.
  set (w6 := set_tabs _ _ _).
  destruct (handleUpdate_returns w6) as [w' Hup]. rewrite Hup.
  exists w'. split; [done|].
  destruct (untouched_handleUpdate _ _ _ Hup) as (T' & C' & _).
  split; [by rewrite T'|]. split; [by rewrite C'|].
  split; [eapply handleUpdate_syncs; [|exact Hup]; unfold w6; wsimpl; by rewrite H5|].
  unfold stored_state, read_session. cbn [passes].
  rewrite (steps_handleUpdate (R := same_passes) _ _ _ Hup). unfold w6. wsimpl. by rewrite P5.
Qed.

Lemma fresh_window_above w t : t ∈ tabs w → windowId t < fresh_window w.
Proof.
  unfold fresh_window. generalize (currentWindow w) as cw.
  induction (tabs w) as [|t' ts IH]; intros cw Ht; [by apply elem_of_nil in Ht|].
  apply elem_of_cons in Ht as [-> | Ht]; simpl.
  - lia.
  - specialize (IH cw Ht). lia.
Qed.

Lemma countable_moved options (f : Tab → Tab) ts :
  (∀ t, pinned (f t) = pinned t) →
  List.length (List.filter (countable options) (map f ts)) =
  List.length (List.filter (countable options) ts).
Proof.
  intros Hf. induction ts as [|t ts IH]; [done|]. simpl.
  assert (countable options (f t) = countable options t) as ->
    by (unfold countable; by rewrite Hf).
  destruct (countable options t); simpl; by rewrite IH.
Qed.

(** X19.  One tab too many in a window is moved, not closed.  In a browser
    that accepts every call, let the created tab be open, the detector
    report ["window"], the stored count be one less than the number of open
    tabs, no pass be in store, the alert template be a string and
    [exceedTabNewWindow] be truthy.  Then after the handler the created tab
    sits in a new window that has the focus and holds no other tab; every
    other tab is where it was; the number of tabs that count towards the
    total limit is the same as before (so a total limit that was exceeded
    as well still is), and the stored count is the number of open tabs. *)
Theorem relocated_tab_still_counts_in_total
    (tab : Tab) (w w1 w2 : World) (options : Options) :
  faults w = [] →
  getOptions w = (Ok options, w1) →
  detectTabLimitExceeded options w1 = (Ok (VStr "window"), w2) →
  well_typed options →
  has_tab (id tab) (tabs w) = true →
  tabCount (stored_state w) = Z.of_nat (List.length (tabs w)) - 1 →
  passes (stored_state w) ≤ 0 →
  ToBoolean (prop options "exceedTabNewWindow") = true →
  ∃ w',
    handleTabCreated tab w = (Ok tt, w') ∧
    tabs w' =
      map (λ t, if id t =? id tab then mkTab (id t) (fresh_window w) (pinned t) else t)
          (tabs w) ∧
    currentWindow w' = fresh_window w ∧
    (∀ t, t ∈ tabs w' → windowId t = currentWindow w' → id t = id tab) ∧
    List.length (total_tabs options w') = List.length (total_tabs options w) ∧
    tabCount (stored_state w') = Z.of_nat (List.length (tabs w)).
Proof.
  intros Hcalm Ho Hp Htyped Hhas Hcount Hzero Hmove.
  assert (Hne : tabs w ≠ []) by (by destruct (tabs w)).
  destruct (run_one_tab_too_many tab w w1 w2 options (VStr "window")
              Hcalm Ho Hp eq_refl Htyped Hcount Hne Hzero)
    as (w5 & -> & H5 & (T5 & C5 & _) & P5).
  unfold try_catch. rewrite run_bind.
  unfold handleExceedTabs at 1, try_catch. rewrite Hmove. cbn [strict_eq_string andb String.eqb Ascii.eqb Bool.eqb].
  unfold chrome_windows_create. rewrite !run_bind, run_invoke, H5. cbn [hd].
  rewrite run_get_world. wsimpl. rewrite T5, Hhas. cbn [modify].
  assert (Hfresh : fresh_window (after_call (WindowsCreate (id tab) true) w5) = fresh_window w).
  { unfold fresh_window. wsimpl. by rewrite T5, C5. }
  rewrite Hfresh.
  set (w6 := set_tabs _ _ _).
  destruct (handleUpdate_returns w6) as [w' Hup]. rewrite Hup.
  exists w'. split; [done|].
  destruct (untouched_handleUpdate _ _ _ Hup) as (T' & C' & _).
  assert (H6 : faults w6 = []) by (unfold w6; wsimpl; by rewrite H5).
  split; [by rewrite T'|]. split; [by rewrite C'|]. split; [|split].
  - rewrite T', C'. unfold w6. wsimpl. intros t Ht Hw.
    apply list_elem_of_fmap in Ht as (t0 & -> & Ht0).
    destruct (id t0 =? id tab) eqn:E; [by apply Z.eqb_eq in E|].
    pose proof (fresh_window_above w t0 Ht0). lia.
  - unfold total_tabs. rewrite T'. unfold w6. wsimpl. apply countable_moved.
    intros t. by destruct (id t =? id tab).
  - rewrite (handleUpdate_syncs w6 w' H6 Hup), T'. unfold w6. wsimpl.
    by rewrite length_map.
Qed.

(** * The detector of the edge-case suite *)

(** X24.  The [detectTabLimitExceeded] of the edge-case suite (both queries
    first, then [max >= MIN_ALLOWED_TABS && count > max] for the window and
    then for the total) and the one of the worker are the same function:
    for all options and all worlds they make the same calls and return or
    throw the same. *)
Theorem edge_case_detector_agrees (options : Options) (w : World) :
  EdgeCases.detectTabLimitExceeded options w = detectTabLimitExceeded options w.
Proof.
  unfold EdgeCases.detectTabLimitExceeded, detectTabLimitExceeded.
  rewrite !run_bind. unfold Promise_all2.
  rewrite run_window_check, run_total_check, !run_tabQuery. wsimpl.
  rewrite window_query, total_query.
  fold (window_tabs options w). fold (total_tabs options w).
  destruct (hd false (faults w)), (hd false (tail (faults w))); try reflexivity.
  { by destruct (races w) as [|[] ?]. }
  change (total_tabs options (after_call _ w)) with (total_tabs options w).
  generalize (Z.of_nat (List.length (window_tabs options w))) as nw.
  generalize (Z.of_nat (List.length (total_tabs options w))) as nt. intros nt nw.
  unfold Num_ge, MIN_ALLOWED_TABS, Num.lt, Num.gt, js_or.
  destruct (ToNumber (prop options "maxWindow")) as [mw|],
           (ToNumber (prop options "maxTotal")) as [mt|]; simpl.
  - destruct (Z.leb_spec 1 mw), (Z.ltb_spec mw 1); try lia; simpl;
      destruct (Z.leb_spec 1 mt), (Z.ltb_spec mt 1); try lia; simpl;
      destruct (mw <? nw), (mt <? nt); reflexivity.
  - destruct (Z.leb_spec 1 mw), (Z.ltb_spec mw 1); try lia; simpl;
      destruct (mw <? nw); reflexivity.
  - destruct (Z.leb_spec 1 mt), (Z.ltb_spec mt 1); try lia; simpl;
      destruct (mt <? nt); reflexivity.
  - reflexivity.
Qed.

(** * The session-state helper of the tests *)

Lemma run_SessionState_get w :
  SessionState.get w =
  (Ok (if hd false (faults w) then SESSION_STATE_DEFAULTS else stored_state w),
   after_call StorageSessionGet w).
Proof.
  unfold SessionState.get, try_catch, chrome_storage_session_get.
  rewrite run_bind, run_invoke. by destruct (hd false (faults w)).
Qed.

Lemma run_SessionState_set u w : SessionState.set u w = updateSessionState u w.
Proof. reflexivity. Qed.

Lemma run_SessionState_decrementPasses w :
  faults w = [] →
  ∃ w',
    SessionState.decrementPasses w = (Ok (Z.max 0 (passes (stored_state w) - 1)), w') ∧
    faults w' = [] ∧
    passes (stored_state w') = Z.max 0 (passes (stored_state w) - 1).
Proof.
  intros Hcalm. unfold SessionState.decrementPasses.
  rewrite run_bind, run_SessionState_get, Hcalm. cbn [hd]. cbv zeta.
  rewrite run_bind, run_SessionState_set, run_updateSessionState. wsimpl.
  rewrite Hcalm. cbn [hd tail].
  eexists. split; [reflexivity|]. wsimpl. split; [by rewrite Hcalm|].
  unfold stored_state at 1, read_session. wsimpl. cbn [passes].
  by rewrite lookup_union_l', lookup_singleton_eq by (by rewrite lookup_singleton_eq).
Qed.

Lemma decrements_in_a_row n w :
  faults w = [] →
  0 ≤ passes (stored_state w) →
  ∃ w',
    in_a_row n SessionState.decrementPasses w = (Ok tt, w') ∧
    faults w' = [] ∧
    passes (stored_state w') = Z.max 0 (passes (stored_state w) - Z.of_nat n).
Proof.
  revert w. induction n as [|n IH]; intros w Hcalm Hpos.
  - exists w. split; [done|]. split; [done|]. lia.
  - destruct (run_SessionState_decrementPasses w Hcalm) as (w1 & Hrun & H1 & P1).
    destruct (IH w1 H1 ltac:(lia)) as (w' & Hrest & H' & P').
    exists w'. cbn [in_a_row]. rewrite run_bind, Hrun. split; [exact Hrest|].
    split; [exact H'|]. lia.
Qed.

(** X25.  The session-state helper of the tests, in a browser that accepts
    every call.  [initialize] resets the four stored fields to their
    defaults.  [incrementPasses(amount)] returns and stores the counter
    plus [amount]; when that is not negative, [n] calls of
    [decrementPasses] in a row after it leave the counter at
    [max 0 (passes + amount - n)]: each takes one pass off, and the
    counter stays at 0 once it is there. *)
Theorem SessionState_passes_last (amount : Z) (n : nat) (w : World) :
  faults w = [] →
  0 ≤ passes (stored_state w) + amount →
  ∃ w0 w1 w2,
    SessionState.initialize w = (Ok tt, w0) ∧
    stored_state w0 = SESSION_STATE_DEFAULTS ∧
    SessionState.incrementPasses amount w = (Ok (passes (stored_state w) + amount), w1) ∧
    passes (stored_state w1) = passes (stored_state w) + amount ∧
    in_a_row n SessionState.decrementPasses w1 = (Ok tt, w2) ∧
    passes (stored_state w2) = Z.max 0 (passes (stored_state w) + amount - Z.of_nat n).
Proof.
  intros Hcalm Hpos.
  assert (Hinc : ∃ w1,
    SessionState.incrementPasses amount w = (Ok (passes (stored_state w) + amount), w1) ∧
    faults w1 = [] ∧
    passes (stored_state w1) = passes (stored_state w) + amount).
  { unfold SessionState.incrementPasses.
    rewrite run_bind, run_SessionState_get, Hcalm. cbn [hd]. cbv zeta.
    rewrite run_bind, run_SessionState_set, run_updateSessionState. wsimpl.
    rewrite Hcalm. cbn [hd tail].
    eexists. split; [reflexivity|]. wsimpl. split; [by rewrite Hcalm|].
    unfold stored_state at 1, read_session. wsimpl. cbn [passes].
    by rewrite lookup_union_l', lookup_singleton_eq by (by rewrite lookup_singleton_eq). }
  destruct Hinc as (w1 & Hinc & H1 & P1).
  destruct (decrements_in_a_row n w1 H1 ltac:(lia)) as (w2 & Hdec & _ & P2).
  unfold SessionState.initialize.
  rewrite run_SessionState_set, run_updateSessionState, Hcalm. cbn [hd].
  eexists _, w1, w2. split; [reflexivity|]. split.
  { unfold stored_state, read_session, SESSION_STATE_DEFAULTS. wsimpl.
    f_equal; (erewrite lookup_union_Some_l; [reflexivity|]);
      by rewrite ?lookup_insert_ne, ?lookup_insert_eq, ?lookup_singleton_eq by done. }
  split; [exact Hinc|]. split; [exact P1|]. split; [exact Hdec|]. rewrite P2. lia.
Qed.

(** * Numbers written as text *)

Lemma digit_of_char d :
  (d < 10)%N → digit_value (pretty_N_char d) = Some (Z.of_N d).
Proof.
  intros Hd.
  assert (d = 0 ∨ d = 1 ∨ d = 2 ∨ d = 3 ∨ d = 4 ∨ d = 5 ∨ d = 6 ∨ d = 7 ∨ d = 8 ∨ d = 9)%N
    as Hcases by lia.
  repeat destruct Hcases as [-> | Hcases]; try reflexivity. by subst.
Qed.

Lemma char_not_white_space d : is_white_space (pretty_N_char d) = false.
Proof. unfold pretty_N_char. by repeat case_match. Qed.

(** Reading the digits that [pretty_N_go] writes in front of [s]. *)
Lemma parse_pretty_N_go x :
  ∀ s acc, ∃ k : Z,
    0 ≤ k ∧
    parse_digits acc (pretty_N_go x s) = parse_digits (acc * 10 ^ k + Z.of_N x) s.
Proof.
  induction (N.lt_wf_0 x) as [x _ IH]. intros s acc.
  destruct (decide (x = 0)%N) as [-> | Hx].
  - exists 0. rewrite pretty_N_go_0. split; [done|]. f_equal. lia.
  - rewrite pretty_N_go_step by lia.
    destruct (IH (x `div` 10)%N ltac:(apply N.div_lt; lia)
                 (String (pretty_N_char (x `mod` 10)) s) acc) as (k & Hk & ->).
    exists (k + 1). split; [lia|]. cbn [parse_digits].
    rewrite digit_of_char by (apply N.mod_lt; lia). f_equal.
    rewrite Z.pow_add_r, Z.pow_1_r by lia.
    rewrite (N.div_mod x 10) at 3 by lia. lia.
Qed.

Lemma pretty_N_go_no_space x :
  ∀ s, string_forall (λ c, negb (is_white_space c)) s = true →
       string_forall (λ c, negb (is_white_space c)) (pretty_N_go x s) = true.
Proof.
  induction (N.lt_wf_0 x) as [x _ IH]. intros s Hs.
  destruct (decide (x = 0)%N) as [-> | Hx]; [by rewrite pretty_N_go_0|].
  rewrite pretty_N_go_step by lia. apply IH; [apply N.div_lt; lia|].
  cbn [string_forall]. by rewrite char_not_white_space, Hs.
Qed.

Lemma forall_rev_app p s t :
  string_forall p (String.rev_app s t) = string_forall p s && string_forall p t.
Proof.
  revert t. induction s as [|c s IH]; intros t; [done|].
  cbn [String.rev_app string_forall]. rewrite IH. cbn [string_forall].
  by destruct (p c), (string_forall p s).
Qed.

Lemma rev_app_rev_app s t u :
  String.rev_app (String.rev_app s t) u = String.rev_app t (s +:+ u).
Proof.
  revert t u. induction s as [|c s IH]; intros t u; [done|].
  cbn [String.rev_app]. by rewrite IH.
Qed.

Lemma app_empty_r s : s +:+ "" = s.
Proof. induction s as [|c s IH]; [done|]. by rewrite app_cons, IH. Qed.

Lemma trim_start_no_space s :
  string_forall (λ c, negb (is_white_space c)) s = true → trim_start s = s.
Proof.
  destruct s as [|c s]; [done|]. cbn [string_forall trim_start].
  by destruct (is_white_space c).
Qed.

Lemma trim_no_space s :
  string_forall (λ c, negb (is_white_space c)) s = true → trim s = s.
Proof.
  intros Hs. unfold trim, String.rev. rewrite (trim_start_no_space s Hs).
  rewrite trim_start_no_space by (by rewrite forall_rev_app, Hs).
  by rewrite rev_app_rev_app, app_empty_r.
Qed.

Lemma pretty_N_go_starts x s :
  (0 < x)%N → ∃ d t, (d < 10)%N ∧ pretty_N_go x s = String (pretty_N_char d) t.
Proof.
  revert s. induction (N.lt_wf_0 x) as [x _ IH]. intros s Hx.
  rewrite pretty_N_go_step by lia.
  destruct (decide (x `div` 10 = 0)%N) as [-> | Hd].
  - rewrite pretty_N_go_0. eexists _, _. split; [|reflexivity]. apply N.mod_lt. lia.
  - apply IH; [apply N.div_lt; lia | by apply N.neq_0_lt_0].
Qed.

(** [Number(String(z))] is [z]. *)
Lemma StringToNumber_pretty z : StringToNumber (pretty z) = Fin z.
Proof.
  destruct z as [|p|p].
  - reflexivity.
  - change (pretty (Z.pos p)) with (pretty_N_go (N.pos p) "").
    unfold StringToNumber.
    rewrite trim_no_space by (by apply pretty_N_go_no_space).
    destruct (parse_pretty_N_go (N.pos p) "" 0) as (k & _ & Hparse).
    cbn [parse_digits] in Hparse. rewrite Z.mul_0_l, Z.add_0_l in Hparse.
    destruct (pretty_N_go_starts (N.pos p) "" ltac:(lia)) as (d & t & Hd & Heq).
    rewrite Heq in Hparse |- *.
    assert (Hsign : pretty_N_char d ≠ "+"%char ∧ pretty_N_char d ≠ "-"%char).
    { unfold pretty_N_char. by repeat case_match. }
    destruct Hsign as [Hplus Hminus].
    destruct (pretty_N_char d) as [[] [] [] [] [] [] [] []] eqn:E;
      try (by rewrite Hparse); try (by destruct Hplus); by destruct Hminus.
  - change (pretty (Z.neg p)) with ("-" +:+ pretty_N_go (N.pos p) "").
    unfold StringToNumber.
    rewrite trim_no_space
      by (rewrite app_cons, app_empty; cbn [string_forall];
          by rewrite pretty_N_go_no_space).
    destruct (parse_pretty_N_go (N.pos p) "" 0) as (k & _ & Hparse).
    cbn [parse_digits] in Hparse. rewrite Z.mul_0_l, Z.add_0_l in Hparse.
    destruct (pretty_N_go_starts (N.pos p) "" ltac:(lia)) as (d & t & Hd & Heq).
    rewrite app_cons, app_empty. rewrite Heq in Hparse |- *.
    by rewrite Hparse.
Qed.

Lemma prop_insert_eq options k v : prop (<[k := v]> options) k = v.
Proof. unfold prop. by rewrite lookup_insert_eq. Qed.

Lemma prop_insert_ne options k k' v : k ≠ k' → prop (<[k := v]> options) k' = prop options k'.
Proof. intros Hk. unfold prop. by rewrite lookup_insert_ne. Qed.

(** The detector and the badge read the limits as numbers, and of the
    other options only whether pinned tabs count and whether the badge is on. *)
Lemma limits_read_as_numbers (o1 o2 : Options) :
  ToNumber (prop o1 "maxWindow") = ToNumber (prop o2 "maxWindow") →
  ToNumber (prop o1 "maxTotal") = ToNumber (prop o2 "maxTotal") →
  prop o1 "countPinnedTabs" = prop o2 "countPinnedTabs" →
  prop o1 "displayBadge" = prop o2 "displayBadge" →
  ∀ w, detectTabLimitExceeded o1 w = detectTabLimitExceeded o2 w ∧
       updateBadge o1 w = updateBadge o2 w.
Proof.
  intros Hw Ht Hp Hb w.
  assert (Hq : ∀ params, query_sent o1 params = query_sent o2 params)
    by (intros params; unfold query_sent; by rewrite Hp).
  assert (Hwt : ∀ w, window_tabs o1 w = window_tabs o2 w).
  { intros w0. unfold window_tabs. apply filter_ext. intros t. unfold countable. by rewrite Hp. }
  assert (Htt : ∀ w, total_tabs o1 w = total_tabs o2 w).
  { intros w0. unfold total_tabs. apply filter_ext. intros t. unfold countable. by rewrite Hp. }
  split.
  - unfold detectTabLimitExceeded. rewrite !run_bind. unfold Promise_all2.
    by rewrite !run_window_check, !run_total_check, !Hq, Hw, Ht, Hwt, Htt.
  - unfold updateBadge, try_catch. rewrite Hb.
    destruct (negb _); [reflexivity|].
    rewrite !run_bind. unfold Promise_all2.
    by rewrite !run_windowRemaining, !run_totalRemaining, !Hq, Hw, Ht, Hwt, Htt.
Qed.

(** X23.  A limit written as text counts as the number.  The decimal
    numeral of an integer converts back to that integer; so with
    [maxWindow] and [maxTotal] stored as the numerals of [mw] and [mt] (the
    options page stores the text of its input fields), the detector and
    the badge do, in every world, exactly what they do with the numbers
    [mw] and [mt]. *)
Theorem limits_written_as_text_count_as_numbers
    (options : Options) (mw mt : Z) (w : World) :
  let as_text :=
    <["maxWindow" := VStr (Num.toString (Fin mw))]>
      (<["maxTotal" := VStr (Num.toString (Fin mt))]> options) in
  let as_numbers :=
    <["maxWindow" := VNum (Fin mw)]> (<["maxTotal" := VNum (Fin mt)]> options) in
  ToNumber (VStr (Num.toString (Fin mw))) = Fin mw ∧
  detectTabLimitExceeded as_text w = detectTabLimitExceeded as_numbers w ∧
  updateBadge as_text w = updateBadge as_numbers w.
Proof.
  intros as_text as_numbers.
  split; [apply StringToNumber_pretty|].
  apply limits_read_as_numbers; unfold as_text, as_numbers.
  - rewrite !prop_insert_eq. apply StringToNumber_pretty.
  - rewrite !(prop_insert_ne _ "maxWindow") by done. rewrite !prop_insert_eq.
    apply StringToNumber_pretty.
  - by rewrite !prop_insert_ne by done.
  - by rewrite !prop_insert_ne by done.
Qed.

(** * The first letter *)

(** X22.  [capitalizeFirstLetter] throws a [TypeError] on the empty string.
    On a string that starts with an ASCII character it returns the string
    with that character in upper case ([a]-[z] become [A]-[Z], any other
    ASCII character stays) and the rest unchanged, and applying it to the
    result changes nothing. *)
Theorem capitalizeFirstLetter_first_letter_only (c : ascii) (s : string) :
  (nat_of_ascii c < 128)%nat →
  capitalizeFirstLetter (VStr "") =
    Throw (TypeError "Cannot read properties of undefined (reading 'toUpperCase')") ∧
  ∃ c',
    capitalizeFirstLetter (VStr (String c s)) = Ok (String c' s) ∧
    capitalizeFirstLetter (VStr (String c' s)) = Ok (String c' s) ∧
    (if (97 <=? nat_of_ascii c)%nat && (nat_of_ascii c <=? 122)%nat
     then nat_of_ascii c' = (nat_of_ascii c - 32)%nat
     else c' = c).
Proof.
  intros Hc. split; [reflexivity|].
  exists (toUpperCase c). split; [reflexivity|].
  unfold capitalizeFirstLetter, toUpperCase.
  destruct ((97 <=? nat_of_ascii c)%nat && (nat_of_ascii c <=? 122)%nat) eqn:E.
  - apply andb_true_iff in E as [E1 E2]. apply Nat.leb_le in E1, E2.
    rewrite nat_ascii_embedding by lia.
    assert (((97 <=? nat_of_ascii c - 32)%nat && (nat_of_ascii c - 32 <=? 122)%nat) = false)
      as -> by (apply andb_false_iff; left; apply Nat.leb_gt; lia).
    done.
  - by rewrite E.
Qed.

(** * The first event of a session *)

Lemma getOptions_returns w : ∃ options w', getOptions w = (Ok options, w').
Proof.
  rewrite run_getOptions. cbv zeta.
  destruct (hd false (faults w)); [|destruct (hd false (tail (faults w)))]; by eexists _, _.
Qed.

Lemma first_count_is_zero w :
  session w !! "tabCount" = None → ∃ w', updateTabCount w = (Ok 0, w').
Proof.
  intros Hnone. unfold updateTabCount, try_catch.
  rewrite run_bind, run_chrome_tabs_query.
  destruct (hd false (faults w)); [by eexists|].
  rewrite run_bind, run_getSessionState. wsimpl.
  assert (Hstate : tabCount (if hd false (tail (faults w)) then default_state
                             else stored_state (after_call (TabsQuery (mkQuery None None)) w))
                   = -1).
  { destruct (hd false (tail (faults w))); [done|].
    unfold stored_state, read_session. wsimpl. cbn [tabCount]. by rewrite Hnone. }
  destruct (hd false (tail (faults w))).
  - cbn [tabCount default_state] in *.
    match goal with |- context [Z.of_nat ?n =? -1] =>
      assert ((Z.of_nat n =? -1) = false) as -> by (apply Z.eqb_neq; lia) end.
    cbv zeta. rewrite run_bind, run_updateSessionState.
    match goal with |- context [hd false ?f] => destruct (hd false f) end; by eexists.
  - rewrite Hstate.
    match goal with |- context [Z.of_nat ?n =? -1] =>
      assert ((Z.of_nat n =? -1) = false) as -> by (apply Z.eqb_neq; lia) end.
    cbv zeta. rewrite run_bind, run_updateSessionState.
    match goal with |- context [hd false ?f] => destruct (hd false f) end; by eexists.
Qed.

(** X20.  The first creation event of a session never enforces.  When the
    session store holds no [tabCount] (a fresh browser session), then
    whatever the tabs, the options, the limits and the calls the browser
    rejects, the handler of a creation event returns without asking the
    browser to close or relocate a tab, and the tabs and the focus are the
    same afterwards. *)
Theorem first_event_never_enforces (tab : Tab) (w : World) :
  session w !! "tabCount" = None →
  ∃ w',
    handleTabCreated tab w = (Ok tt, w') ∧
    extends no_enforcement w w' ∧
    tabs w' = tabs w ∧ currentWindow w' = currentWindow w.
Proof.
  intros Hnone.
  destruct (handleTabCreated_returns tab w) as [w' Hrun]. exists w'. split; [exact Hrun|].
  revert Hrun. unfold handleTabCreated, try_catch. rewrite run_bind.
  destruct (getOptions_returns w) as (options & w1 & Ho). rewrite Ho.
  rewrite run_bind.
  destruct (detectTabLimitExceeded options w1) as [[place|e] w2] eqn:Hp.
  2: { intros [= <-].
       assert (U : untouched w w2).
       { eapply stable_trans; [eapply stable_getOptions, Ho|].
         eapply stable_detectTabLimitExceeded, Hp. }
       split; [|wsimpl; by destruct U as (-> & -> & _)].
       eapply frame_trans; [eapply steps_getOptions, Ho|].
       eapply frame_trans; [eapply steps_detectTabLimitExceeded, Hp | apply frame_console]. }
  assert (F2 : extends no_enforcement w w2).
  { eapply frame_trans; [eapply steps_getOptions, Ho|].
    eapply steps_detectTabLimitExceeded, Hp. }
  assert (U2 : untouched w w2).
  { eapply stable_trans; [eapply stable_getOptions, Ho|].
    eapply stable_detectTabLimitExceeded, Hp. }
  assert (S2 : same_session w w2).
  { eapply stable_trans; [eapply stable_getOptions, Ho|].
    eapply stable_detectTabLimitExceeded, Hp. }
  destruct (ToBoolean place); cbn [negb].
  2: { destruct (handleUpdate_returns w2) as [w3 H3]. rewrite H3. intros [= <-].
       split; [eapply frame_trans; [exact F2 | eapply steps_handleUpdate, H3]|].
       destruct (untouched_handleUpdate _ _ _ H3) as (-> & -> & _).
       by destruct U2 as (-> & -> & _). }
  rewrite run_bind.
  destruct (first_count_is_zero w2) as [w3 Hd].
  { unfold same_session in S2. by rewrite S2. }
  rewrite Hd, run_bind.
  destruct (getSessionState_returns w3) as (state & w4 & Hs). rewrite Hs.
  assert (F4 : extends no_enforcement w w4).
  { eapply frame_trans; [exact F2|].
    eapply frame_trans; [eapply steps_updateTabCount, Hd | eapply steps_getSessionState, Hs]. }
  assert (U4 : untouched w w4).
  { eapply stable_trans; [exact U2|].
    eapply stable_trans; [eapply untouched_updateTabCount, Hd|].
    eapply stable_getSessionState, Hs. }
  destruct (passes state >? 0).
  { destruct (after_updateSessionState {[ "passes" := passes state - 1 ]} w4)
      as (w5 & log & H5 & Htrace & Flog & _).
    rewrite H5. intros [= <-]. split.
    - eapply frame_trans; [exact F4|]. exists (Called (StorageSessionSet {[ "passes" := passes state - 1 ]}) :: log).
      split; [exact Htrace|]. constructor; [done|].
      eapply Forall_impl; [exact Flog | by intros ? (? & _)].
    - destruct (stable_updateSessionState (R := untouched) _ ltac:(done) _ _ _ H5)
        as (-> & -> & _). by destruct U4 as (-> & -> & _). }
  rewrite run_bind.
  destruct (displayAlert options place w4) as [[v|e] w5] eqn:Ha.
  - cbn [Z.eqb Z.gtb Z.compare]. intros [= <-]. split.
    + eapply frame_trans; [exact F4|]. eapply steps_displayAlert; [done | exact Ha].
    + destruct (stable_displayAlert (R := untouched) _ _ _ _ _ Ha) as (-> & -> & _).
      by destruct U4 as (-> & -> & _).
  - intros [= <-]. split.
    + eapply frame_trans; [exact F4|].
      eapply frame_trans; [eapply steps_displayAlert; [done | exact Ha] | apply frame_console].
    + wsimpl. destruct (stable_displayAlert (R := untouched) _ _ _ _ _ Ha) as (-> & -> & _).
      by destruct U4 as (-> & -> & _).
Qed.

(** * What the pattern matches *)





(** * The statements at work, again *)


Lemma exceeded_limit_shows_negative_badge_witness :
  ∃ w2 left,
    updateBadge ex_badge_options ex_world_q2 = (Ok tt, w2) ∧
    badge w2 = pretty left ∧ left < 0.
Proof.
  apply (exceeded_limit_shows_negative_badge ex_badge_options ex_world ex_world_q2
           (VStr "window") 2 2); vm_compute; reflexivity.
Defined.

Lemma only_creation_events_enforce_witness :
  ∃ w',
    listener tabs_onRemoved ex_world = (Ok tt, w') ∧
    extends bookkeeping ex_world w' ∧
    session w' !! "passes" = session ex_world !! "passes" ∧
    tabs w' = tabs ex_world ∧ currentWindow w' = currentWindow ex_world ∧
    sync_items w' = sync_items ex_world.
Proof.
  apply (only_creation_events_enforce tabs_onRemoved ex_world).
  intros tab. discriminate.
Defined.

Lemma creation_within_limits_is_bookkeeping_witness :
  ∃ w',
    handleTabCreated ex_tab ex_world = (Ok tt, w') ∧
    extends bookkeeping ex_world w' ∧
    session w' !! "passes" = session ex_world !! "passes" ∧
    untouched ex_world w' ∧
    (∀ place, Ok VNull = Ok place → handleUpdate ex_calm_w2 = (Ok tt, w')) ∧
    (∀ e, Ok VNull = Throw e →
          w' = emit (ConsoleError "Failed to handle tab created:" e) ex_calm_w2).
Proof.
  apply (creation_within_limits_is_bookkeeping ex_tab ex_world ex_calm_w1 ex_calm_w2
           DEFAULT_OPTIONS (Ok VNull)); try (vm_compute; reflexivity).
  intros place [= <-]. reflexivity.
Defined.

Lemma single_creation_is_enforced_witness :
  ∃ w' before after,
    handleTabCreated ex_tab ex_single_w = (Ok tt, w') ∧
    trace w' = trace ex_single_w ++ before ++ Called (TabsRemove 3) :: after ∧
    Forall harmless before ∧ Forall bookkeeping after ∧
    (ToBoolean (prop ex_options "displayAlert") = true →
     Exists (λ e, alert e = true) before).
Proof.
  apply (single_creation_is_enforced ex_tab ex_single_w ex_single_w1 ex_single_w2
           ex_single_w3 ex_single_w4 ex_options (VStr "window") 1 ex_single_state);
    try (vm_compute; reflexivity).
  - vm_compute. discriminate.
  - left. reflexivity.
  - eexists. reflexivity.
Defined.

Lemma broken_template_disables_enforcement_witness :
  ∃ msg w',
    displayAlert ex_broken_options (VStr "window") ex_broken_w4
      = (Throw (TypeError msg), ex_broken_w4) ∧
    handleTabCreated ex_tab ex_broken_w = (Ok tt, w') ∧
    w' = emit (ConsoleError "Failed to handle tab created:" (TypeError msg)) ex_broken_w4 ∧
    extends bookkeeping ex_broken_w w'.
Proof.
  apply (broken_template_disables_enforcement ex_tab ex_broken_w ex_broken_w1 ex_broken_w2
           ex_broken_w3 ex_broken_w4 ex_broken_options (VStr "window") 1 ex_single_state);
    try (vm_compute; reflexivity).
  - vm_compute. discriminate.
  - intros template. vm_compute. discriminate.
Defined.

Lemma updateTabCount_settles_witness :
  ∃ delta w1 w2,
    updateTabCount ex_world = (Ok delta, w1) ∧
    tabCount (stored_state w1) = Z.of_nat (List.length (tabs ex_world)) ∧
    amountOfTabsCreated (stored_state w1) = delta ∧
    passes (stored_state w1) = passes (stored_state ex_world) ∧
    updateTabCount w1 = (Ok delta, w2) ∧
    session w2 = session w1.
Proof. apply (updateTabCount_settles ex_world). reflexivity. Defined.

Lemma stored_count_follows_the_tabs_witness :
  ∃ w',
    listener (tabs_onCreated ex_tab) ex_single_w = (Ok tt, w') ∧
    tabCount (stored_state w') = Z.of_nat (List.length (tabs w')).
Proof. apply (stored_count_follows_the_tabs (tabs_onCreated ex_tab) ex_single_w). reflexivity. Defined.

Lemma tab_over_the_limit_is_closed_witness :
  ∃ w',
    handleTabCreated ex_tab ex_single_w = (Ok tt, w') ∧
    tabs w' = [mkTab 1 1 false; mkTab 2 1 false] ∧
    currentWindow w' = 1 ∧
    tabCount (stored_state w') = Z.of_nat (List.length (tabs w')) ∧
    passes (stored_state w') = 0.
Proof.
  apply (tab_over_the_limit_is_closed ex_tab ex_single_w ex_single_w1 ex_single_w2
           ex_options (VStr "window")); try (vm_compute; reflexivity).
  - eexists. reflexivity.
  - vm_compute. discriminate.
  - left. reflexivity.
Defined.

Lemma relocated_tab_still_counts_in_total_witness :
  ∃ w',
    handleTabCreated ex_tab ex_relocate_w = (Ok tt, w') ∧
    tabs w' = [mkTab 1 1 false; mkTab 2 1 false; mkTab 3 2 false] ∧
    currentWindow w' = 2 ∧
    (∀ t, t ∈ tabs w' → windowId t = currentWindow w' → id t = id ex_tab) ∧
    List.length (total_tabs ex_relocate_options w') =
      List.length (total_tabs ex_relocate_options ex_relocate_w) ∧
    tabCount (stored_state w') = 3.
Proof.
  apply (relocated_tab_still_counts_in_total ex_tab ex_relocate_w ex_relocate_w1
           ex_relocate_w2 ex_relocate_options); try (vm_compute; reflexivity).
  - eexists. reflexivity.
  - vm_compute. discriminate.
Defined.

Lemma capitalizeFirstLetter_first_letter_only_witness :
  capitalizeFirstLetter (VStr "") =
    Throw (TypeError "Cannot read properties of undefined (reading 'toUpperCase')") ∧
  ∃ c',
    capitalizeFirstLetter (VStr "window") = Ok (String c' "indow") ∧
    capitalizeFirstLetter (VStr (String c' "indow")) = Ok (String c' "indow") ∧
    nat_of_ascii c' = 87%nat.
Proof.
  apply (capitalizeFirstLetter_first_letter_only "w" "indow"). vm_compute. lia.
Defined.

Lemma SessionState_passes_last_witness :
  ∃ w0 w1 w2,
    SessionState.initialize ex_world = (Ok tt, w0) ∧
    stored_state w0 = SESSION_STATE_DEFAULTS ∧
    SessionState.incrementPasses 4 ex_world = (Ok 4, w1) ∧
    passes (stored_state w1) = 4 ∧
    in_a_row 5 SessionState.decrementPasses w1 = (Ok tt, w2) ∧
    passes (stored_state w2) = 0.
Proof.
  apply (SessionState_passes_last 4 5 ex_world); [reflexivity|]. vm_compute. discriminate.
Defined.

Lemma first_event_never_enforces_witness :
  ∃ w',
    handleTabCreated ex_tab ex_first_w = (Ok tt, w') ∧
    extends no_enforcement ex_first_w w' ∧
    tabs w' = tabs ex_first_w ∧ currentWindow w' = currentWindow ex_first_w.
Proof. apply (first_event_never_enforces ex_tab ex_first_w). reflexivity. Defined.
